(** * Gluster-Dashboard: the harvesting, caching and synchronisation core

    A shallow embedding of

    - [perceval/backend.py]            (identity generator [uuid], the
      [metadata] decorator, the cache queue of [Backend]),
    - [perceval/backends/bugzilla.py]  (the Bugzilla connector and client,
      the loop of [parse_bug_activity] over the cells of the table),
    - [grimoire/ocean/elastic.py]      (the feed pass and the read-back
      iterator of [ElasticOcean]),

    followed by the properties of these programs.  Python objects are
    modelled by a small universe of values, exceptions by a sum type, and
    the methods that mutate [self] or talk to the network by a state
    monad whose state survives a raised exception. *)

From Stdlib Require Import ZArith List String Ascii Bool Lia Arith.
From Stdlib Require Import Sorting.Sorted Sorting.Permutation.
Import ListNotations.

Local Open Scope string_scope.
Local Open Scope list_scope.
Local Open Scope Z_scope.

(* ===================================================================== *)
(** ** Python values and exceptions *)
(* ===================================================================== *)

Module Py.

(** The values that flow through the connectors: the result of parsing
    CSV, XML, HTML and JSON payloads.  A [str] is kept as the sequence of
    the bytes of its UTF-8 encoding.  A [str] of Python may hold a lone
    surrogate code point, which UTF-8 refuses: it is kept as the three
    bytes that the ['surrogatepass'] handler gives it ([ED A0 80] to
    [ED BF BF]), so that [s.encode('utf-8')] raises on the strings that
    hold such bytes and is the identity on the others. *)
#[warnings="-register-all"]
Inductive pyval : Type :=
| PNone
| PBool (b : bool)
| PInt (z : Z)
| PStr (s : string)
| PList (l : list pyval)
| PDict (d : list (string * pyval)).

(** Exceptions raised by the modelled code.  [FuelExhausted] is not a
    Python exception: it marks the bound that the model puts on the
    unrolling of a [while] loop, and the entry points supply a bound that
    is never reached. *)
Inductive exn : Type :=
| ValueError (msg : string)
| KeyError (key : string)
| TypeError
| AttributeError
| IndexError
| UnboundLocalError (name : string)
| StopIteration
| CacheError (cause : string)
| ParseError (cause : string)
| BackendError (cause : string)
| InvalidDateError
| HTTPError
| ConnectionError
| UnicodeEncodeError
| FuelExhausted.

Inductive result (A : Type) : Type :=
| Ok (a : A)
| Raise (e : exn).
Arguments Ok {A} a.
Arguments Raise {A} e.

Definition rbind {A B} (r : result A) (f : A -> result B) : result B :=
  match r with
  | Ok a => f a
  | Raise e => Raise e
  end.

(** [[f(x) for x in l]] where [f] may raise. *)
Fixpoint map_result {A B} (f : A -> result B) (l : list A) : result (list B) :=
  match l with
  | [] => Ok []
  | x :: l' => rbind (f x) (fun y => rbind (map_result f l') (fun ys => Ok (y :: ys)))
  end.

(** Truth value testing ([if v:], [not v]). *)
Definition truthy (v : pyval) : bool :=
  match v with
  | PNone => false
  | PBool b => b
  | PInt z => negb (z =? 0)
  | PStr s => negb (String.eqb s "")
  | PList l => match l with [] => false | _ => true end
  | PDict d => match d with [] => false | _ => true end
  end.

(** [key in d] and [d[key]] on the items of a dict. *)
Fixpoint assoc (key : string) (d : list (string * pyval)) : option pyval :=
  match d with
  | [] => None
  | (k, v) :: d' => if String.eqb k key then Some v else assoc key d'
  end.

(** [d[key] = v]: replaces the value in place or appends the key. *)
Fixpoint assoc_set (key : string) (v : pyval) (d : list (string * pyval))
  : list (string * pyval) :=
  match d with
  | [] => [(key, v)]
  | (k, w) :: d' =>
      if String.eqb k key then (k, v) :: d' else (k, w) :: assoc_set key v d'
  end.

(** [v[key]] for a string key. *)
Definition getitem (v : pyval) (key : string) : result pyval :=
  match v with
  | PDict d =>
      match assoc key d with
      | Some w => Ok w
      | None => Raise (KeyError key)
      end
  | _ => Raise TypeError
  end.

(** [v[0]]. *)
Definition getitem0 (v : pyval) : result pyval :=
  match v with
  | PList (x :: _) => Ok x
  | PList [] => Raise IndexError
  | PDict _ => Raise (KeyError "0")
  | _ => Raise TypeError
  end.

(** [v[key] = w]. *)
Definition setitem (v : pyval) (key : string) (w : pyval) : result pyval :=
  match v with
  | PDict d => Ok (PDict (assoc_set key w d))
  | _ => Raise TypeError
  end.

(** A [datetime]: the seconds counted by its calendar fields and its
    [tzinfo] (absent for a naive value). *)
Record datetime : Type := mk_datetime {
  dt_seconds : Z;
  dt_tzinfo : option Z
}.

(** [d + datetime.timedelta(seconds=n)]. *)
Definition add_seconds (d : datetime) (n : Z) : datetime :=
  mk_datetime (dt_seconds d + n) (dt_tzinfo d).

(** [d.replace(tzinfo=None)]. *)
Definition replace_tzinfo_none (d : datetime) : datetime :=
  mk_datetime (dt_seconds d) None.

(** *** The monad of the methods

    A method is a function of the state of [self] and of the world; it
    returns or raises, and the state it leaves survives the exception. *)

Definition M (S A : Type) : Type := S -> result A * S.

Definition ret {S A} (a : A) : M S A := fun st => (Ok a, st).
Definition raise {S A} (e : exn) : M S A := fun st => (Raise e, st).
Definition bind {S A B} (m : M S A) (f : A -> M S B) : M S B :=
  fun st =>
    match m st with
    | (Ok a, st') => f a st'
    | (Raise e, st') => (Raise e, st')
    end.
Definition lift {S A} (r : result A) : M S A := fun st => (r, st).
Definition get {S} : M S S := fun st => (Ok st, st).
Definition modify {S} (f : S -> S) : M S unit := fun st => (Ok tt, f st).

Declare Scope py_scope.
Delimit Scope py_scope with py.
Notation "x <- c ;; k" := (bind c (fun x => k))
  (at level 61, c at next level, right associativity) : py_scope.
Notation "c ;; k" := (bind c (fun _ => k))
  (at level 61, right associativity) : py_scope.

(** [for x in l: body(x)]. *)
Fixpoint for_each {S A} (l : list A) (body : A -> M S unit) : M S unit :=
  match l with
  | [] => ret tt
  | x :: l' => bind (body x) (fun _ => for_each l' body)
  end.

End Py.
Import Py.
Local Open Scope py_scope.

(* ===================================================================== *)
(** ** SHA-1 ([hashlib.sha1]) *)
(* ===================================================================== *)

Module Sha1.

Definition w32 (x : Z) : Z := x mod 4294967296.

Definition rotl (n : Z) (x : Z) : Z :=
  w32 (Z.lor (Z.shiftl x n) (Z.shiftr x (32 - n))).

Definition not32 (x : Z) : Z := Z.lxor x 4294967295.

Definition bytes_of_string (s : string) : list Z :=
  map (fun c => Z.of_N (N_of_ascii c)) (list_ascii_of_string s).

(** Message padding: a 1 bit, zeros up to 56 mod 64, the bit length on
    64 bits, big endian. *)
Definition be_bytes (n : nat) (x : Z) : list Z :=
  map (fun i => Z.shiftr x (8 * Z.of_nat i) mod 256) (rev (seq 0 n)).

Definition pad (msg : list Z) : list Z :=
  let len := Z.of_nat (List.length msg) in
  let zeros := Z.to_nat ((55 - len) mod 64) in
  msg ++ [128] ++ repeat 0 zeros ++ be_bytes 8 (8 * len).

Fixpoint words_be (bs : list Z) : list Z :=
  match bs with
  | b0 :: b1 :: b2 :: b3 :: rest =>
      (((b0 * 256 + b1) * 256 + b2) * 256 + b3) :: words_be rest
  | _ => []
  end.

Fixpoint blocks (fuel : nat) (ws : list Z) : list (list Z) :=
  match fuel, ws with
  | S f, _ :: _ => firstn 16 ws :: blocks f (skipn 16 ws)
  | _, _ => []
  end.

(** The message schedule, most recent word first. *)
Fixpoint schedule (n : nat) (wrev : list Z) : list Z :=
  match n with
  | O => wrev
  | S n' =>
      let w := rotl 1 (Z.lxor (Z.lxor (nth 2 wrev 0) (nth 7 wrev 0))
                              (Z.lxor (nth 13 wrev 0) (nth 15 wrev 0))) in
      schedule n' (w :: wrev)
  end.

Definition hstate : Type := (Z * Z * Z * Z * Z)%type.

Definition round (i : nat) (s : hstate) (w : Z) : hstate :=
  let '(a, b, c, d, e) := s in
  let '(f, k) :=
    if (i <? 20)%nat then
      (Z.lor (Z.land b c) (Z.land (not32 b) d), 1518500249)
    else if (i <? 40)%nat then
      (Z.lxor (Z.lxor b c) d, 1859775393)
    else if (i <? 60)%nat then
      (Z.lor (Z.lor (Z.land b c) (Z.land b d)) (Z.land c d), 2400959708)
    else
      (Z.lxor (Z.lxor b c) d, 3395469782) in
  let temp := w32 (rotl 5 a + f + e + k + w) in
  (temp, a, rotl 30 b, c, d).

Fixpoint rounds (i : nat) (ws : list Z) (s : hstate) : hstate :=
  match ws with
  | [] => s
  | w :: ws' => rounds (S i) ws' (round i s w)
  end.

Definition compress (h : hstate) (block : list Z) : hstate :=
  let ws := rev (schedule 64 (rev block)) in
  let '(h0, h1, h2, h3, h4) := h in
  let '(a, b, c, d, e) := rounds 0 ws h in
  (w32 (h0 + a), w32 (h1 + b), w32 (h2 + c), w32 (h3 + d), w32 (h4 + e)).

Definition init : hstate :=
  (1732584193, 4023233417, 2562383102, 271733878, 3285377520).

Definition digest (msg : list Z) : list Z :=
  let ws := words_be (pad msg) in
  let '(h0, h1, h2, h3, h4) :=
    fold_left compress (blocks (List.length ws) ws) init in
  be_bytes 4 h0 ++ be_bytes 4 h1 ++ be_bytes 4 h2 ++ be_bytes 4 h3
    ++ be_bytes 4 h4.

Definition hex_digit (x : Z) : ascii :=
  if x <? 10 then ascii_of_N (Z.to_N (48 + x))
  else ascii_of_N (Z.to_N (87 + x)).

Fixpoint hex (bs : list Z) : string :=
  match bs with
  | [] => EmptyString
  | b :: bs' => String (hex_digit (b / 16)) (String (hex_digit (b mod 16)) (hex bs'))
  end.

(** [hashlib.sha1(s.encode('utf-8')).hexdigest()]. *)
Definition hexdigest (s : string) : string := hex (digest (bytes_of_string s)).

End Sha1.

(* ===================================================================== *)
(** ** perceval/backend.py: the identity generator *)
(* ===================================================================== *)

Module Backend.

(** [str(v)] inside the error message of [check_value]; only its
    presence in the message matters. *)
Definition str_of (v : pyval) : string :=
  match v with
  | PNone => "None"
  | PBool true => "True"
  | PBool false => "False"
  | PStr s => s
  | PInt _ => "<int>"
  | PList _ => "<list>"
  | PDict _ => "<dict>"
  end.

Definition check_value (v : pyval) : result string :=
  match v with
  | PStr s =>
      if String.eqb s "" then Raise (ValueError "value cannot be None or empty")
      else Ok s
  | _ => Raise (ValueError (String.append (str_of v) " value is not a string instance"))
  end.

(** [map(check_value, args)] as consumed by [join]: the first offending
    value raises. *)
Fixpoint map_check (args : list pyval) : result (list string) :=
  match args with
  | [] => Ok []
  | v :: rest =>
      rbind (check_value v) (fun s =>
      rbind (map_check rest) (fun ss => Ok (s :: ss)))
  end.

(** [sep.join(ss)]. *)
Fixpoint join (sep : string) (ss : list string) : string :=
  match ss with
  | [] => ""
  | [s] => s
  | s :: rest => String.append s (String.append sep (join sep rest))
  end.

(** The string holds a surrogate code point: a byte [ED] followed by a
    byte from [A0] to [BF] (in the encoding, [ED] only starts the code
    points from [U+D000] to [U+DFFF], and the second byte tells the
    surrogates from the others). *)
Fixpoint has_surrogate (s : string) : bool :=
  match s with
  | String c rest =>
      match rest with
      | String d _ =>
          ((nat_of_ascii c =? 237)%nat
           && (160 <=? nat_of_ascii d)%nat && (nat_of_ascii d <=? 191)%nat)
          || has_surrogate rest
      | EmptyString => false
      end
  | EmptyString => false
  end.

(** [s.encode('utf-8')]. *)
Definition encode_utf8 (s : string) : result string :=
  if has_surrogate s then Raise UnicodeEncodeError else Ok s.

Definition uuid (args : list pyval) : result string :=
  rbind (map_check args) (fun ss =>
  rbind (encode_utf8 (join ":" ss)) (fun bytes =>
  Ok (Sha1.hexdigest bytes))).

End Backend.


(* ===================================================================== *)
(** ** perceval/backends/bugzilla.py *)
(* ===================================================================== *)

Module Bugzilla.

Definition raw : Type := string.

(** What the server answers to one HTTP request: a body, or a status on
    which [raise_for_status] raises. *)
Inductive response : Type :=
| Body (text : raw)
| Failed (status : Z).

Record request : Type := mk_request {
  cgi : string;
  params : list (string * pyval)
}.

(** The payload parsers and the helpers of [perceval.utils], which the
    connector only calls. *)
Class Parsers : Type := {
  DEFAULT_DATETIME : datetime;
  str_to_datetime : pyval -> result datetime;
  strftime : datetime -> string;
  (** [re.match(VERSION_REGEX, response)] and its group 1 *)
  match_version : raw -> option string;
  (** the rows of [csv.DictReader(raw_csv.split('\n'), ...)] *)
  csv_dict_reader : raw -> list pyval;
  (** [xml_to_dict]: every tag is mapped to the list of its children *)
  xml_to_dict : raw -> result (list (string * list pyval));
  (** the events that the generator [parse_bug_activity] produces, or
      what it raises *)
  parse_bug_activity : raw -> result (list pyval);
  (** the connector's identity extractor and the version of the package *)
  metadata_id : pyval -> result pyval;
  perceval_version : string
}.

(** Modelled from the spec: the Replay Cache ([perceval/cache.py] is not
    among the sources).  The cache is the list of the units stored so
    far; [store] appends the blocks it is given as one unit. *)
Definition store (units : list (list raw)) (blocks : list raw) : list (list raw) :=
  units ++ [blocks].

(** Modelled from the spec: [retrieve] of the Replay Cache gives the
    stored blocks back in the order in which they were stored, and fails
    with a cache-error when the storage location cannot be read. *)
Definition retrieve (readable : bool) (units : list (list raw)) : result (list raw) :=
  if readable then Ok (List.concat units)
  else Raise (CacheError "the storage of the cache is inaccessible").

(** The connector, its client, its cache ([None] when the connector was
    built without one) and the world it runs in. *)
Record bugzilla : Type := mk_bugzilla {
  origin : string;
  max_bugs : nat;
  cache : option (list (list raw));
  cache_readable : bool;             (* the storage of the cache can be read *)
  cache_queue : list raw;
  version : option string;           (* client.version *)
  responses : list response;         (* what the server will answer *)
  requests : list request;           (* the calls made, oldest first *)
  clock : nat -> Z;                  (* readings of dt.now().timestamp() *)
  ticks : nat;
  yielded : list pyval               (* what the consumer has received *)
}.

Definition set_cache c (st : bugzilla) : bugzilla :=
  mk_bugzilla (origin st) (max_bugs st) c (cache_readable st) (cache_queue st) (version st)
    (responses st) (requests st) (clock st) (ticks st) (yielded st).
Definition set_cache_readable b (st : bugzilla) : bugzilla :=
  mk_bugzilla (origin st) (max_bugs st) (cache st) b (cache_queue st) (version st)
    (responses st) (requests st) (clock st) (ticks st) (yielded st).
Definition set_cache_queue q (st : bugzilla) : bugzilla :=
  mk_bugzilla (origin st) (max_bugs st) (cache st) (cache_readable st) q (version st)
    (responses st) (requests st) (clock st) (ticks st) (yielded st).
Definition set_version v (st : bugzilla) : bugzilla :=
  mk_bugzilla (origin st) (max_bugs st) (cache st) (cache_readable st) (cache_queue st) v
    (responses st) (requests st) (clock st) (ticks st) (yielded st).
Definition set_responses r (st : bugzilla) : bugzilla :=
  mk_bugzilla (origin st) (max_bugs st) (cache st) (cache_readable st) (cache_queue st) (version st)
    r (requests st) (clock st) (ticks st) (yielded st).
Definition set_requests r (st : bugzilla) : bugzilla :=
  mk_bugzilla (origin st) (max_bugs st) (cache st) (cache_readable st) (cache_queue st) (version st)
    (responses st) r (clock st) (ticks st) (yielded st).
Definition set_ticks n (st : bugzilla) : bugzilla :=
  mk_bugzilla (origin st) (max_bugs st) (cache st) (cache_readable st) (cache_queue st) (version st)
    (responses st) (requests st) (clock st) n (yielded st).
Definition set_yielded y (st : bugzilla) : bugzilla :=
  mk_bugzilla (origin st) (max_bugs st) (cache st) (cache_readable st) (cache_queue st) (version st)
    (responses st) (requests st) (clock st) (ticks st) y.

(** [Bugzilla(url, max_bugs, cache)] facing a server and a clock; the
    storage of the cache, if there is one, can be read. *)
Definition init (url : string) (max_bugs : Z) (cache : option (list (list raw)))
    (server : list response) (clock : nat -> Z) : bugzilla :=
  mk_bugzilla url (Z.to_nat (Z.max 1 max_bugs)) cache true [] None server [] clock 0%nat [].

Definition M : Type -> Type := Py.M bugzilla.

(** A generator is run against what its consumer does with each item. *)
Definition generator : Type := (pyval -> M unit) -> M unit.

(** The consumer that collects the items ([[x for x in g]]). *)
Definition collect (item : pyval) : M unit :=
  modify (fun st => set_yielded (yielded st ++ [item]) st).

(** *** Backend: the cache queue *)

Definition _purge_cache_queue : M unit := modify (set_cache_queue []).

Definition _flush_cache_queue : M unit :=
  st <- get ;;
  match cache st with
  | None => ret tt
  | Some units =>
      modify (set_cache (Some (store units (cache_queue st)))) ;;
      _purge_cache_queue
  end.

Definition _push_cache_queue (item : raw) : M unit :=
  st <- get ;;
  match cache st with
  | None => ret tt
  | Some _ => modify (set_cache_queue (cache_queue st ++ [item]))
  end.

Section WithParsers.
Context {P : Parsers}.

(** *** BugzillaClient *)

Definition CGI_BUGLIST := "buglist.cgi".
Definition CGI_BUG := "show_bug.cgi".
Definition CGI_BUG_ACTIVITY := "show_activity.cgi".
Definition OLD_STYLE_VERSIONS := ["3.2.3"; "3.2.2"].

Definition call (cgi : string) (params : list (string * pyval)) : M raw :=
  modify (fun st => set_requests (requests st ++ [mk_request cgi params]) st) ;;
  st <- get ;;
  match responses st with
  | [] => raise ConnectionError
  | Body text :: rest => modify (set_responses rest) ;; ret text
  | Failed _ :: rest => modify (set_responses rest) ;; raise HTTPError
  end.

Definition client_metadata : M raw := call CGI_BUG [("ctype", PStr "xml")].

Definition __fetch_version : M string :=
  response <- client_metadata ;;
  match match_version response with
  | Some v => ret v
  | None =>
      raise (BackendError "Bugzilla client could not determine the server version.")
  end.

Definition version_known (v : option string) : bool :=
  match v with
  | Some s => negb (String.eqb s "")
  | None => false
  end.

Definition client_buglist (from_date : datetime) : M raw :=
  st <- get ;;
  (if version_known (version st) then ret tt
   else v <- __fetch_version ;; modify (set_version (Some v))) ;;
  st <- get ;;
  let order :=
    match version st with
    | Some v =>
        if existsb (String.eqb v) OLD_STYLE_VERSIONS then "Last+Changed"
        else "changeddate"
    | None => "changeddate"
    end in
  let date := strftime from_date in
  call CGI_BUGLIST
    [("chfieldfrom", PStr date); ("ctype", PStr "csv"); ("order", PStr order)].

Definition client_bugs (bug_ids : list pyval) : M raw :=
  call CGI_BUG
    [("id", PList bug_ids); ("ctype", PStr "xml");
     ("excludefield", PStr "attachmentdata")].

Definition client_bug_activity (bug_id : pyval) : M raw :=
  call CGI_BUG_ACTIVITY [("id", bug_id)].

(** *** Parsers of the connector *)

Definition parse_buglist (raw_csv : raw) : list pyval := csv_dict_reader raw_csv.

(** The generator [parse_bugs_details]: what it raises before its first
    item, or all its items. *)
Definition parse_bugs_details (raw_xml : raw) : result (list pyval) :=
  rbind (xml_to_dict raw_xml) (fun bugs =>
    match List.find (fun kv => String.eqb (fst kv) "bug") bugs with
    | None => Raise (ParseError "No bugs found. XML stream seems to be invalid.")
    | Some (_, bs) => Ok bs
    end).

Definition get_update_time (item : pyval) : result pyval :=
  rbind (getitem item "delta_ts") (fun v =>
  rbind (getitem0 v) (fun v0 => getitem v0 "__text__")).

(** *** The [metadata] decorator *)

Definition now : M Z :=
  st <- get ;;
  modify (set_ticks (S (ticks st))) ;;
  ret (clock st (ticks st)).

(** One turn of the loop of [decorator] in [metadata(func)] of
    [site-packages/perceval/backend.py]: the item built around [data] on
    a connector whose [metadata_id] is that of the class of parsers and
    whose [metadata_updated_on] is [get_update_time].  This is not the
    decorator that [bugzilla.py] applies to its own [fetch], which is
    [metadata_get_update_time] below. *)
Definition metadata_item (data : pyval) : M pyval :=
  st <- get ;;
  timestamp <- now ;;
  id <- lift (metadata_id data) ;;
  u <- lift (Backend.uuid [PStr (origin st); id]) ;;
  updated_on <- lift (get_update_time data) ;;
  ret (PDict [("backend_name", PStr "Bugzilla");
              ("backend_version", PStr "0.1.0");
              ("perceval_version", PStr perceval_version);
              ("timestamp", PInt timestamp);
              ("origin", PStr (origin st));
              ("uuid", PStr u);
              ("updated_on", updated_on);
              ("data", data)]).

Definition metadata (func : generator) : generator :=
  fun yield_ => func (fun data => item <- metadata_item data ;; yield_ item).

(** Modelled from the spec: one turn of the decorator
    [metadata(get_update_time)] that [bugzilla.py] applies to [fetch] and
    to [fetch_from_cache].  It comes from the [backend.py] of the
    package of the connector, which is not among the sources.  The tests
    of the connector read what it yields: the bug itself (its ['bug_id'],
    its ['activity']) with an entry ['__metadata__'] that holds the
    origin and the update time that [get_update_time] reads in the bug,
    beside the provenance and the time of the fetch that the data model
    of the spec gives a record. *)
Definition add_metadata (item : pyval) : M pyval :=
  st <- get ;;
  timestamp <- now ;;
  updated_on <- lift (get_update_time item) ;;
  lift (setitem item "__metadata__"
          (PDict [("backend_name", PStr "Bugzilla");
                  ("backend_version", PStr "0.1.0");
                  ("timestamp", PInt timestamp);
                  ("origin", PStr (origin st));
                  ("updated_on", updated_on)])).

(** Modelled from the spec: the decorator [metadata(get_update_time)]
    itself, which hands on each item of the generator with its entry. *)
Definition metadata_get_update_time (func : generator) : generator :=
  fun yield_ => func (fun item => item <- add_metadata item ;; yield_ item).

(** *** Bugzilla *)

Definition __fetch_and_parse_buglist_page (from_date : datetime) : M (list pyval) :=
  raw_csv <- client_buglist from_date ;;
  ret (parse_buglist raw_csv).

(** The loop of [__fetch_buglist], whose items [fetch] gathers in a list.
    [fuel] bounds the number of pages requested. *)
Fixpoint fetch_buglist_loop (fuel : nat) (buglist : list pyval) {struct fuel}
  : M (list pyval) :=
  match fuel with
  | O => raise FuelExhausted
  | S fuel' =>
      (fix iter (buglist : list pyval) : M (list pyval) :=
         match buglist with
         | [] => ret []
         | bug :: buglist =>
             last_date <- lift (getitem bug "changeddate") ;;
             match buglist with
             | [] =>
                 from_date <- lift (str_to_datetime last_date) ;;
                 buglist <- __fetch_and_parse_buglist_page (add_seconds from_date 1) ;;
                 tail <- fetch_buglist_loop fuel' buglist ;;
                 ret (bug :: tail)
             | _ :: _ =>
                 tail <- iter buglist ;;
                 ret (bug :: tail)
             end
         end) buglist
  end.

Definition __fetch_buglist (from_date : datetime) : M (list pyval) :=
  buglist <- __fetch_and_parse_buglist_page from_date ;;
  st <- get ;;
  fetch_buglist_loop (S (List.length (responses st))) buglist.

Definition __fetch_and_parse_bugs_details (bug_ids : list pyval)
  : M (result (list pyval)) :=
  raw_bugs <- client_bugs bug_ids ;;
  _push_cache_queue raw_bugs ;;
  ret (parse_bugs_details raw_bugs).

Definition __fetch_and_parse_bug_activity (bug_id : pyval) : M (list pyval) :=
  raw_activity <- client_bug_activity bug_id ;;
  _push_cache_queue raw_activity ;;
  lift (parse_bug_activity raw_activity).

(** [range(0, stop, step)]. *)
Fixpoint range_from (fuel i stop step : nat) : list nat :=
  match fuel with
  | O => []
  | S fuel' =>
      if (i <? stop)%nat then i :: range_from fuel' (i + step) stop step else []
  end.

Definition py_range (stop step : nat) : result (list nat) :=
  match step with
  | O => Raise (ValueError "range() arg 3 must not be zero")
  | _ => Ok (range_from stop 0 stop step)
  end.

(** [l[i:j]]. *)
Definition slice {A} (l : list A) (i j : nat) : list A :=
  firstn (j - i) (skipn i l).

(** The body of the loop [for bug in bugs] of [fetch]. *)
Definition fetch_bug (yield_ : pyval -> M unit) (bug : pyval) : M unit :=
  bug_id <- lift (rbind (getitem bug "bug_id") (fun v =>
                  rbind (getitem0 v) (fun v0 => getitem v0 "__text__"))) ;;
  activity <- __fetch_and_parse_bug_activity bug_id ;;
  bug <- lift (setitem bug "activity" (PList activity)) ;;
  yield_ bug.

(** The body of the loop [for i in range(0, tbugs, self.max_bugs)]. *)
Definition fetch_chunk (yield_ : pyval -> M unit) (buglist : list pyval) (i : nat)
  : M unit :=
  st <- get ;;
  let chunk := slice buglist i (i + max_bugs st) in
  bugs_ids <- lift (map_result (fun b => getitem b "bug_id") chunk) ;;
  bugs <- __fetch_and_parse_bugs_details bugs_ids ;;
  bugs <- lift bugs ;;
  for_each bugs (fetch_bug yield_) ;;
  _flush_cache_queue.

(** The part of [fetch] that follows the enumeration of the bug list:
    the chunks of [max_bugs] bugs, their details and their activity. *)
Definition fetch_details (buglist : list pyval) : generator := fun yield_ =>
  st <- get ;;
  let tbugs := List.length buglist in
  idx <- lift (py_range tbugs (max_bugs st)) ;;
  for_each idx (fetch_chunk yield_ buglist).

(** [fetch] before decoration. *)
Definition fetch_undecorated (from_date : option datetime) : generator :=
  fun yield_ =>
    let from_date :=
      match from_date with
      | Some d => d
      | None => DEFAULT_DATETIME
      end in
    _purge_cache_queue ;;
    buglist <- __fetch_buglist from_date ;;
    fetch_details buglist yield_.

(** [fetch] as [bugzilla.py] declares it, under
    [@metadata(get_update_time)]. *)
Definition fetch (from_date : option datetime) : generator :=
  metadata_get_update_time (fetch_undecorated from_date).

(** The loop over the bugs of one details block during a replay; it
    returns what is left of [cache_items]. *)
Fixpoint replay_bugs (yield_ : pyval -> M unit) (bugs : list pyval)
    (cache_items : list raw) : M (list raw) :=
  match bugs with
  | [] => ret cache_items
  | bug :: bugs' =>
      match cache_items with
      | [] => raise (CacheError "cache is exhausted but more items were expected")
      | raw_activity :: cache_items' =>
          activity <- lift (parse_bug_activity raw_activity) ;;
          bug <- lift (setitem bug "activity" (PList activity)) ;;
          yield_ bug ;;
          replay_bugs yield_ bugs' cache_items'
      end
  end.

(** The [while True] loop of [fetch_from_cache]. *)
Fixpoint replay_loop (fuel : nat) (yield_ : pyval -> M unit)
    (cache_items : list raw) : M unit :=
  match fuel with
  | O => raise FuelExhausted
  | S fuel' =>
      match cache_items with
      | [] => ret tt
      | raw_bugs :: cache_items' =>
          bugs <- lift (parse_bugs_details raw_bugs) ;;
          cache_items'' <- replay_bugs yield_ bugs cache_items' ;;
          replay_loop fuel' yield_ cache_items''
      end
  end.

Definition fetch_from_cache_undecorated : generator := fun yield_ =>
  st <- get ;;
  match cache st with
  | None => raise (CacheError "cache instance was not provided")
  | Some units =>
      cache_items <- lift (retrieve (cache_readable st) units) ;;
      replay_loop (S (List.length cache_items)) yield_ cache_items
  end.

(** [fetch_from_cache] as [bugzilla.py] declares it, under
    [@metadata(get_update_time)]. *)
Definition fetch_from_cache : generator :=
  metadata_get_update_time fetch_from_cache_undecorated.

(** [[item for item in g]] on a connector in state [st]: the items
    received, how the generator ended, and the state it left. *)
Definition run (g : generator) (st : bugzilla)
  : list pyval * result unit * bugzilla :=
  let '(r, st') := g collect (set_yielded [] st) in
  (yielded st', r, st').

End WithParsers.
End Bugzilla.

(* ===================================================================== *)
(** ** perceval/backends/bugzilla.py: the table of bug activity *)
(* ===================================================================== *)

(** The [while fields] loop of [parse_bug_activity], which turns the
    [td] cells of the table of activity into events.  The search of the
    table in the HTML document is the work of the library; the loop
    starts from the cells it found ([fields] is empty when the page says
    that no changes have been made). *)
Module Activity.

(** The [rowspan] attribute of a cell, as [int(cell.get('rowspan'))]
    meets it: absent ([get] gives [None] and [int] raises [TypeError]),
    the text of an integer, or a text that [int] refuses. *)
Inductive attribute : Type :=
| Absent
| Number (n : Z)
| Malformed.

(** A [td] cell: the text that [format_text] makes of it and its
    [rowspan]. *)
Record td : Type := mk_td {
  format_text : string;
  rowspan : attribute
}.

Definition int_rowspan (cell : td) : result Z :=
  match rowspan cell with
  | Absent => Raise TypeError
  | Number n => Ok n
  | Malformed => Raise (ValueError "invalid literal for int() with base 10")
  end.

Definition event (who when what removed added : td) : pyval :=
  PDict [("Who", PStr (format_text who));
         ("When", PStr (format_text when));
         ("What", PStr (format_text what));
         ("Removed", PStr (format_text removed));
         ("Added", PStr (format_text added))].

(** The loop [for _ in range(n)]: the events yielded, then the cells
    that are left or the exception of a [pop] on an empty list. *)
Fixpoint changes (n : nat) (who when : td) (fields : list td)
  : list pyval * result (list td) :=
  match n with
  | O => ([], Ok fields)
  | S n' =>
      match fields with
      | what :: removed :: added :: fields' =>
          let '(events, r) := changes n' who when fields' in
          (event who when what removed added :: events, r)
      | _ => ([], Raise IndexError)
      end
  end.

(** The loop [while fields]: the events yielded and how the generator
    ends.  [fuel] bounds the number of turns. *)
Fixpoint events (fuel : nat) (fields : list td) : list pyval * result unit :=
  match fuel with
  | O => ([], Raise FuelExhausted)
  | S fuel' =>
      match fields with
      | [] => ([], Ok tt)
      | [_] => ([], Raise IndexError)
      | who :: when :: fields' =>
          match int_rowspan who with
          | Raise e => ([], Raise e)
          | Ok n =>
              match changes (Z.to_nat n) who when fields' with
              | (evs, Raise e) => (evs, Raise e)
              | (evs, Ok fields'') =>
                  let '(evs', r) := events fuel' fields'' in
                  (evs ++ evs', r)
              end
          end
      end
  end.

(** [parse_bug_activity] from the cells on: every turn of the loop takes
    at least two cells. *)
Definition parse_bug_activity (fields : list td) : list pyval * result unit :=
  events (S (List.length fields)) fields.

End Activity.

(* ===================================================================== *)
(** ** grimoire/ocean/elastic.py *)
(* ===================================================================== *)

Module Ocean.

(** How [feed] drives the connector. *)
Inductive backend_call : Type :=
| FetchFromCache                                   (* fetch_from_cache() *)
| Fetch (from_date : option datetime) (offset : option Z).
                                  (* fetch(), fetch(from_date=), fetch(offset=) *)

(** The connector as [feed] sees it: its origin, whether the signature
    of its [fetch] has a [from_date] parameter, and for each way of
    driving it the items it produces and, possibly, the exception that
    ends the sequence. *)
Record perceval_backend : Type := mk_backend {
  pb_origin : string;
  fetch_has_from_date : bool;
  pb_items : backend_call -> list pyval * option exn
}.

(** The hooks that the subclasses of [ElasticOcean] override, and the
    conversion [datetime.fromtimestamp(v).isoformat()]. *)
Class Hooks : Type := {
  drop_item : pyval -> bool;
  (** [_fix_item] mutates the dict it is given: a function of its items *)
  _fix_item : list (string * pyval) -> list (string * pyval);
  fromtimestamp_isoformat : pyval -> result string
}.

(** The index store facing one HTTP request of the read-back path: it
    cannot be reached, or it answers with a body, given with what
    [r.json()] makes of it ([None] when it raises). *)
Record answer : Type := mk_answer {
  text : string;
  json : option pyval
}.

Inductive es_response : Type :=
| Unreachable
| Answer (r : answer).

Inductive es_url : Type :=
| SearchUrl (index_url : string) (scroll : string) (size : Z)
| ScrollUrl (url : string).

Inductive es_data : Type :=
| ScrollData (scroll : string) (scroll_id : pyval)
| Query (origin_filter : option string) (range_gte : option datetime)
        (sort_asc : bool).

(** One document of the index as the boundary query sees it: its origin
    and its update time. *)
Definition document : Type := (string * datetime)%type.

Record ocean : Type := mk_ocean {
  backend : option perceval_backend;      (* self.perceval_backend *)
  last_update : option datetime;
  from_date : option datetime;            (* self.from_date *)
  fetch_cache : bool;
  project : option string;
  (* self.elastic *)
  documents : list document;
  max_items_bulk : Z;
  index_url : string;
  url : string;
  uploads : list (list pyval * string);   (* calls of bulk_upload_sync *)
  calls : list backend_call;              (* how the connector was driven *)
  (* the iterator *)
  elastic_scroll_id : pyval;
  elastic_page : Z;
  iter_items : list pyval;
  es_server : list es_response;           (* what the store will answer *)
  es_posts : list (es_url * es_data);     (* the requests posted *)
  warnings : list string
}.

Definition set_last_update v (o : ocean) : ocean :=
  mk_ocean (backend o) v (from_date o) (fetch_cache o) (project o) (documents o)
    (max_items_bulk o) (index_url o) (url o) (uploads o) (calls o)
    (elastic_scroll_id o) (elastic_page o) (iter_items o) (es_server o)
    (es_posts o) (warnings o).
Definition set_uploads v (o : ocean) : ocean :=
  mk_ocean (backend o) (last_update o) (from_date o) (fetch_cache o) (project o)
    (documents o) (max_items_bulk o) (index_url o) (url o) v (calls o)
    (elastic_scroll_id o) (elastic_page o) (iter_items o) (es_server o)
    (es_posts o) (warnings o).
Definition set_calls v (o : ocean) : ocean :=
  mk_ocean (backend o) (last_update o) (from_date o) (fetch_cache o) (project o)
    (documents o) (max_items_bulk o) (index_url o) (url o) (uploads o) v
    (elastic_scroll_id o) (elastic_page o) (iter_items o) (es_server o)
    (es_posts o) (warnings o).
Definition set_elastic_scroll_id v (o : ocean) : ocean :=
  mk_ocean (backend o) (last_update o) (from_date o) (fetch_cache o) (project o)
    (documents o) (max_items_bulk o) (index_url o) (url o) (uploads o) (calls o)
    v (elastic_page o) (iter_items o) (es_server o) (es_posts o) (warnings o).
Definition set_elastic_page v (o : ocean) : ocean :=
  mk_ocean (backend o) (last_update o) (from_date o) (fetch_cache o) (project o)
    (documents o) (max_items_bulk o) (index_url o) (url o) (uploads o) (calls o)
    (elastic_scroll_id o) v (iter_items o) (es_server o) (es_posts o) (warnings o).
Definition set_iter_items v (o : ocean) : ocean :=
  mk_ocean (backend o) (last_update o) (from_date o) (fetch_cache o) (project o)
    (documents o) (max_items_bulk o) (index_url o) (url o) (uploads o) (calls o)
    (elastic_scroll_id o) (elastic_page o) v (es_server o) (es_posts o) (warnings o).
Definition set_es_server v (o : ocean) : ocean :=
  mk_ocean (backend o) (last_update o) (from_date o) (fetch_cache o) (project o)
    (documents o) (max_items_bulk o) (index_url o) (url o) (uploads o) (calls o)
    (elastic_scroll_id o) (elastic_page o) (iter_items o) v (es_posts o) (warnings o).
Definition set_es_posts v (o : ocean) : ocean :=
  mk_ocean (backend o) (last_update o) (from_date o) (fetch_cache o) (project o)
    (documents o) (max_items_bulk o) (index_url o) (url o) (uploads o) (calls o)
    (elastic_scroll_id o) (elastic_page o) (iter_items o) (es_server o) v (warnings o).
Definition set_warnings v (o : ocean) : ocean :=
  mk_ocean (backend o) (last_update o) (from_date o) (fetch_cache o) (project o)
    (documents o) (max_items_bulk o) (index_url o) (url o) (uploads o) (calls o)
    (elastic_scroll_id o) (elastic_page o) (iter_items o) (es_server o) (es_posts o) v.

Definition M : Type -> Type := Py.M ocean.

Definition get_field_date : string := "metadata__updated_on".
Definition get_field_unique_id : string := "ocean-unique-id".

(** The later of two dates. *)
Definition later (a b : datetime) : datetime :=
  if dt_seconds a <? dt_seconds b then b else a.

(** The latest date of a list, if any. *)
Fixpoint max_date (l : list datetime) : option datetime :=
  match l with
  | [] => None
  | d :: l' =>
      match max_date l' with
      | None => Some d
      | Some m => Some (later d m)
      end
  end.

(** The documents that a filter on a field value keeps. *)
Definition matching (_filter : option (string * string)) (docs : list document)
  : list document :=
  match _filter with
  | None => docs
  | Some (_, value) => filter (fun d => String.eqb (fst d) value) docs
  end.

(** Modelled from the spec: [get_last_date] of the index store client
    ([grimoire/elastic.py] is not among the sources).  It returns the
    maximum of the update times of the documents that match the filter,
    here a filter on the origin, and [None] when no document matches. *)
Definition get_last_date (field : string) (_filter : option (string * string))
    (docs : list document) : option datetime :=
  max_date (map snd (matching _filter docs)).

Definition get_last_update_from_es (_filter : option (string * string))
  : M (option datetime) :=
  o <- get ;;
  ret (get_last_date get_field_date _filter (documents o)).

Definition warning (msg : string) : M unit :=
  modify (fun o => set_warnings (warnings o ++ [msg]) o).

(** [if self.project]. *)
Definition project_set (p : option string) : option string :=
  match p with
  | Some s => if String.eqb s "" then None else Some s
  | None => None
  end.

Section WithHooks.
Context {H : Hooks}.

(** [add_update_date] mutates [item]; it gives the items of the dict
    afterwards. *)
Definition add_update_date (item : pyval) : result (list (string * pyval)) :=
  rbind (getitem item "updated_on") (fun u =>
  rbind (fromtimestamp_isoformat u) (fun updated =>
  rbind (getitem item "timestamp") (fun t =>
  rbind (fromtimestamp_isoformat t) (fun timestamp =>
  match item with
  | PDict d =>
      Ok (assoc_set "metadata__timestamp" (PStr timestamp)
            (assoc_set "metadata__updated_on" (PStr updated) d))
  | _ => Raise TypeError
  end)))).

(** What the head of the loop of [feed] makes of one item. *)
Definition prepare (project : option string) (item : pyval) : result pyval :=
  rbind (add_update_date item) (fun d =>
  let d := _fix_item d in
  let d := match project_set project with
           | Some p => assoc_set "project" (PStr p) d
           | None => d
           end in
  Ok (PDict d)).

Definition _items_to_es (json_items : list pyval) : M unit :=
  match json_items with
  | [] => ret tt
  | _ :: _ =>
      let field_id := get_field_unique_id in
      modify (fun o => set_uploads (uploads o ++ [(json_items, field_id)]) o)
  end.

(** The [for item in items] loop of [feed]; it returns the last pack
    and the count of dropped items. *)
Fixpoint feed_loop (items : list pyval) (items_pack : list pyval) (drop : nat)
  : M (list pyval * nat) :=
  match items with
  | [] => ret (items_pack, drop)
  | item :: items' =>
      o <- get ;;
      item <- lift (prepare (project o) item) ;;
      items_pack <-
        (if Z.of_nat (List.length items_pack) >=? max_items_bulk o
         then _items_to_es items_pack ;; ret []
         else ret items_pack) ;;
      if negb (drop_item item)
      then feed_loop items' (items_pack ++ [item]) drop
      else feed_loop items' items_pack (S drop)
  end.

Definition offset_given (offset : option Z) : bool :=
  match offset with
  | Some n => negb (n =? 0)
  | None => false
  end.

(** The cascade of tests by which [feed] chooses how to drive the
    connector, once [last_update] is settled. *)
Definition driver_call (fetch_cache : bool) (last_update : option datetime)
    (offset : option Z) : backend_call :=
  if fetch_cache then FetchFromCache
  else
    match last_update, offset_given offset with
    | Some d, false => Fetch (Some (replace_tzinfo_none d)) None
    | _, _ => if offset_given offset then Fetch None offset else Fetch None None
    end.

(** [feed]; it returns the count of dropped items, which the method
    only logs. *)
Definition feed (from_date : option datetime) (offset : option Z) : M nat :=
  o <- get ;;
  match backend o with
  | None => raise AttributeError
  | Some perceval_backend =>
      let filter_ := ("origin", pb_origin perceval_backend) in
      last_update <- get_last_update_from_es (Some filter_) ;;
      modify (set_last_update last_update) ;;
      let last_update :=
        match from_date with
        | Some d => Some d
        | None => last_update
        end in
      let last_update :=
        if negb (fetch_has_from_date perceval_backend) then None else last_update in
      let call := driver_call (fetch_cache o) last_update offset in
      modify (fun o => set_calls (calls o ++ [call]) o) ;;
      let '(items, failure) := pb_items perceval_backend call in
      r <- feed_loop items [] 0%nat ;;
      match failure with
      | Some e => raise e
      | None =>
          let '(items_pack, drop) := r in
          _items_to_es items_pack ;;
          ret drop
      end
  end.

End WithHooks.

(** *** The read-back iterator *)

Fixpoint prefix (a b : string) : bool :=
  match a, b with
  | EmptyString, _ => true
  | String x a', String y b' => Ascii.eqb x y && prefix a' b'
  | String _ _, EmptyString => false
  end.

Fixpoint substring_of (a b : string) : bool :=
  prefix a b ||
  match b with
  | EmptyString => false
  | String _ b' => substring_of a b'
  end.

(** [key in v]. *)
Definition contains (key : string) (v : pyval) : result bool :=
  match v with
  | PDict d => Ok (match assoc key d with Some _ => true | None => false end)
  | PList l =>
      Ok (existsb (fun x => match x with PStr s => String.eqb s key | _ => false end) l)
  | PStr s => Ok (substring_of key s)
  | _ => Raise TypeError
  end.

(** [for x in v]. *)
Definition iter_values (v : pyval) : result (list pyval) :=
  match v with
  | PList l => Ok l
  | PDict d => Ok (map (fun kv => PStr (fst kv)) d)
  | PStr s => Ok (map (fun c => PStr (String c EmptyString)) (list_ascii_of_string s))
  | _ => Raise TypeError
  end.

(** [self.requests.post(url, data=...)]. *)
Definition post (u : es_url) (data : es_data) : M answer :=
  modify (fun o => set_es_posts (es_posts o ++ [(u, data)]) o) ;;
  o <- get ;;
  match es_server o with
  | [] => raise ConnectionError
  | Unreachable :: rest => modify (set_es_server rest) ;; raise ConnectionError
  | Answer r :: rest => modify (set_es_server rest) ;; ret r
  end.

(** [rjson and key in rjson] for a name that may not be bound. *)
Definition bound_and_has (rjson : option pyval) (key : string) : M bool :=
  match rjson with
  | None => raise (UnboundLocalError "rjson")
  | Some v => if truthy v then lift (contains key v) else ret false
  end.

Definition _get_elastic_items : M (list pyval) :=
  o <- get ;;
  let max_process_items_pack_time := "3m" in
  r <- (if truthy (elastic_scroll_id o) then
          post (ScrollUrl (url o))
               (ScrollData max_process_items_pack_time (elastic_scroll_id o))
        else
          let origin_filter :=
            match backend o with
            | Some b => if String.eqb (pb_origin b) "" then None else Some (pb_origin b)
            | None => None
            end in
          let sort_asc := match backend o with Some _ => true | None => false end in
          post (SearchUrl (index_url o) max_process_items_pack_time (elastic_page o))
               (Query origin_filter (from_date o) sort_asc)) ;;
  rjson <-
    match json r with
    | Some v => ret (Some v)
    | None =>
        warning (String.append "No JSON found in " (text r)) ;;
        warning "No results found" ;;
        ret None
    end ;;
  has_scroll <- bound_and_has rjson "_scroll_id" ;;
  (if has_scroll then
     match rjson with
     | Some v => id <- lift (getitem v "_scroll_id") ;; modify (set_elastic_scroll_id id)
     | None => raise (UnboundLocalError "rjson")
     end
   else modify (set_elastic_scroll_id PNone)) ;;
  has_hits <- bound_and_has rjson "hits" ;;
  if has_hits then
    match rjson with
    | Some v =>
        hits <- lift (rbind (getitem v "hits") (fun h => getitem h "hits")) ;;
        hits <- lift (iter_values hits) ;;
        lift (map_result (fun hit => getitem hit "_source") hits)
    | None => raise (UnboundLocalError "rjson")
    end
  else
    warning "No results found" ;; ret [].

Definition __iter__ : M unit :=
  modify (set_elastic_scroll_id PNone) ;;
  modify (set_elastic_page 10) ;;
  items <- _get_elastic_items ;;
  modify (set_iter_items items).

(** [__next__], which calls itself once the buffer is filled again;
    [depth] bounds the nesting of the calls. *)
Fixpoint next_ (depth : nat) : M pyval :=
  match depth with
  | O => raise FuelExhausted
  | S depth' =>
      o <- get ;;
      match rev (iter_items o) with
      | x :: front => modify (set_iter_items (rev front)) ;; ret x
      | [] =>
          (if truthy (elastic_scroll_id o)
           then items <- _get_elastic_items ;; modify (set_iter_items items)
           else ret tt) ;;
          o <- get ;;
          match iter_items o with
          | _ :: _ => next_ depth'
          | [] => raise StopIteration
          end
      end
  end.

Definition __next__ : M pyval := next_ 2.

(** [for doc in ocean] after [__iter__]: the documents received until
    [StopIteration]; [fuel] bounds their number. *)
Fixpoint iterate (fuel : nat) : M (list pyval) :=
  match fuel with
  | O => raise FuelExhausted
  | S fuel' =>
      fun o =>
        match __next__ o with
        | (Ok doc, o') =>
            match iterate fuel' o' with
            | (Ok docs, o'') => (Ok (doc :: docs), o'')
            | (Raise e, o'') => (Raise e, o'')
            end
        | (Raise StopIteration, o') => (Ok [], o')
        | (Raise e, o') => (Raise e, o')
        end
  end.

(** [[doc for doc in ocean]]. *)
Definition for_in (fuel : nat) : M (list pyval) :=
  __iter__ ;; iterate fuel.

(** [n] calls of [__next__]. *)
Fixpoint take (n : nat) : M (list pyval) :=
  match n with
  | O => ret []
  | S n' => doc <- __next__ ;; docs <- take n' ;; ret (doc :: docs)
  end.

(** A hit of a search answer around a document. *)
Definition hit (doc : pyval) : pyval := PDict [("_source", doc)].

(** The answer of the store that carries a cursor token and a page. *)
Definition page_answer (token : pyval) (page : list pyval) : es_response :=
  Answer (mk_answer ""
    (Some (PDict [("_scroll_id", token);
                  ("hits", PDict [("hits", PList (map hit page))])]))).

(** The documents cut in pages of [size]. *)
Fixpoint pages (fuel size : nat) (docs : list pyval) : list (list pyval) :=
  match fuel, docs with
  | S fuel', _ :: _ => firstn size docs :: pages fuel' size (skipn size docs)
  | _, _ => []
  end.

(** Modelled from the spec: the cursor of the index store ([scan] of the
    Index Store Client; the store itself is not among the sources).  Each
    advance answers with the next page of at most [size] documents and
    with a cursor token; once the documents are exhausted the page is
    empty. *)
Definition scan (size : nat) (token : pyval) (docs : list pyval)
  : list es_response :=
  map (page_answer token) (pages (List.length docs) size docs)
    ++ [page_answer token []].

End Ocean.

(* ===================================================================== *)
(** * Vocabulary of the properties *)
(* ===================================================================== *)

(** An argument that [check_value] accepts: a non-empty string. *)
Definition non_empty_str (v : pyval) : Prop :=
  exists s, v = PStr s /\ s <> "".

(** The arguments joined with [':'], as the contract of the identity
    generator words it: the text of the first argument, then, for each
    argument that follows, a colon and its text. *)
Definition joined_with_colon (ss : list string) : string :=
  match ss with
  | [] => ""
  | s :: rest => fold_left (fun text t => String.append text (String.append ":" t)) rest s
  end.

(** The [str] that holds the lone surrogate [U+D800] ([ED A0 80]). *)
Definition lone_surrogate : string :=
  String (ascii_of_nat 237) (String (ascii_of_nat 160) (String (ascii_of_nat 128) "")).

(** The size that a pack reaches before [feed] hands it to the store. *)
Definition bulk_size (o : Ocean.ocean) : nat :=
  Z.to_nat (Z.max 1 (Ocean.max_items_bulk o)).

(** The last item of a list, if it has one. *)
Definition last_item (l : list pyval) : option pyval :=
  match rev l with
  | [] => None
  | x :: _ => Some x
  end.

(** A call of [bulk_upload_sync] with a pack. *)
Definition upload_of (pack : list pyval) : list pyval * string :=
  (pack, Ocean.get_field_unique_id).

(** *** Scenarios of the feed pass and of the read-back *)

(** Hooks of a data source that drops the items marked ["broken"] and
    reads integer epochs. *)
Definition sample_hooks : Ocean.Hooks := {|
  Ocean.drop_item := fun item =>
    match item with
    | PDict d => match assoc "broken" d with Some _ => true | None => false end
    | _ => false
    end;
  Ocean._fix_item := fun d => d;
  Ocean.fromtimestamp_isoformat := fun v =>
    match v with
    | PInt z => Ok (if z <? 1000 then "1970-01-01T00:00:01" else "2015-08-12T18:32:10")
    | _ => Raise TypeError
    end
|}.

Definition sample_item (id : string) (broken : bool) : pyval :=
  PDict ([("uuid", PStr id); ("updated_on", PInt 1439404330); ("timestamp", PInt 1)]
           ++ (if broken then [("broken", PBool true)] else [])).

Definition sample_items : list pyval :=
  [sample_item "a" false; sample_item "b" false; sample_item "x" true;
   sample_item "c" false; sample_item "d" false; sample_item "e" false].

(** A connector that produces [items] however it is driven. *)
Definition sample_backend (has_from_date : bool) (items : list pyval)
  : Ocean.perceval_backend :=
  Ocean.mk_backend "http://example.com" has_from_date (fun _ => (items, None)).

Definition sample_documents : list Ocean.document :=
  [("http://example.com", mk_datetime 1248276445 (Some 7200));
   ("http://other.org", mk_datetime 1500000000 (Some 0));
   ("http://example.com", mk_datetime 1439404330 (Some 7200))].

(** An engine in front of a store with a bulk size of 2. *)
Definition sample_ocean (b : Ocean.perceval_backend) (fetch_cache : bool)
    (server : list Ocean.es_response) : Ocean.ocean :=
  Ocean.mk_ocean (Some b) None None fetch_cache None
    sample_documents 2 "http://127.0.0.1:9200/bugzilla" "http://127.0.0.1:9200" [] []
    PNone 0 [] server [] [].

(** The origin has a document in the index. *)
Definition has_document (origin : string) (docs : list Ocean.document) : Prop :=
  exists d, In (origin, d) docs.

(** The fields that only [feed] itself writes. *)
Definition same_driver (o o' : Ocean.ocean) : Prop :=
  Ocean.calls o' = Ocean.calls o /\ Ocean.last_update o' = Ocean.last_update o.

Definition sample_prepared : list pyval :=
  match map_result (Ocean.prepare (H := sample_hooks) None) sample_items with
  | Ok l => l
  | Raise _ => []
  end.

(** A store that answers the first page request with a body that is not
    JSON, and one that cannot be reached. *)
Definition not_json_ocean : Ocean.ocean :=
  sample_ocean (sample_backend true []) false
    [Ocean.Answer (Ocean.mk_answer "<html>502 Bad Gateway</html>" None)].

Definition unreachable_ocean : Ocean.ocean :=
  sample_ocean (sample_backend true []) false [Ocean.Unreachable].

(** Documents in ascending, resp. descending, order of a date field. *)
Definition ascending (key : pyval -> Z) (l : list pyval) : Prop :=
  StronglySorted (fun a b => key a <= key b) l.

Definition descending (key : pyval -> Z) (l : list pyval) : Prop :=
  StronglySorted (fun a b => key b <= key a) l.

(** Three documents in a store that serves them one per page. *)
Definition three_docs : list pyval :=
  [PDict [("uuid", PStr "a")]; PDict [("uuid", PStr "b")]; PDict [("uuid", PStr "c")]].

Definition three_pages_ocean : Ocean.ocean :=
  sample_ocean (sample_backend true []) false (Ocean.scan 1 (PStr "c2Nhbjs") three_docs).

(** A buffer that holds a page of two documents. *)
Definition buffered_ocean : Ocean.ocean :=
  Ocean.set_iter_items [PInt 1; PInt 2] (sample_ocean (sample_backend true []) false []).

Definition int_key (v : pyval) : Z :=
  match v with
  | PInt z => z
  | _ => 0
  end.

(** *** Vocabulary of the Bugzilla connector *)

Section BugzillaVocabulary.
Context {P : Bugzilla.Parsers}.

(** The query of one page of the bug list. *)
Definition buglist_request (order : string) (from_date : datetime) : Bugzilla.request :=
  Bugzilla.mk_request Bugzilla.CGI_BUGLIST
    [("chfieldfrom", PStr (Bugzilla.strftime from_date));
     ("ctype", PStr "csv"); ("order", PStr order)].

Definition metadata_request : Bugzilla.request :=
  Bugzilla.mk_request Bugzilla.CGI_BUG [("ctype", PStr "xml")].

Definition details_request (bug_ids : list pyval) : Bugzilla.request :=
  Bugzilla.mk_request Bugzilla.CGI_BUG
    [("id", PList bug_ids); ("ctype", PStr "xml");
     ("excludefield", PStr "attachmentdata")].

Definition activity_request (bug_id : pyval) : Bugzilla.request :=
  Bugzilla.mk_request Bugzilla.CGI_BUG_ACTIVITY [("id", bug_id)].

(** The sort order that the client asks for, given the server version. *)
Definition order_of (v : string) : string :=
  if existsb (String.eqb v) Bugzilla.OLD_STYLE_VERSIONS then "Last+Changed"
  else "changeddate".

(** How the client comes to know the version [v] of the server: it
    knows it already, or it asks for it before its first query. *)
Definition handshake (st : Bugzilla.bugzilla) (v : string)
    (reqs : list Bugzilla.request) (resps : list Bugzilla.response) : Prop :=
  (Bugzilla.version st = Some v /\ reqs = [] /\ resps = [])
  \/ (Bugzilla.version_known (Bugzilla.version st) = false
      /\ exists m, Bugzilla.match_version m = Some v
                   /\ reqs = [metadata_request] /\ resps = [Bugzilla.Body m]).



(** What a method leaves alone when it only talks to the server. *)
Definition client_only (st st' : Bugzilla.bugzilla) : Prop :=
  Bugzilla.origin st' = Bugzilla.origin st
  /\ Bugzilla.max_bugs st' = Bugzilla.max_bugs st
  /\ Bugzilla.cache st' = Bugzilla.cache st
  /\ Bugzilla.cache_queue st' = Bugzilla.cache_queue st
  /\ Bugzilla.clock st' = Bugzilla.clock st
  /\ Bugzilla.ticks st' = Bugzilla.ticks st
  /\ Bugzilla.yielded st' = Bugzilla.yielded st.

End BugzillaVocabulary.

(** *** A Bugzilla server with three bugs *)

Definition csv_row (id date : string) : pyval :=
  PDict [("bug_id", PStr id); ("changeddate", PStr date)].

Definition bug_details (id delta_ts : string) : pyval :=
  PDict [("bug_id", PList [PDict [("__text__", PStr id)]]);
         ("delta_ts", PList [PDict [("__text__", PStr delta_ts)]])].

Definition activity_event : pyval :=
  PDict [("Who", PStr "sduenas@example.org"); ("When", PStr "2013-06-25 11:57:23 CEST");
         ("What", PStr "Status"); ("Removed", PStr "NEW"); ("Added", PStr "RESOLVED")].

Definition sample_parsers : Bugzilla.Parsers := {|
  Bugzilla.DEFAULT_DATETIME := mk_datetime 0 (Some 0);
  Bugzilla.str_to_datetime := fun v =>
    match v with
    | PStr s =>
        if String.eqb s "2009-07-30 11:35:32" then Ok (mk_datetime 1248953732 None)
        else if String.eqb s "2015-08-12 18:32:10" then Ok (mk_datetime 1439404330 None)
        else Raise InvalidDateError
    | _ => Raise InvalidDateError
    end;
  Bugzilla.strftime := fun d =>
    if dt_seconds d =? 0 then "1970-01-01 00:00:00"
    else if dt_seconds d =? 1248953733 then "2009-07-30 11:35:33"
    else if dt_seconds d =? 1439404331 then "2015-08-12 18:32:11"
    else "";
  Bugzilla.match_version := fun r =>
    if String.eqb r "<bugzilla version=4.0.4/>" then Some "4.0.4" else None;
  Bugzilla.csv_dict_reader := fun r =>
    if String.eqb r "csv: 15, 18" then
      [csv_row "15" "2009-07-22 15:27:25"; csv_row "18" "2009-07-30 11:35:32"]
    else if String.eqb r "csv: 888" then [csv_row "888" "2015-08-12 18:32:10"]
    else [];
  Bugzilla.xml_to_dict := fun r =>
    if String.eqb r "xml: 15, 18" then
      Ok [("bug", [bug_details "15" "2009-07-22 15:27:25 +0200";
                   bug_details "18" "2009-07-30 11:35:32 +0200"])]
    else if String.eqb r "xml: 888" then
      Ok [("bug", [bug_details "888" "2015-08-12 18:32:10 +0200"])]
    else Raise (ParseError "XML stream is invalid.");
  Bugzilla.parse_bug_activity := fun r =>
    if String.eqb r "html: no changes" then Ok []
    else if String.eqb r "html: one change" then Ok [activity_event]
    else Raise (ParseError "Table of bug activity not found.");
  Bugzilla.metadata_id := fun data =>
    rbind (getitem data "bug_id") (fun v =>
    rbind (getitem0 v) (fun v0 => getitem v0 "__text__"));
  Bugzilla.perceval_version := "0.1.0"
|}.

Definition sample_clock (n : nat) : Z := Z.of_nat n.

(** The answers of the server to a full fetch in chunks of two bugs. *)
Definition sample_server : list Bugzilla.response :=
  map Bugzilla.Body
    ["<bugzilla version=4.0.4/>"; "csv: 15, 18"; "csv: 888"; "";
     "xml: 15, 18"; "html: no changes"; "html: one change";
     "xml: 888"; "html: one change"].

Definition sample_connector : Bugzilla.bugzilla :=
  Bugzilla.init "http://example.com" 2 (Some []) sample_server sample_clock.

(** *** Vocabulary of the detail stage *)

(** [[l[i:i+K] for i in range(0, len(l), K)]]. *)
Definition chunks {A} (K : nat) (l : list A) : list (list A) :=
  map (fun i => Bugzilla.slice l i (i + K))
      (Bugzilla.range_from (List.length l) 0 (List.length l) K).

Definition ceil_div (n k : nat) : nat := ((n + k - 1) / k)%nat.

(** [bug['bug_id'][0]['__text__']]. *)
Definition bug_id_text (bug : pyval) : result pyval :=
  rbind (getitem bug "bug_id") (fun v =>
  rbind (getitem0 v) (fun v0 => getitem v0 "__text__")).

(** The bug with its activity attached. *)
Definition with_activity (bug : pyval) (events : list pyval) : pyval :=
  match bug with
  | PDict d => PDict (assoc_set "activity" (PList events) d)
  | _ => bug
  end.

(** The number of calls of a CGI among the requests. *)
Definition count_calls (cgi : string) (reqs : list Bugzilla.request) : nat :=
  List.length (filter (fun r => String.eqb (Bugzilla.cgi r) cgi) reqs).

(** The cache queue after [items] were pushed: nothing is queued by a
    connector without a cache. *)
Definition queued (st : Bugzilla.bugzilla) (items : list Bugzilla.raw)
  : list Bugzilla.raw :=
  match Bugzilla.cache st with
  | Some _ => Bugzilla.cache_queue st ++ items
  | None => Bugzilla.cache_queue st
  end.

(** What the detail stage leaves alone. *)
Definition same_setup (st st' : Bugzilla.bugzilla) : Prop :=
  Bugzilla.origin st' = Bugzilla.origin st
  /\ Bugzilla.max_bugs st' = Bugzilla.max_bugs st
  /\ Bugzilla.version st' = Bugzilla.version st
  /\ Bugzilla.clock st' = Bugzilla.clock st
  /\ Bugzilla.ticks st' = Bugzilla.ticks st.

(** A server that answers the requests of the detail stage: what it
    sends for a chunk of identifiers and for their activity, the requests
    that the chunk takes, the bug that the stage assembles, and the unit
    that the cache receives for the chunk. *)
Definition exchange (xml_of : list pyval -> Bugzilla.raw) (html_of : pyval -> Bugzilla.raw)
    (c : list pyval) : list Bugzilla.response :=
  Bugzilla.Body (xml_of c) :: map (fun id => Bugzilla.Body (html_of id)) c.

Definition chunk_requests (c : list pyval) : list Bugzilla.request :=
  details_request c :: map activity_request c.

Definition assembled (bug_of : pyval -> pyval) (events_of : pyval -> list pyval)
    (id : pyval) : pyval :=
  with_activity (bug_of id) (events_of id).

Definition chunk_unit (xml_of : list pyval -> Bugzilla.raw) (html_of : pyval -> Bugzilla.raw)
    (c : list pyval) : list Bugzilla.raw :=
  xml_of c :: map html_of c.

(** The three bugs of the sample server, as the detail stage meets them. *)
Definition sample_bug_of (id : pyval) : pyval :=
  match id with
  | PStr s =>
      if String.eqb s "15" then bug_details "15" "2009-07-22 15:27:25 +0200"
      else if String.eqb s "18" then bug_details "18" "2009-07-30 11:35:32 +0200"
      else bug_details "888" "2015-08-12 18:32:10 +0200"
  | _ => PNone
  end.

Definition sample_xml_of (c : list pyval) : Bugzilla.raw :=
  match c with
  | [_; _] => "xml: 15, 18"
  | [_] => "xml: 888"
  | _ => ""
  end.

Definition sample_html_of (id : pyval) : Bugzilla.raw :=
  match id with
  | PStr s => if String.eqb s "15" then "html: no changes" else "html: one change"
  | _ => ""
  end.

Definition sample_events_of (id : pyval) : list pyval :=
  match id with
  | PStr s => if String.eqb s "15" then [] else [activity_event]
  | _ => []
  end.

Definition sample_buglist : list pyval :=
  [csv_row "15" "2009-07-22 15:27:25"; csv_row "18" "2009-07-30 11:35:32";
   csv_row "888" "2015-08-12 18:32:10"].

(** The connector once the bug list has been enumerated. *)
Definition details_connector : Bugzilla.bugzilla :=
  Bugzilla.init "http://example.com" 2 (Some [])
    (map Bugzilla.Body
       ["xml: 15, 18"; "html: no changes"; "html: one change";
        "xml: 888"; "html: one change"])
    sample_clock.

(** *** Vocabulary of the replay *)

(** The three components of a run. *)
Definition items_of (x : list pyval * result unit * Bugzilla.bugzilla) : list pyval :=
  fst (fst x).
Definition outcome (x : list pyval * result unit * Bugzilla.bugzilla) : result unit :=
  snd (fst x).
Definition final (x : list pyval * result unit * Bugzilla.bugzilla) : Bugzilla.bugzilla :=
  snd x.

Section ReplayVocabulary.
Context {P : Bugzilla.Parsers}.

(** The parsers and the identity extractor know nothing of the cache:
    they raise no [CacheError]. *)
Definition cache_free : Prop :=
  (forall r c, Bugzilla.xml_to_dict r <> Raise (CacheError c))
  /\ (forall r c, Bugzilla.parse_bug_activity r <> Raise (CacheError c))
  /\ (forall v c, Bugzilla.metadata_id v <> Raise (CacheError c)).

(** The loop of the decorator around the consumer that takes every item. *)
Definition decorated (data : pyval) : Bugzilla.M unit :=
  item <- Bugzilla.metadata_item data ;; Bugzilla.collect item.

(** [item] is [data] with its metadata, for a connector of this origin. *)
Definition wrapped (origin : string) (data item : pyval) : Prop :=
  exists timestamp id u updated_on,
    Bugzilla.metadata_id data = Ok id
    /\ Backend.uuid [PStr origin; id] = Ok u
    /\ Bugzilla.get_update_time data = Ok updated_on
    /\ item = PDict [("backend_name", PStr "Bugzilla");
                     ("backend_version", PStr "0.1.0");
                     ("perceval_version", PStr Bugzilla.perceval_version);
                     ("timestamp", PInt timestamp);
                     ("origin", PStr origin);
                     ("uuid", PStr u);
                     ("updated_on", updated_on);
                     ("data", data)].

(** The decorator builds an item around [data] without an exception. *)
Definition wraps (origin : string) (data : pyval) : Prop :=
  exists item, wrapped origin data item.

(** The parsers of the replay know nothing of the cache: they raise no
    [CacheError]. *)
Definition replay_free : Prop :=
  (forall r c, Bugzilla.xml_to_dict r <> Raise (CacheError c))
  /\ (forall r c, Bugzilla.parse_bug_activity r <> Raise (CacheError c)).

(** The loop of the decorator of the connector around the consumer that
    takes every item. *)
Definition with_metadata (bug : pyval) : Bugzilla.M unit :=
  item <- Bugzilla.add_metadata bug ;; Bugzilla.collect item.

(** The entry ['__metadata__'] of a record. *)
Definition metadata_entry (origin : string) (timestamp : Z) (updated_on : pyval)
  : pyval :=
  PDict [("backend_name", PStr "Bugzilla");
         ("backend_version", PStr "0.1.0");
         ("timestamp", PInt timestamp);
         ("origin", PStr origin);
         ("updated_on", updated_on)].

(** [item] is [bug] with its entry, for a connector of this origin. *)
Definition stamped (origin : string) (bug item : pyval) : Prop :=
  exists timestamp updated_on,
    Bugzilla.get_update_time bug = Ok updated_on
    /\ setitem bug "__metadata__" (metadata_entry origin timestamp updated_on) = Ok item.

(** The decorator of the connector can read the update time of [bug]. *)
Definition stampable (bug : pyval) : Prop :=
  exists updated_on, Bugzilla.get_update_time bug = Ok updated_on.

(** The activity block [raw_activity] is read for [bug], and the bug is
    yielded with that activity: [data]. *)
Definition replays (bug : pyval) (raw_activity : Bugzilla.raw) (data : pyval) : Prop :=
  exists activity,
    Bugzilla.parse_bug_activity raw_activity = Ok activity
    /\ setitem bug "activity" (PList activity) = Ok data
    /\ stampable data.

(** The cache runs dry in the middle of a pair: with the bugs [pending]
    of the details block in hand, the replay of [items] reaches a bug whose
    activity block is missing, every block before it having been read and
    its bug yielded. *)
Inductive starved : list pyval -> list Bugzilla.raw -> Prop :=
| starved_now bug pending :
    starved (bug :: pending) []
| starved_later bug pending raw_activity items data :
    replays bug raw_activity data ->
    starved pending items ->
    starved (bug :: pending) (raw_activity :: items)
| starved_next raw_bugs bugs items :
    Bugzilla.parse_bugs_details raw_bugs = Ok bugs ->
    starved bugs items ->
    starved [] (raw_bugs :: items).

(** The blocks [items] replay completely and yield [datas]. *)
Inductive replayed : list pyval -> list Bugzilla.raw -> list pyval -> Prop :=
| replayed_done :
    replayed [] [] []
| replayed_bug bug pending raw_activity items data datas :
    replays bug raw_activity data ->
    replayed pending items datas ->
    replayed (bug :: pending) (raw_activity :: items) (data :: datas)
| replayed_next raw_bugs bugs items datas :
    Bugzilla.parse_bugs_details raw_bugs = Ok bugs ->
    replayed bugs items datas ->
    replayed [] (raw_bugs :: items) datas.

(** The replay taken up in the middle of a details block: the bugs
    [pending] of the block, then the blocks that follow. *)
Definition resume (fuel : nat) (pending : list pyval) (items : list Bugzilla.raw)
  : Bugzilla.M unit :=
  rest <- Bugzilla.replay_bugs with_metadata pending items ;;
  Bugzilla.replay_loop fuel with_metadata rest.

(** What the decorator and the consumer leave alone. *)
Definition consumer_only (st st' : Bugzilla.bugzilla) : Prop :=
  Bugzilla.origin st' = Bugzilla.origin st
  /\ Bugzilla.max_bugs st' = Bugzilla.max_bugs st
  /\ Bugzilla.cache st' = Bugzilla.cache st
  /\ Bugzilla.cache_queue st' = Bugzilla.cache_queue st
  /\ Bugzilla.version st' = Bugzilla.version st
  /\ Bugzilla.responses st' = Bugzilla.responses st
  /\ Bugzilla.requests st' = Bugzilla.requests st
  /\ Bugzilla.clock st' = Bugzilla.clock st.

End ReplayVocabulary.

(** A cache that lost the activity block of the second bug of its only
    details block. *)
Definition truncated_cache_connector : Bugzilla.bugzilla :=
  Bugzilla.init "http://example.com" 5
    (Some [["xml: 15, 18"; "html: no changes"]]) [] sample_clock.

(** A server whose second activity page has no table of activity. *)
Definition failing_server : list Bugzilla.response :=
  map Bugzilla.Body
    ["<bugzilla version=4.0.4/>"; "csv: 15, 18"; "";
     "xml: 15, 18"; "html: no changes"; "<html><body>Internal error</body></html>"].

Definition failing_connector : Bugzilla.bugzilla :=
  Bugzilla.init "http://example.com" 5 (Some []) failing_server sample_clock.

(** A fetch in chunks of two bugs from a server that lists the two bugs
    on two pages in a row; the answer for the activity of the last bug of
    the second chunk is not a page of activity. *)
Definition interrupted_server : list Bugzilla.response :=
  map Bugzilla.Body
    ["<bugzilla version=4.0.4/>"; "csv: 15, 18"; "csv: 15, 18"; "";
     "xml: 15, 18"; "html: no changes"; "html: one change";
     "xml: 15, 18"; "html: no changes"; "<html><body>Internal error</body></html>"].

Definition interrupted_connector : Bugzilla.bugzilla :=
  Bugzilla.init "http://example.com" 2 (Some []) interrupted_server sample_clock.

(** A method leaves related every state and the state it ends in. *)
Definition preserves {A} (R : Bugzilla.bugzilla -> Bugzilla.bugzilla -> Prop)
    (m : Bugzilla.M A) : Prop :=
  forall st, R st (snd (m st)).

(** What a record tells: a field of its entry ['__metadata__'], and the
    identity that the data model gives it, the [uuid] of its origin and
    of the identifier of the bug. *)
Definition metadata_field (key : string) (item : pyval) : result pyval :=
  rbind (getitem item "__metadata__") (fun entry => getitem entry key).

Definition identity_of (item : pyval) : result string :=
  rbind (metadata_field "origin" item) (fun origin =>
  rbind (bug_id_text item) (fun id => Backend.uuid [origin; id])).

(** Two records of one bug: every field of the bug reads the same in
    both, and so do the origin and the update time of their entries. *)
Definition same_record (a b : pyval) : Prop :=
  (forall key, key <> "__metadata__" -> getitem a key = getitem b key)
  /\ metadata_field "origin" a = metadata_field "origin" b
  /\ metadata_field "updated_on" a = metadata_field "updated_on" b.

(** The record carries its origin and the update time that the source
    reports for the bug. *)
Definition records_source (origin : string) (item : pyval) : Prop :=
  metadata_field "origin" item = Ok (PStr origin)
  /\ exists updated_on,
       metadata_field "updated_on" item = Ok updated_on
       /\ Bugzilla.get_update_time item = Ok updated_on.

(** A connector whose cache is configured and empty, on a storage that
    cannot be read. *)
Definition unreadable_cache_connector : Bugzilla.bugzilla :=
  Bugzilla.set_cache_readable false
    (Bugzilla.init "http://example.com" 5 (Some []) [] sample_clock).

(** A connector without a cache. *)
Definition no_cache_connector : Bugzilla.bugzilla :=
  Bugzilla.init "http://example.com" 5 None [] sample_clock.

(** *** Vocabulary of the further properties *)

(** A lowercase hexadecimal digit. *)
Definition is_hex_digit (c : ascii) : bool :=
  existsb (Ascii.eqb c) (list_ascii_of_string "0123456789abcdef").

(** A generator that yields the items of a list. *)
Definition yields (datas : list pyval) : Bugzilla.generator :=
  fun yield_ => for_each datas yield_.

(** The connector once a request has been logged. *)
Definition requested (r : Bugzilla.request) (st : Bugzilla.bugzilla)
  : Bugzilla.bugzilla :=
  Bugzilla.set_requests (Bugzilla.requests st ++ [r]) st.

(** Two connectors that differ at most by their cache and its queue. *)
Definition twin (st st' : Bugzilla.bugzilla) : Prop :=
  Bugzilla.origin st' = Bugzilla.origin st
  /\ Bugzilla.max_bugs st' = Bugzilla.max_bugs st
  /\ Bugzilla.version st' = Bugzilla.version st
  /\ Bugzilla.responses st' = Bugzilla.responses st
  /\ Bugzilla.requests st' = Bugzilla.requests st
  /\ Bugzilla.clock st' = Bugzilla.clock st
  /\ Bugzilla.ticks st' = Bugzilla.ticks st
  /\ Bugzilla.yielded st' = Bugzilla.yielded st.

(** Two methods that return the same and keep twins twins. *)
Definition alike {A} (m m' : Bugzilla.M A) : Prop :=
  forall st st',
    twin st st' ->
    fst (m st) = fst (m' st') /\ twin (snd (m st)) (snd (m' st')).

(** The cache of [st'] holds the units of the cache of [st], in the
    same order, followed by new ones; no cache appears where there was
    none. *)
Definition cache_grows (st st' : Bugzilla.bugzilla) : Prop :=
  match Bugzilla.cache st with
  | None => Bugzilla.cache st' = None
  | Some units => exists new, Bugzilla.cache st' = Some (units ++ new)
  end.

(** A request for the details of between one and [K] bugs, or a request
    of another kind. *)
Definition within_bound (K : nat) (r : Bugzilla.request) : Prop :=
  forall ids,
    Bugzilla.cgi r = Bugzilla.CGI_BUG ->
    assoc "id" (Bugzilla.params r) = Some (PList ids) ->
    (1 <= List.length ids <= K)%nat.

(** The requests of [st'] are those of [st] followed by requests within
    the bound of the connector. *)
Definition bounded_calls (st st' : Bugzilla.bugzilla) : Prop :=
  Bugzilla.max_bugs st' = Bugzilla.max_bugs st
  /\ exists new,
       Bugzilla.requests st' = Bugzilla.requests st ++ new
       /\ Forall (within_bound (Bugzilla.max_bugs st)) new.

(** *** The table of activity laid out in cells *)

(** A group of changes made by one person at one time: the texts of the
    cells ['Who'] and ['When'], and for each change those of ['What'],
    ['Removed'] and ['Added']. *)
Definition change : Type := (string * string * string)%type.
Definition group : Type := (string * string * list change)%type.

Definition plain (s : string) : Activity.td := Activity.mk_td s Activity.Absent.

Definition change_cells (c : change) : list Activity.td :=
  let '(what, removed, added) := c in [plain what; plain removed; plain added].

(** The head of a group: the cell ['Who'] spans [n] rows. *)
Definition head_cells (who when : string) (n : Z) : list Activity.td :=
  [Activity.mk_td who (Activity.Number n); plain when].

Definition group_cells (g : group) : list Activity.td :=
  let '(who, when, cs) := g in
  head_cells who when (Z.of_nat (List.length cs)) ++ flat_map change_cells cs.

Definition change_event (who when : string) (c : change) : pyval :=
  let '(what, removed, added) := c in
  PDict [("Who", PStr who); ("When", PStr when); ("What", PStr what);
         ("Removed", PStr removed); ("Added", PStr added)].

Definition group_events (g : group) : list pyval :=
  let '(who, when, cs) := g in map (change_event who when) cs.

(** *** Scenarios *)

(** The activity of a bug whose status was changed twice by one person
    and once by another. *)
Definition sample_groups : list group :=
  [("sduenas@example.org", "2013-06-25 11:57:23 CEST",
    [("Status", "NEW", "ASSIGNED"); ("Assignee", "nobody", "sduenas@example.org")]);
   ("acs@example.org", "2013-06-25 11:59:07 CEST",
    [("Status", "ASSIGNED", "RESOLVED")])].

(** The sample connector built without a cache. *)
Definition sample_connector_without_cache : Bugzilla.bugzilla :=
  Bugzilla.init "http://example.com" 2 None sample_server sample_clock.

(** A server that does not tell its version, and one that has no bug. *)
Definition no_version_connector : Bugzilla.bugzilla :=
  Bugzilla.init "http://example.com" 2 (Some [])
    [Bugzilla.Body "<html>Not a Bugzilla</html>"] sample_clock.

Definition no_bugs_connector : Bugzilla.bugzilla :=
  Bugzilla.init "http://example.com" 2 (Some [])
    (map Bugzilla.Body ["<bugzilla version=4.0.4/>"; ""]) sample_clock.

(** A connector whose sequence of items ends with an exception. *)
Definition failing_backend (items : list pyval) (e : exn) : Ocean.perceval_backend :=
  Ocean.mk_backend "http://example.com" true (fun _ => (items, Some e)).

(** The request that opens a cursor on the documents of the origin,
    with pages of [size]. *)
Definition search_request (o : Ocean.ocean) (size : Z) : Ocean.es_url * Ocean.es_data :=
  (Ocean.SearchUrl (Ocean.index_url o) "3m" size,
   Ocean.Query
     match Ocean.backend o with
     | Some b =>
         if String.eqb (Ocean.pb_origin b) "" then None else Some (Ocean.pb_origin b)
     | None => None
     end
     (Ocean.from_date o)
     match Ocean.backend o with Some _ => true | None => false end).

(** The request that advances the cursor [token]. *)
Definition scroll_request (o : Ocean.ocean) (token : pyval)
  : Ocean.es_url * Ocean.es_data :=
  (Ocean.ScrollUrl (Ocean.url o), Ocean.ScrollData "3m" token).

(** The request for a page, given the cursor that the engine holds. *)
Definition page_request (o : Ocean.ocean) : Ocean.es_url * Ocean.es_data :=
  if truthy (Ocean.elastic_scroll_id o)
  then scroll_request o (Ocean.elastic_scroll_id o)
  else search_request o (Ocean.elastic_page o).

(** What the read-back leaves alone between two requests: the log of
    the requests and the settings from which a request is built. *)
Definition quiet (o o' : Ocean.ocean) : Prop :=
  Ocean.es_posts o' = Ocean.es_posts o
  /\ Ocean.url o' = Ocean.url o
  /\ Ocean.index_url o' = Ocean.index_url o
  /\ Ocean.backend o' = Ocean.backend o
  /\ Ocean.from_date o' = Ocean.from_date o.

(** A method of the engine after which [R] relates the state it started
    from and the state it ends in. *)
Definition keeps {A} (R : Ocean.ocean -> Ocean.ocean -> Prop) (m : Ocean.M A) : Prop :=
  forall o, R o (snd (m o)).

(** The connector has handed on more items and has not touched its
    cache. *)
Definition yields_more (st st' : Bugzilla.bugzilla) : Prop :=
  Bugzilla.cache st' = Bugzilla.cache st
  /\ Bugzilla.origin st' = Bugzilla.origin st
  /\ exists extra, Bugzilla.yielded st' = Bugzilla.yielded st ++ extra.

(** An engine that feeds the index of a project. *)
Definition project_ocean (b : Ocean.perceval_backend) : Ocean.ocean :=
  Ocean.mk_ocean (Some b) None None false (Some "gluster")
    sample_documents 2 "http://127.0.0.1:9200/bugzilla" "http://127.0.0.1:9200" [] []
    PNone 0 [] [] [] [].

Definition project_prepared : list pyval :=
  match map_result (Ocean.prepare (H := sample_hooks) (Some "gluster")) sample_items with
  | Ok l => l
  | Raise _ => []
  end.

(* ===================================================================== *)
(** * Properties *)
(* ===================================================================== *)

(** ** Dicts *)

Lemma assoc_set_same (key : string) (v : pyval) (d : list (string * pyval)) :
  assoc key (assoc_set key v d) = Some v.
Proof.
  induction d as [| [k w] d IH]; cbn [assoc_set assoc].
  - rewrite String.eqb_refl. reflexivity.
  - destruct (String.eqb k key) eqn:E; cbn [assoc]; rewrite E; [reflexivity | exact IH].
Qed.

Lemma assoc_set_other (key key' : string) (v : pyval) (d : list (string * pyval)) :
  key' <> key -> assoc key' (assoc_set key v d) = assoc key' d.
Proof.
  intros Hne. induction d as [| [k w] d IH]; cbn [assoc_set assoc].
  - destruct (String.eqb_spec key key'); [congruence | reflexivity].
  - destruct (String.eqb_spec k key) as [-> | Hk]; cbn [assoc].
    + destruct (String.eqb_spec key key'); [congruence | reflexivity].
    + rewrite IH. reflexivity.
Qed.

Lemma getitem_setitem_same (v : pyval) (key : string) (w item : pyval) :
  setitem v key w = Ok item -> getitem item key = Ok w.
Proof.
  destruct v; cbn [setitem]; try discriminate. intros H. injection H as <-.
  cbn [getitem]. rewrite assoc_set_same. reflexivity.
Qed.

Lemma getitem_setitem_other (v : pyval) (key key' : string) (w item : pyval) :
  setitem v key w = Ok item -> key' <> key -> getitem item key' = getitem v key'.
Proof.
  destruct v; cbn [setitem]; try discriminate. intros H Hne. injection H as <-.
  cbn [getitem]. rewrite assoc_set_other by exact Hne. reflexivity.
Qed.

(** The fields of a bug with its activity attached. *)
Lemma with_activity_reads (bug : pyval) (events : list pyval) :
  (exists d, bug = PDict d) ->
  getitem (with_activity bug events) "activity" = Ok (PList events)
  /\ (forall key, key <> "activity" ->
        getitem (with_activity bug events) key = getitem bug key)
  /\ bug_id_text (with_activity bug events) = bug_id_text bug.
Proof.
  intros [d ->]. cbn [with_activity getitem].
  split; [rewrite assoc_set_same; reflexivity |].
  assert (Hother : forall key, key <> "activity" ->
            match assoc key (assoc_set "activity" (PList events) d) with
            | Some w => Ok w
            | None => Raise (KeyError key)
            end
            = match assoc key d with Some w => Ok w | None => Raise (KeyError key) end).
  { intros key Hne. rewrite assoc_set_other by exact Hne. reflexivity. }
  split; [exact Hother |].
  unfold bug_id_text. cbn [getitem]. rewrite Hother by discriminate. reflexivity.
Qed.

(** ** The identity generator *)

Example sha1_abc :
  Sha1.hexdigest "abc" = "a9993e364706816aba3e25717850c26c9cd0d89d".
Proof. vm_compute. reflexivity. Qed.

Example sha1_empty :
  Sha1.hexdigest "" = "da39a3ee5e6b4b0d3255bfef95601890afd80709".
Proof. vm_compute. reflexivity. Qed.

Example sha1_two_blocks :
  Sha1.hexdigest "abcdbcdecdefdefgefghfghighijhijkijkljklmklmnlmnomnopnopq"
  = "84983e441c3bd26ebaae4aa1f95129e5e54670f1".
Proof. vm_compute. reflexivity. Qed.

Lemma check_value_ok (s : string) :
  s <> "" -> Backend.check_value (PStr s) = Ok s.
Proof.
  intros Hs. unfold Backend.check_value.
  destruct (String.eqb_spec s ""); [contradiction | reflexivity].
Qed.

Lemma check_value_error (v : pyval) :
  ~ non_empty_str v -> exists msg, Backend.check_value v = Raise (ValueError msg).
Proof.
  intros Hv. destruct v; simpl; try (eexists; reflexivity).
  destruct (String.eqb_spec s "") as [-> | Hne].
  - eexists; reflexivity.
  - exfalso. apply Hv. exists s. split; [reflexivity | assumption].
Qed.

Lemma map_check_ok (ss : list string) :
  Forall (fun s => s <> "") ss ->
  Backend.map_check (map PStr ss) = Ok ss.
Proof.
  induction 1 as [| s ss Hs _ IH]; [reflexivity |].
  cbn [map Backend.map_check]. rewrite (check_value_ok s Hs). cbn [rbind].
  rewrite IH. reflexivity.
Qed.

Lemma map_check_error (args : list pyval) :
  Exists (fun v => ~ non_empty_str v) args ->
  exists msg, Backend.map_check args = Raise (ValueError msg).
Proof.
  induction args as [| v args IH]; intros Hex.
  - inversion Hex.
  - cbn [Backend.map_check].
    destruct (Backend.check_value v) as [s | e] eqn:Hv.
    + cbn [rbind].
      assert (Hrest : Exists (fun v => ~ non_empty_str v) args).
      { inversion Hex as [? ? Hbad | ? ? Hlater]; subst; [| assumption].
        destruct (check_value_error v Hbad) as [msg Hmsg]. congruence. }
      destruct (IH Hrest) as [msg ->]. exists msg. reflexivity.
    + cbn [rbind]. destruct v; simpl in Hv;
        try (injection Hv as <-; eexists; reflexivity).
      destruct (String.eqb s ""); [| discriminate].
      injection Hv as <-. eexists; reflexivity.
Qed.

Lemma append_assoc (a b c : string) :
  String.append (String.append a b) c = String.append a (String.append b c).
Proof. induction a as [| x a IH]; [reflexivity |]. cbn. rewrite IH. reflexivity. Qed.

Lemma join_cons_append (a t : string) (rest : list string) :
  Backend.join ":" (String.append a t :: rest)
  = String.append a (Backend.join ":" (t :: rest)).
Proof.
  destruct rest as [| u rest]; [reflexivity |].
  cbn [Backend.join]. apply append_assoc.
Qed.

(** [join] gives the text that the contract describes. *)
Lemma join_is_joined_with_colon (ss : list string) :
  Backend.join ":" ss = joined_with_colon ss.
Proof.
  destruct ss as [| s rest]; [reflexivity |].
  unfold joined_with_colon. revert s.
  induction rest as [| t rest IH]; intros s; [reflexivity |].
  cbn [fold_left]. rewrite <- IH.
  rewrite !join_cons_append. reflexivity.
Qed.

(** C1.  Given non-empty strings that UTF-8 can encode, [uuid] returns
    the SHA-1 hex digest of the arguments joined with [':'] (the digests
    of the two messages of the standard are those of the standard);
    equal argument lists give the equal digest; as soon as one argument
    is not a string or is the empty string, [uuid] raises [ValueError]
    and returns no digest; and given non-empty strings of which one
    holds a lone surrogate, it raises [UnicodeEncodeError]. *)
Theorem uuid_digest_or_value_error :
  (forall ss : list string,
      Forall (fun s => s <> "") ss ->
      Backend.has_surrogate (joined_with_colon ss) = false ->
      Backend.uuid (map PStr ss) = Ok (Sha1.hexdigest (joined_with_colon ss)))
  /\ (Backend.uuid [PStr "abc"] = Ok "a9993e364706816aba3e25717850c26c9cd0d89d"
      /\ Backend.uuid [PStr "abcdbcdecdefdefgefghfghighijhijkijkljklmklmnlmnomnopnopq"]
         = Ok "84983e441c3bd26ebaae4aa1f95129e5e54670f1"
      /\ Backend.uuid [PStr "a"; PStr "b"; PStr "c"]
         = Ok "70bce09e827a98fe6acf7c3e9b0bcf136bc382ed")
  /\ (forall args args' : list pyval,
      args = args' -> Backend.uuid args = Backend.uuid args')
  /\ (forall args : list pyval,
      Exists (fun v => ~ non_empty_str v) args ->
      exists msg, Backend.uuid args = Raise (ValueError msg))
  /\ (forall ss : list string,
      Forall (fun s => s <> "") ss ->
      Backend.has_surrogate (joined_with_colon ss) = true ->
      Backend.uuid (map PStr ss) = Raise UnicodeEncodeError).
Proof.
  split; [| split; [| split; [| split]]].
  - intros ss Hss Henc. unfold Backend.uuid. rewrite (map_check_ok ss Hss).
    cbn [rbind]. rewrite join_is_joined_with_colon. unfold Backend.encode_utf8.
    rewrite Henc. reflexivity.
  - repeat split; vm_compute; reflexivity.
  - intros args args' ->. reflexivity.
  - intros args Hex. unfold Backend.uuid.
    destruct (map_check_error args Hex) as [msg ->]. exists msg. reflexivity.
  - intros ss Hss Henc. unfold Backend.uuid. rewrite (map_check_ok ss Hss).
    cbn [rbind]. rewrite join_is_joined_with_colon. unfold Backend.encode_utf8.
    rewrite Henc. reflexivity.
Qed.

Lemma uuid_digest_or_value_error_witness :
  Backend.uuid [PStr "http://example.com"; PStr "15"]
    = Ok "5a8a1e25dfda86b961b4146050883cbfc928f8ec"
  /\ (exists msg, Backend.uuid [PStr "http://example.com"; PStr ""] = Raise (ValueError msg))
  /\ (exists msg, Backend.uuid [PStr "http://example.com"; PNone] = Raise (ValueError msg))
  /\ Backend.uuid [PStr "http://example.com"; PStr lone_surrogate]
     = Raise UnicodeEncodeError.
Proof.
  destruct uuid_digest_or_value_error as (Hok & _ & _ & Herr & Henc).
  split; [| split; [| split]].
  - change [PStr "http://example.com"; PStr "15"]
      with (map PStr ["http://example.com"; "15"]).
    rewrite Hok.
    + vm_compute. reflexivity.
    + repeat constructor; discriminate.
    + vm_compute. reflexivity.
  - apply Herr. apply Exists_cons_tl. apply Exists_cons_hd.
    intros [s [Hs Hne]]. injection Hs as <-. apply Hne. reflexivity.
  - apply Herr. apply Exists_cons_tl. apply Exists_cons_hd.
    intros [s [Hs _]]. discriminate.
  - apply (Henc ["http://example.com"; lone_surrogate]).
    + repeat constructor; discriminate.
    + vm_compute. reflexivity.
Defined.

(** C1 as it is stated does not hold of every list of non-empty
    strings: a [str] that holds a lone surrogate passes [check_value],
    and the encoding of the joined text raises. *)
Lemma uuid_raises_on_lone_surrogate :
  Forall (fun s => s <> "") ["http://example.com"; lone_surrogate]
  /\ Backend.uuid (map PStr ["http://example.com"; lone_surrogate])
     = Raise UnicodeEncodeError
  /\ ~ (forall ss : list string,
          Forall (fun s => s <> "") ss ->
          exists digest, Backend.uuid (map PStr ss) = Ok digest).
Proof.
  assert (Hne : Forall (fun s => s <> "") ["http://example.com"; lone_surrogate])
    by (repeat constructor; discriminate).
  assert (Hraise : Backend.uuid (map PStr ["http://example.com"; lone_surrogate])
                   = Raise UnicodeEncodeError) by (vm_compute; reflexivity).
  split; [exact Hne |]. split; [exact Hraise |].
  intros Hall. destruct (Hall _ Hne) as [digest Hd]. rewrite Hraise in Hd. discriminate.
Qed.

(** ** The feed pass *)

Section FeedPass.
Context {H : Ocean.Hooks}.

Lemma bind_ok {S A B} (m : M S A) (f : A -> M S B) st a st' :
  m st = (Ok a, st') -> bind m f st = f a st'.
Proof. intros E. unfold bind. rewrite E. reflexivity. Qed.

Lemma bind_raise {S A B} (m : M S A) (f : A -> M S B) st e st' :
  m st = (Raise e, st') -> bind m f st = (Raise e, st').
Proof. intros E. unfold bind. rewrite E. reflexivity. Qed.

Lemma items_to_es_empty (o : Ocean.ocean) :
  Ocean._items_to_es [] o = (Ok tt, o).
Proof. reflexivity. Qed.

Lemma items_to_es_pack (x : pyval) (pack : list pyval) (o : Ocean.ocean) :
  Ocean._items_to_es (x :: pack) o
  = (Ok tt, Ocean.set_uploads (Ocean.uploads o ++ [upload_of (x :: pack)]) o).
Proof. reflexivity. Qed.

Lemma set_uploads_twice u v (o : Ocean.ocean) :
  Ocean.set_uploads v (Ocean.set_uploads u o) = Ocean.set_uploads v o.
Proof. reflexivity. Qed.

Lemma set_uploads_same (o : Ocean.ocean) :
  Ocean.set_uploads (Ocean.uploads o ++ map upload_of []) o = o.
Proof. destruct o. cbn. rewrite app_nil_r. reflexivity. Qed.

(** The loop of [feed]: the packs handed to the store on the way are
    full, and no survivor is lost or repeated. *)
Lemma feed_loop_packs (items : list pyval) :
  forall (prepared pack : list pyval) (drop : nat) (o : Ocean.ocean),
    map_result (Ocean.prepare (Ocean.project o)) items = Ok prepared ->
    (List.length pack <= bulk_size o)%nat ->
    exists (packs : list (list pyval)) (pack' : list pyval),
      Ocean.feed_loop items pack drop o
      = (Ok (pack', (drop + List.length (filter Ocean.drop_item prepared))%nat),
         Ocean.set_uploads (Ocean.uploads o ++ map upload_of packs) o)
      /\ List.concat packs ++ pack'
         = pack ++ filter (fun i => negb (Ocean.drop_item i)) prepared
      /\ Forall (fun p => List.length p = bulk_size o) packs
      /\ (List.length pack' <= bulk_size o)%nat.
Proof.
  induction items as [| item items IH]; intros prepared pack drop o Hprep Hlen.
  - cbn in Hprep. injection Hprep as <-.
    exists [], pack. cbn [Ocean.feed_loop filter List.length map List.concat].
    rewrite set_uploads_same, app_nil_r, Nat.add_0_r.
    repeat split; auto.
  - cbn [map_result] in Hprep.
    destruct (Ocean.prepare (Ocean.project o) item) as [it |] eqn:Hit;
      [| discriminate].
    cbn [rbind] in Hprep.
    destruct (map_result (Ocean.prepare (Ocean.project o)) items) as [rest |] eqn:Hrest;
      [| discriminate].
    cbn [rbind] in Hprep. injection Hprep as <-.
    cbn [Ocean.feed_loop]. unfold bind at 1. cbn [get].
    unfold bind at 1. unfold lift at 1. rewrite Hit.
    assert (Hm : (1 <= bulk_size o)%nat) by (unfold bulk_size; lia).
    destruct (Z.of_nat (List.length pack) >=? Ocean.max_items_bulk o) eqn:Hfull;
      rewrite Z.geb_leb in Hfull;
      [apply Z.leb_le in Hfull | apply Z.leb_gt in Hfull].
    + (* the pack is handed over before the item is looked at *)
      assert (Hpack : pack = [] \/ List.length pack = bulk_size o).
      { destruct pack as [| x pack]; [left; reflexivity | right].
        unfold bulk_size in *. cbn [List.length] in *. lia. }
      unfold bind at 1. unfold bind at 1.
      destruct pack as [| x pack].
      * rewrite items_to_es_empty. cbn [ret].
        destruct (Ocean.drop_item it) eqn:Hdrop; cbn [negb filter].
        -- rewrite Hdrop. cbn [negb].
           destruct (IH rest [] (S drop) o Hrest) as (packs & pack' & E & Hc & Hf & Hl);
             [cbn; lia |].
           exists packs, pack'. rewrite E. cbn [List.length].
           rewrite Nat.add_succ_r. repeat split; auto.
        -- rewrite Hdrop. cbn [negb].
           destruct (IH rest ([] ++ [it]) drop o Hrest) as (packs & pack' & E & Hc & Hf & Hl);
             [cbn; lia |].
           exists packs, pack'. rewrite E. repeat split; auto.
      * rewrite items_to_es_pack. cbn [ret].
        destruct Hpack as [Hnil | Hfulllen]; [discriminate |].
        set (o1 := Ocean.set_uploads _ o).
        assert (Hproj : Ocean.project o1 = Ocean.project o) by reflexivity.
        assert (Hbulk : bulk_size o1 = bulk_size o) by reflexivity.
        destruct (Ocean.drop_item it) eqn:Hdrop; cbn [negb filter]; rewrite Hdrop;
          cbn [negb].
        -- destruct (IH rest [] (S drop) o1) as (packs & pack' & E & Hc & Hf & Hl);
             [rewrite Hproj; exact Hrest | cbn; lia |].
           exists ((x :: pack) :: packs), pack'. rewrite E.
           split; [| split; [| split]].
           ++ cbn [List.length]. rewrite Nat.add_succ_r. f_equal.
              subst o1. rewrite set_uploads_twice. cbn [Ocean.uploads Ocean.set_uploads map].
              rewrite <- app_assoc. reflexivity.
           ++ cbn [List.concat]. rewrite <- app_assoc, Hc. reflexivity.
           ++ constructor; [exact Hfulllen | rewrite <- Hbulk; exact Hf].
           ++ rewrite <- Hbulk; exact Hl.
        -- destruct (IH rest ([] ++ [it]) drop o1) as (packs & pack' & E & Hc & Hf & Hl);
             [rewrite Hproj; exact Hrest | cbn; lia |].
           exists ((x :: pack) :: packs), pack'. rewrite E.
           split; [| split; [| split]].
           ++ f_equal.
              subst o1. rewrite set_uploads_twice. cbn [Ocean.uploads Ocean.set_uploads map].
              rewrite <- app_assoc. reflexivity.
           ++ cbn [List.concat]. rewrite <- app_assoc, Hc. reflexivity.
           ++ constructor; [exact Hfulllen | rewrite <- Hbulk; exact Hf].
           ++ rewrite <- Hbulk; exact Hl.
    + (* the pack has room *)
      assert (Hroom : (List.length pack < bulk_size o)%nat).
      { unfold bulk_size. lia. }
      unfold bind at 1. cbn [ret].
      destruct (Ocean.drop_item it) eqn:Hdrop; cbn [negb filter]; rewrite Hdrop;
        cbn [negb].
      * destruct (IH rest pack (S drop) o Hrest Hlen) as (packs & pack' & E & Hc & Hf & Hl).
        exists packs, pack'. rewrite E. cbn [List.length].
        rewrite Nat.add_succ_r. repeat split; auto.
      * destruct (IH rest (pack ++ [it]) drop o Hrest) as (packs & pack' & E & Hc & Hf & Hl).
        { rewrite length_app. cbn. lia. }
        exists packs, pack'. rewrite E. repeat split; auto.
        rewrite Hc, <- app_assoc. reflexivity.
Qed.

(** C5.  In one pass over a finite sequence of records, the surviving
    records are gathered in packs; a pack handed to the store before the
    end of the pass has reached the bulk size of the store, the pack that
    remains is handed over once at the end, the packs taken together are
    the surviving records, each once and in order, and handing over an
    empty pack makes no call to the store. *)
Theorem feed_flushes_packs :
  forall (o : Ocean.ocean) (b : Ocean.perceval_backend)
         (from_date : option datetime) (offset : option Z)
         (items prepared : list pyval),
    Ocean.backend o = Some b ->
    (forall c, Ocean.pb_items b c = (items, None)) ->
    map_result (Ocean.prepare (Ocean.project o)) items = Ok prepared ->
    exists (packs : list (list pyval)) (o' : Ocean.ocean),
      Ocean.feed from_date offset o
      = (Ok (List.length (filter Ocean.drop_item prepared)), o')
      /\ Ocean.uploads o' = Ocean.uploads o ++ map upload_of packs
      /\ List.concat packs = filter (fun i => negb (Ocean.drop_item i)) prepared
      /\ Forall (fun p => (1 <= List.length p <= bulk_size o)%nat) packs
      /\ (forall front last,
             packs = front ++ [last] ->
             Forall (fun p => List.length p = bulk_size o) front)
      /\ (forall o1, Ocean._items_to_es [] o1 = (Ok tt, o1)).
Proof.
  intros o b from_date offset items prepared Hb Hitems Hprep.
  assert (Hm : (1 <= bulk_size o)%nat) by (unfold bulk_size; lia).
  unfold Ocean.feed. unfold bind at 1. cbn [get]. rewrite Hb.
  unfold bind at 1. unfold Ocean.get_last_update_from_es at 1.
  unfold bind at 1. cbn [get ret].
  unfold bind at 1. cbn [modify]. unfold bind at 1. cbn [modify].
  rewrite Hitems.
  match goal with
  | |- context [bind (Ocean.feed_loop items [] 0%nat) _ ?st] => set (o1 := st)
  end.
  destruct (feed_loop_packs items prepared [] 0%nat o1) as (packs & pack' & E & Hc & Hf & Hl).
  { exact Hprep. }
  { cbn. lia. }
  unfold bind at 1. rewrite E. cbn [Nat.add app] in *.
  assert (Hfull : Forall (fun p => (1 <= List.length p <= bulk_size o)%nat) packs).
  { eapply Forall_impl; [| exact Hf]. cbn. intros p Hp.
    change (bulk_size o1) with (bulk_size o) in Hp. lia. }
  destruct pack' as [| x pack'].
  - exists packs. eexists. unfold bind at 1. rewrite items_to_es_empty. cbn [ret].
    split; [reflexivity |]. split; [reflexivity |].
    rewrite app_nil_r in Hc.
    split; [exact Hc |]. split; [exact Hfull |]. split.
    + intros front last ->. apply Forall_app in Hf. exact (proj1 Hf).
    + intros o2. reflexivity.
  - exists (packs ++ [x :: pack']). eexists. unfold bind at 1.
    rewrite items_to_es_pack. cbn [ret].
    split; [reflexivity |]. split.
    { cbn [Ocean.uploads Ocean.set_uploads]. rewrite map_app, app_assoc. reflexivity. }
    split.
    { rewrite concat_app. cbn [List.concat]. rewrite app_nil_r. exact Hc. }
    split.
    { apply Forall_app. split; [exact Hfull |]. constructor; [| constructor].
      change (bulk_size o1) with (bulk_size o) in Hl. cbn [List.length] in *. lia. }
    split.
    + intros front last Heq. apply app_inj_tail in Heq. destruct Heq as [<- _].
      exact Hf.
    + intros o2. reflexivity.
Qed.

End FeedPass.

(** ** The incremental boundary *)

Section Boundary.
Context {H : Ocean.Hooks}.

Lemma same_driver_refl o : same_driver o o.
Proof. split; reflexivity. Qed.

Lemma same_driver_trans o1 o2 o3 :
  same_driver o1 o2 -> same_driver o2 o3 -> same_driver o1 o3.
Proof. intros [A B] [C D]. split; congruence. Qed.

Lemma items_to_es_same_driver pack o :
  same_driver o (snd (Ocean._items_to_es pack o)).
Proof. destruct pack; split; reflexivity. Qed.

Lemma feed_loop_same_driver items :
  forall pack drop o, same_driver o (snd (Ocean.feed_loop items pack drop o)).
Proof.
  induction items as [| item items IH]; intros pack drop o.
  - apply same_driver_refl.
  - cbn [Ocean.feed_loop]. unfold bind at 1. cbn [get].
    unfold bind at 1. unfold lift at 1.
    destruct (Ocean.prepare (Ocean.project o) item) as [it | e];
      [| apply same_driver_refl].
    unfold bind at 1.
    destruct (Z.of_nat (List.length pack) >=? Ocean.max_items_bulk o).
    + unfold bind at 1.
      pose proof (items_to_es_same_driver pack o) as Hs.
      destruct (Ocean._items_to_es pack o) as [[[] | e] o1]; cbn [snd] in *.
      * cbn [ret]. destruct (negb (Ocean.drop_item it));
          (eapply same_driver_trans; [exact Hs | apply IH]).
      * exact Hs.
    + cbn [ret]. destruct (negb (Ocean.drop_item it)); apply IH.
Qed.

Lemma later_cases a b : Ocean.later a b = a \/ Ocean.later a b = b.
Proof. unfold Ocean.later. destruct (_ <? _); auto. Qed.

Lemma later_bounds a b :
  dt_seconds a <= dt_seconds (Ocean.later a b)
  /\ dt_seconds b <= dt_seconds (Ocean.later a b).
Proof.
  unfold Ocean.later. destruct (dt_seconds a <? dt_seconds b) eqn:E.
  - apply Z.ltb_lt in E. lia.
  - apply Z.ltb_ge in E. lia.
Qed.

Lemma max_date_none l : Ocean.max_date l = None <-> l = [].
Proof.
  destruct l as [| d l]; cbn; [tauto |].
  destruct (Ocean.max_date l); split; intros E; discriminate.
Qed.

Lemma max_date_is_max l :
  forall m, Ocean.max_date l = Some m ->
    In m l /\ forall d, In d l -> dt_seconds d <= dt_seconds m.
Proof.
  induction l as [| a l IH]; intros m Hm; [discriminate |].
  cbn in Hm. destruct (Ocean.max_date l) as [m' |] eqn:El.
  - injection Hm as <-. destruct (IH m' eq_refl) as [Hin Hmax].
    pose proof (later_bounds a m') as [Ha Hm'].
    split.
    + destruct (later_cases a m') as [-> | ->]; [left; reflexivity | right; exact Hin].
    + intros d [<- | Hd]; [exact Ha |]. specialize (Hmax d Hd). lia.
  - injection Hm as <-. apply max_date_none in El. subst l.
    split; [left; reflexivity |]. intros d [<- | []]. lia.
Qed.

Lemma matching_origin origin docs d :
  In d (map snd (Ocean.matching (Some ("origin", origin)) docs))
  <-> In (origin, d) docs.
Proof.
  cbn [Ocean.matching]. rewrite in_map_iff. split.
  - intros [[o' d'] [Hd Hin]]. cbn in Hd. subst d'.
    apply filter_In in Hin. destruct Hin as [Hin Ho]. cbn in Ho.
    apply String.eqb_eq in Ho. subst o'. exact Hin.
  - intros Hin. exists (origin, d). split; [reflexivity |].
    apply filter_In. split; [exact Hin |]. cbn. apply String.eqb_refl.
Qed.

(** The boundary that the store gives for an origin is the latest update
    time of the documents of that origin, and there is none exactly when
    the origin has no document. *)
Lemma get_last_date_is_max origin docs :
  let boundary :=
    Ocean.get_last_date Ocean.get_field_date (Some ("origin", origin)) docs in
  (boundary = None <-> ~ has_document origin docs)
  /\ (forall m, boundary = Some m ->
        In (origin, m) docs
        /\ forall d, In (origin, d) docs -> dt_seconds d <= dt_seconds m).
Proof.
  cbn zeta. unfold Ocean.get_last_date. split.
  - rewrite max_date_none. split.
    + intros E [d Hd]. apply matching_origin in Hd. rewrite E in Hd. exact Hd.
    + intros Hno.
      destruct (map snd (Ocean.matching (Some ("origin", origin)) docs)) as [| d l] eqn:E;
        [reflexivity |].
      exfalso. apply Hno. exists d. apply matching_origin. rewrite E. left; reflexivity.
  - intros m Hm. apply max_date_is_max in Hm. destruct Hm as [Hin Hmax].
    split; [apply matching_origin; exact Hin |].
    intros d Hd. apply Hmax. apply matching_origin. exact Hd.
Qed.

(** What [feed] leaves in [last_update] and how it drives the connector. *)
Lemma feed_driver (o : Ocean.ocean) (b : Ocean.perceval_backend)
    (from_date : option datetime) (offset : option Z) :
  Ocean.backend o = Some b ->
  let boundary :=
    Ocean.get_last_date Ocean.get_field_date
      (Some ("origin", Ocean.pb_origin b)) (Ocean.documents o) in
  let o' := snd (Ocean.feed from_date offset o) in
  Ocean.last_update o' = boundary
  /\ Ocean.calls o'
     = Ocean.calls o ++
       [Ocean.driver_call (Ocean.fetch_cache o)
          (if negb (Ocean.fetch_has_from_date b) then None
           else match from_date with Some d => Some d | None => boundary end)
          offset].
Proof.
  intros Hb. cbn zeta.
  remember (Ocean.feed from_date offset o) as res eqn:E.
  unfold Ocean.feed in E. unfold bind at 1 in E. cbn [get] in E. rewrite Hb in E.
  unfold bind at 1 in E. unfold Ocean.get_last_update_from_es at 1 in E.
  unfold bind at 1 in E. cbn [get ret] in E.
  unfold bind at 1 in E. cbn [modify] in E. unfold bind at 1 in E. cbn [modify] in E.
  destruct (Ocean.pb_items b _) as [items failure].
  unfold bind at 1 in E.
  match type of E with
  | context [Ocean.feed_loop items [] 0%nat ?st] => set (o1 := st) in E
  end.
  pose proof (feed_loop_same_driver items [] 0%nat o1) as Hloop.
  destruct (Ocean.feed_loop items [] 0%nat o1) as [[[pack drop] | e] o2];
    cbn [snd] in Hloop.
  - destruct failure as [e |].
    + subst res. unfold raise. cbn [snd]. destruct Hloop as [-> ->].
      split; reflexivity.
    + unfold bind at 1 in E.
      pose proof (items_to_es_same_driver pack o2) as Hes.
      destruct (Ocean._items_to_es pack o2) as [[[] | e] o3]; cbn [snd] in *;
        subst res; unfold ret; cbn [snd]; destruct Hes as [-> ->];
        destruct Hloop as [-> ->]; split; reflexivity.
  - subst res. cbn [snd]. destruct Hloop as [-> ->]. split; reflexivity.
Qed.

(** C3, as the code has it.  [feed] takes as boundary the latest update
    time that the index holds for the origin of the connector, and a
    [from_date] given by the caller replaces it.  When the engine replays
    the cache the connector is driven with [fetch_from_cache], and when an
    offset is given with [fetch(offset=...)], whatever the boundary.
    Otherwise, a [fetch] whose signature has no [from_date], or a boundary
    that is absent, leads to [fetch()] with no lower bound, and a boundary
    that is present to [fetch(from_date=...)] with that boundary. *)
Theorem feed_boundary_and_driver :
  forall (o : Ocean.ocean) (b : Ocean.perceval_backend)
         (from_date : option datetime) (offset : option Z),
    Ocean.backend o = Some b ->
    let boundary :=
      Ocean.get_last_date Ocean.get_field_date
        (Some ("origin", Ocean.pb_origin b)) (Ocean.documents o) in
    let o' := snd (Ocean.feed from_date offset o) in
    Ocean.last_update o' = boundary
    /\ (boundary = None <-> ~ has_document (Ocean.pb_origin b) (Ocean.documents o))
    /\ (forall m, boundary = Some m ->
          In (Ocean.pb_origin b, m) (Ocean.documents o)
          /\ forall d, In (Ocean.pb_origin b, d) (Ocean.documents o) ->
                       dt_seconds d <= dt_seconds m)
    /\ exists call,
        Ocean.calls o' = Ocean.calls o ++ [call]
        /\ (Ocean.fetch_cache o = true -> call = Ocean.FetchFromCache)
        /\ (Ocean.fetch_cache o = false -> Ocean.offset_given offset = true ->
            call = Ocean.Fetch None offset)
        /\ (Ocean.fetch_cache o = false -> Ocean.offset_given offset = false ->
            (Ocean.fetch_has_from_date b = false -> call = Ocean.Fetch None None)
            /\ (Ocean.fetch_has_from_date b = true ->
                forall d, from_date = Some d ->
                  call = Ocean.Fetch (Some (replace_tzinfo_none d)) None)
            /\ (Ocean.fetch_has_from_date b = true -> from_date = None ->
                forall m, boundary = Some m ->
                  call = Ocean.Fetch (Some (replace_tzinfo_none m)) None)
            /\ (from_date = None -> boundary = None ->
                call = Ocean.Fetch None None)).
Proof.
  intros o b from_date offset Hb. cbn zeta.
  destruct (feed_driver o b from_date offset Hb) as [Hlast Hcalls].
  destruct (get_last_date_is_max (Ocean.pb_origin b) (Ocean.documents o)) as [Hnone Hmax].
  split; [exact Hlast |]. split; [exact Hnone |]. split; [exact Hmax |].
  eexists. split; [exact Hcalls |].
  unfold Ocean.driver_call.
  split; [intros ->; reflexivity |].
  split.
  - intros -> Hoff. rewrite Hoff.
    destruct (if negb (Ocean.fetch_has_from_date b) then None else _); reflexivity.
  - intros -> Hoff. rewrite Hoff.
    split; [intros ->; reflexivity |].
    split; [intros -> d ->; reflexivity |].
    split; [intros -> -> m ->; reflexivity |].
    intros -> ->. destruct (negb (Ocean.fetch_has_from_date b)); reflexivity.
Qed.

End Boundary.

Lemma feed_boundary_and_driver_witness :
  let o := sample_ocean (sample_backend true sample_items) false [] in
  let o' := snd (Ocean.feed (H := sample_hooks) None None o) in
  Ocean.last_update o' = Some (mk_datetime 1439404330 (Some 7200))
  /\ Ocean.calls o' = [Ocean.Fetch (Some (mk_datetime 1439404330 None)) None].
Proof.
  cbn zeta.
  pose proof (feed_boundary_and_driver (H := sample_hooks)
                (sample_ocean (sample_backend true sample_items) false [])
                (sample_backend true sample_items) None None eq_refl)
    as (Hlast & _ & _ & call & Hcalls & _ & _ & Hfetch).
  cbn zeta in *.
  destruct (Hfetch eq_refl eq_refl) as (_ & _ & Hboundary & _).
  split.
  - rewrite Hlast. vm_compute. reflexivity.
  - rewrite Hcalls.
    rewrite (Hboundary eq_refl eq_refl (mk_datetime 1439404330 (Some 7200)));
      [reflexivity | vm_compute; reflexivity].
Defined.

(** C3 as it is stated does not hold: with a [fetch] that has no
    [from_date] parameter, an engine that replays the cache does not run a
    full fetch, it calls [fetch_from_cache]. *)
Lemma feed_without_from_date_not_always_full_fetch :
  ~ (forall (H : Ocean.Hooks) (o : Ocean.ocean) (b : Ocean.perceval_backend)
            (from_date : option datetime) (offset : option Z),
        Ocean.backend o = Some b ->
        Ocean.fetch_has_from_date b = false ->
        Ocean.calls (snd (Ocean.feed from_date offset o))
        = Ocean.calls o ++ [Ocean.Fetch None None]).
Proof.
  intros Hclaim.
  specialize (Hclaim sample_hooks
                (sample_ocean (sample_backend false sample_items) true [])
                (sample_backend false sample_items) None None eq_refl eq_refl).
  vm_compute in Hclaim. discriminate Hclaim.
Qed.

Lemma feed_flushes_packs_witness :
  let o := sample_ocean (sample_backend true sample_items) false [] in
  exists (packs : list (list pyval)) (o' : Ocean.ocean),
    Ocean.feed (H := sample_hooks) None None o = (Ok 1%nat, o')
    /\ Ocean.uploads o' = map upload_of packs
    /\ List.concat packs
       = filter (fun i => negb (Ocean.drop_item (Hooks := sample_hooks) i)) sample_prepared
    /\ Forall (fun p => (1 <= List.length p <= 2)%nat) packs.
Proof.
  cbn zeta.
  destruct (feed_flushes_packs (H := sample_hooks)
              (sample_ocean (sample_backend true sample_items) false [])
              (sample_backend true sample_items) None None
              sample_items sample_prepared eq_refl (fun _ => eq_refl) eq_refl)
    as (packs & o' & Hfeed & Hup & Hconcat & Hsize & _).
  exists packs, o'. repeat split; assumption.
Defined.

(** ** The read-back path *)

Section ReadBack.

(** When the body of the answer is not JSON, [_get_elastic_items] logs
    its warnings and then raises [UnboundLocalError], because the [except]
    branch leaves [rjson] unbound; when the store cannot be reached, the
    exception of [post] reaches the caller. *)
Lemma get_elastic_items_raises_on_bad_answer :
  forall (o : Ocean.ocean) (rest : list Ocean.es_response),
    (forall body,
        Ocean.es_server o = Ocean.Answer (Ocean.mk_answer body None) :: rest ->
        exists o',
          Ocean._get_elastic_items o = (Raise (UnboundLocalError "rjson"), o')
          /\ Ocean.warnings o'
             = Ocean.warnings o
               ++ [String.append "No JSON found in " body; "No results found"])
    /\ (Ocean.es_server o = Ocean.Unreachable :: rest ->
        exists o',
          Ocean._get_elastic_items o = (Raise ConnectionError, o')
          /\ Ocean.warnings o' = Ocean.warnings o).
Proof.
  intros o rest. split.
  - intros body Hs. unfold Ocean._get_elastic_items.
    unfold bind at 1. cbn [get]. unfold bind at 1.
    destruct (truthy (Ocean.elastic_scroll_id o));
      unfold Ocean.post; unfold bind at 1; cbn [modify];
      unfold bind at 1; cbn [get Ocean.es_server Ocean.set_es_posts]; rewrite Hs;
      unfold bind at 1; cbn [modify]; unfold ret at 1;
      cbn [Ocean.json Ocean.text];
      unfold bind at 1; unfold bind at 1; unfold Ocean.warning at 1; cbn [modify];
      unfold bind at 1; unfold Ocean.warning at 1; cbn [modify]; unfold ret at 1;
      unfold bind at 1; cbn [Ocean.bound_and_has]; unfold raise at 1;
      eexists; (split; [reflexivity |]);
      cbn [Ocean.warnings Ocean.set_warnings Ocean.set_es_server Ocean.set_es_posts];
      rewrite <- app_assoc; reflexivity.
  - intros Hs. unfold Ocean._get_elastic_items.
    unfold bind at 1. cbn [get]. unfold bind at 1.
    destruct (truthy (Ocean.elastic_scroll_id o));
      unfold Ocean.post; unfold bind at 1; cbn [modify];
      unfold bind at 1; cbn [get Ocean.es_server Ocean.set_es_posts]; rewrite Hs;
      unfold bind at 1; cbn [modify]; unfold raise at 1;
      eexists; (split; [reflexivity |]); reflexivity.
Qed.

Lemma sources_of_hits (page : list pyval) :
  map_result (fun hit => getitem hit "_source") (map Ocean.hit page) = Ok page.
Proof.
  induction page as [| d page IH]; [reflexivity |].
  cbn [map map_result]. rewrite IH. reflexivity.
Qed.

(** A page request answered with a page and a token. *)
Lemma get_elastic_items_page (o : Ocean.ocean) token page rest :
  Ocean.es_server o = Ocean.page_answer token page :: rest ->
  exists o',
    Ocean._get_elastic_items o = (Ok page, o')
    /\ Ocean.es_server o' = rest
    /\ Ocean.elastic_scroll_id o' = token
    /\ Ocean.iter_items o' = Ocean.iter_items o
    /\ List.length (Ocean.es_posts o') = S (List.length (Ocean.es_posts o)).
Proof.
  intros Hs. unfold Ocean._get_elastic_items.
  unfold bind at 1. cbn [get]. unfold bind at 1.
  destruct (truthy (Ocean.elastic_scroll_id o));
    unfold Ocean.post; unfold bind at 1; cbn [modify];
    unfold bind at 1; cbn [get Ocean.es_server Ocean.set_es_posts]; rewrite Hs;
    unfold Ocean.page_answer;
    unfold bind at 1; cbn [modify]; unfold ret at 1;
    cbn [Ocean.json Ocean.text];
    unfold bind at 1; unfold ret at 1;
    unfold bind at 1; cbn;
    rewrite sources_of_hits;
    eexists; (split; [reflexivity |]);
    cbn; rewrite length_app; cbn; repeat split; lia.
Qed.

(** [__next__] on a buffer that holds documents: the last one leaves. *)
Lemma next_pops (o : Ocean.ocean) front x :
  Ocean.iter_items o = front ++ [x] ->
  Ocean.__next__ o = (Ok x, Ocean.set_iter_items front o).
Proof.
  intros Hb. unfold Ocean.__next__. cbn [Ocean.next_].
  unfold bind at 1. cbn [get]. rewrite Hb, rev_app_distr. cbn [rev app].
  unfold bind at 1. cbn [modify]. rewrite rev_involutive. reflexivity.
Qed.

(** [__next__] on an empty buffer without a token. *)
Lemma next_stops_without_token (o : Ocean.ocean) :
  Ocean.iter_items o = [] ->
  truthy (Ocean.elastic_scroll_id o) = false ->
  Ocean.__next__ o = (Raise StopIteration, o).
Proof.
  intros Hb Ht. unfold Ocean.__next__. cbn [Ocean.next_].
  unfold bind at 1. cbn [get]. rewrite Hb. cbn [rev]. rewrite Ht.
  unfold bind at 1. unfold ret at 1. unfold bind at 1. cbn [get]. rewrite Hb.
  reflexivity.
Qed.

(** [__next__] on an empty buffer with a token: the buffer is filled
    again from the cursor, and the iteration stops if the page is empty. *)
Lemma next_refills (o o1 : Ocean.ocean) page :
  Ocean.iter_items o = [] ->
  truthy (Ocean.elastic_scroll_id o) = true ->
  Ocean._get_elastic_items o = (Ok page, o1) ->
  Ocean.__next__ o
  = match rev page with
    | [] => (Raise StopIteration, Ocean.set_iter_items [] o1)
    | x :: front => (Ok x, Ocean.set_iter_items (rev front) o1)
    end.
Proof.
  intros Hb Ht Hg. unfold Ocean.__next__. cbn [Ocean.next_].
  unfold bind at 1. cbn [get]. rewrite Hb. cbn [rev]. rewrite Ht.
  unfold bind at 1. unfold bind at 1. rewrite Hg. cbn [modify].
  unfold bind at 1. cbn [get Ocean.iter_items Ocean.set_iter_items].
  destruct page as [| y page]; [reflexivity |].
  unfold bind at 1. cbn [get Ocean.iter_items Ocean.set_iter_items].
  destruct (rev (y :: page)) as [| x front] eqn:Hr.
  - apply (f_equal (@List.length pyval)) in Hr. rewrite length_rev in Hr. discriminate.
  - unfold bind at 1. cbn [modify]. reflexivity.
Qed.

(** As many calls of [__next__] as the buffer holds documents give the
    documents of the buffer from the last to the first, without any
    request to the store. *)
Lemma take_buffer (page : list pyval) :
  forall o, Ocean.iter_items o = page ->
    Ocean.take (List.length page) o = (Ok (rev page), Ocean.set_iter_items [] o).
Proof.
  induction page as [| x front IH] using rev_ind; intros o Hb.
  - cbn. destruct o; cbn in *. subst. reflexivity.
  - rewrite length_app, Nat.add_comm. cbn [List.length Nat.add Ocean.take].
    unfold bind at 1. rewrite (next_pops o front x Hb).
    unfold bind at 1. rewrite (IH (Ocean.set_iter_items front o) eq_refl).
    rewrite rev_app_distr. reflexivity.
Qed.

Lemma descending_snoc key l x :
  descending key l -> Forall (fun a => key x <= key a) l -> descending key (l ++ [x]).
Proof.
  unfold descending. induction l as [| a l IH]; intros Hs Hx.
  - repeat constructor.
  - apply StronglySorted_inv in Hs. destruct Hs as [Hs Ha].
    inversion Hx as [| ? ? Hxa Hxl]; subst.
    cbn [app]. constructor.
    + apply IH; assumption.
    + apply Forall_app. split; [exact Ha |]. constructor; [exact Hxa | constructor].
Qed.

Lemma ascending_rev key l : ascending key l -> descending key (rev l).
Proof.
  unfold ascending. induction 1 as [| a l Hs IH Ha]; [constructor |].
  cbn [rev]. apply descending_snoc; [exact IH |].
  apply Forall_rev. exact Ha.
Qed.

(** C10.  A page that the iterator has buffered reaches the consumer in
    the reverse of the order in which the store gave it, since [__next__]
    pops its documents from the end of the buffer.  This holds for a page
    that is in the buffer and for a page that the next call fetches from
    the cursor; hence a page that the store gave in ascending order of the
    update date reaches the consumer in descending order. *)
Theorem next_yields_page_in_reverse :
  forall (o : Ocean.ocean) (page : list pyval),
    page <> [] ->
    (Ocean.iter_items o = page ->
       Ocean.take (List.length page) o = (Ok (rev page), Ocean.set_iter_items [] o))
    /\ (forall token rest,
          Ocean.iter_items o = [] ->
          truthy (Ocean.elastic_scroll_id o) = true ->
          Ocean.es_server o = Ocean.page_answer token page :: rest ->
          exists o',
            Ocean.take (List.length page) o = (Ok (rev page), o')
            /\ Ocean.es_server o' = rest)
    /\ (forall key, ascending key page -> descending key (rev page)).
Proof.
  intros o page Hne. split; [| split].
  - apply take_buffer.
  - intros token rest Hb Ht Hs.
    destruct (get_elastic_items_page o token page rest Hs)
      as (o1 & Hg & Hrest & _ & _ & _).
    pose proof (next_refills o o1 page Hb Ht Hg) as Hn.
    destruct (rev page) as [| x front] eqn:Hr.
    { apply (f_equal (@rev pyval)) in Hr. rewrite rev_involutive in Hr.
      contradiction. }
    assert (Hlen : List.length page = S (List.length (rev front))).
    { rewrite <- (length_rev page), Hr, length_rev. reflexivity. }
    rewrite Hlen. cbn [Ocean.take]. unfold bind at 1. rewrite Hn.
    unfold bind at 1.
    rewrite (take_buffer (rev front) (Ocean.set_iter_items (rev front) o1) eq_refl).
    rewrite rev_involutive. eexists. split; [reflexivity |]. exact Hrest.
  - intros key. apply ascending_rev.
Qed.

Lemma iterate_buffer (buffer : list pyval) :
  forall o fuel,
    Ocean.iter_items o = buffer ->
    Ocean.iterate (List.length buffer + fuel) o
    = match Ocean.iterate fuel (Ocean.set_iter_items [] o) with
      | (Ok ys, o') => (Ok (rev buffer ++ ys), o')
      | (Raise e, o') => (Raise e, o')
      end.
Proof.
  induction buffer as [| x front IH] using rev_ind; intros o fuel Hb.
  - cbn [List.length Nat.add rev app].
    replace (Ocean.set_iter_items [] o) with o by (destruct o; cbn in *; subst; reflexivity).
    destruct (Ocean.iterate fuel o) as [[ys | e] o']; reflexivity.
  - rewrite length_app, (Nat.add_comm (List.length front)). cbn [List.length Nat.add].
    cbn [Ocean.iterate]. rewrite (next_pops o front x Hb).
    rewrite (IH (Ocean.set_iter_items front o) fuel eq_refl).
    change (Ocean.set_iter_items [] (Ocean.set_iter_items front o))
      with (Ocean.set_iter_items [] o).
    rewrite rev_app_distr. cbn [rev app].
    destruct (Ocean.iterate fuel (Ocean.set_iter_items [] o)) as [[ys | e] o']; reflexivity.
Qed.

Lemma iterate_pages token rest (ps : list (list pyval)) :
  truthy token = true ->
  Forall (fun p => p <> []) ps ->
  forall o fuel,
    Ocean.iter_items o = [] ->
    Ocean.elastic_scroll_id o = token ->
    Ocean.es_server o
    = map (Ocean.page_answer token) ps ++ [Ocean.page_answer token []] ++ rest ->
    (List.length (List.concat ps) < fuel)%nat ->
    exists o',
      Ocean.iterate fuel o = (Ok (List.concat (map (@rev pyval) ps)), o')
      /\ Ocean.es_server o' = rest
      /\ Ocean.iter_items o' = []
      /\ List.length (Ocean.es_posts o')
         = (List.length (Ocean.es_posts o) + List.length ps + 1)%nat.
Proof.
  intros Htok Hne. induction Hne as [| p ps Hp Hps IH]; intros o fuel Hb Hid Hs Hfuel.
  - cbn [map app] in Hs.
    destruct (get_elastic_items_page o token [] rest Hs) as (o1 & Hg & Hr & _ & _ & Hposts).
    destruct fuel as [| fuel]; [cbn in Hfuel; lia |].
    cbn [Ocean.iterate].
    rewrite (next_refills o o1 [] Hb (eq_trans (f_equal truthy Hid) Htok) Hg).
    cbn [rev]. eexists. split; [reflexivity |].
    cbn. repeat split; try assumption. lia.
  - cbn [map app] in Hs.
    destruct (get_elastic_items_page o token p _ Hs) as (o1 & Hg & Hr & Hid1 & _ & Hposts).
    pose proof (next_refills o o1 p Hb (eq_trans (f_equal truthy Hid) Htok) Hg) as Hn.
    destruct (rev p) as [| x front] eqn:Hrev.
    { apply (f_equal (@rev pyval)) in Hrev. rewrite rev_involutive in Hrev.
      contradiction. }
    assert (Hlen : List.length p = S (List.length (rev front))).
    { rewrite <- (length_rev p), Hrev, length_rev. reflexivity. }
    cbn [List.concat] in Hfuel. rewrite length_app, Hlen in Hfuel.
    destruct fuel as [| fuel]; [lia |].
    cbn [Ocean.iterate]. rewrite Hn.
    replace fuel
      with (List.length (rev front) + (fuel - List.length (rev front)))%nat by lia.
    rewrite (iterate_buffer (rev front) (Ocean.set_iter_items (rev front) o1) _ eq_refl).
    destruct (IH (Ocean.set_iter_items [] (Ocean.set_iter_items (rev front) o1))
                 (fuel - List.length (rev front))%nat)
      as (o' & Hit & Hrest & Hbuf & Hcount).
    + reflexivity.
    + exact Hid1.
    + exact Hr.
    + lia.
    + rewrite Hit. exists o'. split.
      * cbn [map List.concat]. rewrite Hrev, rev_involutive. reflexivity.
      * split; [exact Hrest |]. split; [exact Hbuf |].
        rewrite Hcount. cbn [Ocean.es_posts Ocean.set_iter_items List.length].
        rewrite Hposts. lia.
Qed.

Lemma pages_cover (size : nat) :
  (1 <= size)%nat ->
  forall fuel docs,
    (List.length docs <= fuel)%nat ->
    List.concat (Ocean.pages fuel size docs) = docs
    /\ Forall (fun p => p <> []) (Ocean.pages fuel size docs).
Proof.
  intros Hsize. induction fuel as [| fuel IH]; intros docs Hlen.
  - destruct docs; [split; [reflexivity | constructor] | cbn in Hlen; lia].
  - destruct docs as [| d docs]; [split; [reflexivity | constructor] |].
    cbn [Ocean.pages].
    destruct (IH (skipn size (d :: docs))) as [Hc Hne].
    { rewrite length_skipn. cbn [List.length] in *. lia. }
    split.
    + cbn [List.concat]. rewrite Hc. apply firstn_skipn.
    + constructor; [| exact Hne].
      destruct size as [| size]; [lia |]. cbn. discriminate.
Qed.

Lemma reversed_pages_permutation (ps : list (list pyval)) :
  Permutation (List.concat (map (@rev pyval) ps)) (List.concat ps).
Proof.
  induction ps as [| p ps IH]; [constructor |].
  cbn [map List.concat]. apply Permutation_app; [| exact IH].
  apply Permutation_sym, Permutation_rev.
Qed.

(** C9.  Over a store that holds [E] documents and serves them in pages
    of any size from 1 on (in particular of any size up to [E]), the
    iteration yields [E] documents, those of the store, and then stops:
    it makes one request per page and one more that finds the cursor
    exhausted.  The iterator yields from its buffer as long as the buffer
    holds a document; on an empty buffer it stops without a request when
    no cursor token remains, and otherwise fills the buffer again from the
    cursor and stops when that page is empty. *)
Theorem read_back_yields_every_document :
  (forall (o : Ocean.ocean) (docs : list pyval) (size : nat) (token : pyval)
          (rest : list Ocean.es_response),
      (1 <= size)%nat ->
      docs <> [] ->
      truthy token = true ->
      Ocean.es_server o = Ocean.scan size token docs ++ rest ->
      forall fuel, (List.length docs < fuel)%nat ->
      exists ys o',
        Ocean.for_in fuel o = (Ok ys, o')
        /\ List.length ys = List.length docs
        /\ Permutation ys docs
        /\ ys = List.concat (map (@rev pyval) (Ocean.pages (List.length docs) size docs))
        /\ Ocean.iter_items o' = []
        /\ Ocean.es_server o' = rest
        /\ List.length (Ocean.es_posts o')
           = (List.length (Ocean.es_posts o)
              + List.length (Ocean.pages (List.length docs) size docs) + 1)%nat)
  /\ (forall o front x,
        Ocean.iter_items o = front ++ [x] ->
        Ocean.__next__ o = (Ok x, Ocean.set_iter_items front o))
  /\ (forall o,
        Ocean.iter_items o = [] ->
        truthy (Ocean.elastic_scroll_id o) = false ->
        Ocean.__next__ o = (Raise StopIteration, o))
  /\ (forall o o1,
        Ocean.iter_items o = [] ->
        truthy (Ocean.elastic_scroll_id o) = true ->
        Ocean._get_elastic_items o = (Ok [], o1) ->
        Ocean.__next__ o = (Raise StopIteration, Ocean.set_iter_items [] o1))
  /\ (forall o o1 front x,
        Ocean.iter_items o = [] ->
        truthy (Ocean.elastic_scroll_id o) = true ->
        Ocean._get_elastic_items o = (Ok (front ++ [x]), o1) ->
        Ocean.__next__ o = (Ok x, Ocean.set_iter_items front o1)).
Proof.
  split; [| split; [| split; [| split]]].
  - intros o docs size token rest Hsize Hdocs Htok Hs fuel Hfuel.
    destruct (pages_cover size Hsize (List.length docs) docs (le_n _)) as [Hcover Hne].
    unfold Ocean.scan in Hs.
    destruct (Ocean.pages (List.length docs) size docs) as [| p ps] eqn:Hpages.
    { cbn in Hcover. congruence. }
    cbn [map app] in Hs. rewrite <- app_assoc in Hs.
    apply Forall_cons_iff in Hne. destruct Hne as [Hp Hps].
    unfold Ocean.for_in, Ocean.__iter__.
    unfold bind at 1. unfold bind at 1. cbn [modify]. unfold bind at 1. cbn [modify].
    unfold bind at 1.
    match goal with
    | |- context [Ocean._get_elastic_items ?st] => set (o0 := st)
    end.
    destruct (get_elastic_items_page o0 token p _ Hs) as (o1 & Hg & Hr & Hid1 & _ & Hposts).
    rewrite Hg. cbn [modify].
    cbn [List.concat] in Hcover.
    assert (Hlen : List.length docs = (List.length p + List.length (List.concat ps))%nat).
    { rewrite <- Hcover at 1. apply length_app. }
    replace fuel with (List.length p + (fuel - List.length p))%nat by lia.
    rewrite (iterate_buffer p (Ocean.set_iter_items p o1) _ eq_refl).
    destruct (iterate_pages token rest ps Htok Hps
                (Ocean.set_iter_items [] (Ocean.set_iter_items p o1))
                (fuel - List.length p)%nat)
      as (o' & Hit & Hrest & Hbuf & Hcount).
    + reflexivity.
    + exact Hid1.
    + exact Hr.
    + lia.
    + rewrite Hit. eexists. exists o'. split; [reflexivity |].
      assert (Hperm : Permutation (rev p ++ List.concat (map (@rev pyval) ps)) docs).
      { rewrite <- Hcover. apply Permutation_app.
        - apply Permutation_sym, Permutation_rev.
        - apply reversed_pages_permutation. }
      split; [apply Permutation_length; exact Hperm |].
      split; [exact Hperm |].
      split; [reflexivity |].
      split; [exact Hbuf |]. split; [exact Hrest |].
      rewrite Hcount. cbn [Ocean.es_posts Ocean.set_iter_items List.length].
      rewrite Hposts. subst o0. cbn [Ocean.es_posts Ocean.set_elastic_page
        Ocean.set_elastic_scroll_id]. lia.
  - exact next_pops.
  - exact next_stops_without_token.
  - intros o o1 Hb Ht Hg. exact (next_refills o o1 [] Hb Ht Hg).
  - intros o o1 front x Hb Ht Hg.
    rewrite (next_refills o o1 (front ++ [x]) Hb Ht Hg).
    rewrite rev_app_distr. cbn [rev app]. rewrite rev_involutive. reflexivity.
Qed.

End ReadBack.


(** C6 as it is stated does not hold: in front of a store that cannot be
    reached, and in front of a body that is not JSON, [_get_elastic_items]
    raises and returns no list. *)
Lemma get_elastic_items_raises :
  fst (Ocean._get_elastic_items unreachable_ocean) = Raise ConnectionError
  /\ fst (Ocean._get_elastic_items not_json_ocean) = Raise (UnboundLocalError "rjson").
Proof.
  destruct (get_elastic_items_raises_on_bad_answer not_json_ocean []) as [Hbad _].
  destruct (get_elastic_items_raises_on_bad_answer unreachable_ocean []) as [_ Hdown].
  destruct (Hbad _ eq_refl) as (o1 & -> & _).
  destruct (Hdown eq_refl) as (o2 & -> & _).
  split; reflexivity.
Qed.

(** C6, as the code has it.  When the answer is a JSON object without
    ["hits"], [_get_elastic_items] logs a warning and returns an empty
    list, and keeps as scroll token the one that the object carries, if
    any; when the store cannot be reached, the exception of the HTTP
    client reaches the caller and nothing is logged. *)
Theorem get_elastic_items_without_hits :
  forall (o : Ocean.ocean) (rest : list Ocean.es_response),
    (forall body d,
        Ocean.es_server o
        = Ocean.Answer (Ocean.mk_answer body (Some (PDict d))) :: rest ->
        assoc "hits" d = None ->
        exists o',
          Ocean._get_elastic_items o = (Ok [], o')
          /\ Ocean.warnings o' = Ocean.warnings o ++ ["No results found"]
          /\ Ocean.elastic_scroll_id o'
             = match assoc "_scroll_id" d with
               | Some id => id
               | None => PNone
               end
          /\ Ocean.es_server o' = rest)
    /\ (Ocean.es_server o = Ocean.Unreachable :: rest ->
        exists o',
          Ocean._get_elastic_items o = (Raise ConnectionError, o')
          /\ Ocean.warnings o' = Ocean.warnings o).
Proof.
  intros o rest. split.
  - intros body d Hs Hhits. unfold Ocean._get_elastic_items.
    unfold bind at 1. cbn [get]. unfold bind at 1.
    assert (Hpost : forall u data,
               Ocean.post u data o
               = (Ok (Ocean.mk_answer body (Some (PDict d))),
                  Ocean.set_es_server rest
                    (Ocean.set_es_posts (Ocean.es_posts o ++ [(u, data)]) o))).
    { intros u data. unfold Ocean.post. unfold bind at 1. cbn [modify].
      unfold bind at 1. cbn [get Ocean.es_server Ocean.set_es_posts]. rewrite Hs.
      unfold bind at 1. cbn [modify]. reflexivity. }
    destruct (truthy (Ocean.elastic_scroll_id o)); rewrite Hpost;
      cbn [Ocean.json]; unfold bind at 1; unfold ret at 1;
      unfold bind at 1; cbn [Ocean.bound_and_has truthy];
      (destruct d as [| kv d];
       [ unfold ret at 1; unfold bind at 1; cbn [modify];
         unfold bind at 1; cbn [Ocean.bound_and_has truthy]; unfold ret at 1;
         unfold bind at 1; unfold Ocean.warning; cbn [modify]; unfold ret;
         eexists; split; [reflexivity |]; cbn; repeat split
       | unfold lift at 1; cbn [Ocean.contains];
         destruct (assoc "_scroll_id" (kv :: d)) as [id |] eqn:Hid;
         unfold bind at 1;
         [ unfold bind at 1; unfold lift at 1; cbn [getitem]; rewrite Hid |];
         cbn [modify];
         unfold bind at 1; cbn [Ocean.bound_and_has truthy]; unfold lift at 1;
         cbn [Ocean.contains]; rewrite Hhits;
         unfold bind at 1; unfold Ocean.warning; cbn [modify]; unfold ret;
         eexists; (split; [reflexivity |]); cbn; repeat split ]).
  - apply (get_elastic_items_raises_on_bad_answer o rest).
Qed.

Lemma get_elastic_items_without_hits_witness :
  let o := sample_ocean (sample_backend true []) false
             [Ocean.Answer (Ocean.mk_answer "{}"
                (Some (PDict [("error", PStr "index_not_found_exception")])))] in
  fst (Ocean._get_elastic_items o) = Ok []
  /\ Ocean.warnings (snd (Ocean._get_elastic_items o)) = ["No results found"]
  /\ fst (Ocean._get_elastic_items unreachable_ocean) = Raise ConnectionError.
Proof.
  cbn zeta.
  destruct (get_elastic_items_without_hits
              (sample_ocean (sample_backend true []) false
                 [Ocean.Answer (Ocean.mk_answer "{}"
                    (Some (PDict [("error", PStr "index_not_found_exception")])))])
              []) as [Hempty _].
  destruct (get_elastic_items_without_hits unreachable_ocean []) as [_ Hdown].
  destruct (Hempty _ _ eq_refl eq_refl) as (o1 & -> & Hw & _).
  destruct (Hdown eq_refl) as (o2 & -> & _).
  cbn [fst snd]. rewrite Hw. repeat split.
Defined.

Lemma next_on_buffer (o : Ocean.ocean) (n : nat) :
  Ocean.iter_items o <> [] -> Ocean.next_ (S n) o = Ocean.next_ 1 o.
Proof.
  intros Hne. cbn [Ocean.next_]. unfold bind, get.
  destruct (rev (Ocean.iter_items o)) as [| x front] eqn:Hr; [| reflexivity].
  apply (f_equal (@rev pyval)) in Hr. rewrite rev_involutive in Hr. contradiction.
Qed.

(** The calls of [__next__] nest no deeper than two: a larger bound than
    the one in [__next__] changes nothing. *)
Lemma next_depth (o : Ocean.ocean) (n : nat) :
  Ocean.next_ (S (S n)) o = Ocean.__next__ o.
Proof.
  unfold Ocean.__next__.
  change (Ocean.next_ (S (S n)) o)
    with ((o <- get ;;
            match rev (Ocean.iter_items o) with
            | x :: front => modify (Ocean.set_iter_items (rev front)) ;; ret x
            | [] =>
                (if truthy (Ocean.elastic_scroll_id o)
                 then items <- Ocean._get_elastic_items ;;
                      modify (Ocean.set_iter_items items)
                 else ret tt) ;;
                o <- get ;;
                match Ocean.iter_items o with
                | _ :: _ => Ocean.next_ (S n)
                | [] => raise StopIteration
                end
            end) o).
  change (Ocean.next_ 2 o)
    with ((o <- get ;;
            match rev (Ocean.iter_items o) with
            | x :: front => modify (Ocean.set_iter_items (rev front)) ;; ret x
            | [] =>
                (if truthy (Ocean.elastic_scroll_id o)
                 then items <- Ocean._get_elastic_items ;;
                      modify (Ocean.set_iter_items items)
                 else ret tt) ;;
                o <- get ;;
                match Ocean.iter_items o with
                | _ :: _ => Ocean.next_ 1
                | [] => raise StopIteration
                end
            end) o).
  unfold bind, get.
  destruct (rev (Ocean.iter_items o)) as [| x front] eqn:Hr; [| reflexivity].
  destruct (truthy (Ocean.elastic_scroll_id o)).
  - destruct (Ocean._get_elastic_items o) as [[items | e] o1]; [| reflexivity].
    unfold modify. cbn [Ocean.iter_items Ocean.set_iter_items].
    destruct items as [| y l]; [reflexivity |].
    apply next_on_buffer. cbn. discriminate.
  - unfold ret. destruct (Ocean.iter_items o) as [| y l] eqn:Hb; [reflexivity |].
    apply next_on_buffer. rewrite Hb. discriminate.
Qed.

Lemma read_back_yields_every_document_witness :
  exists ys o',
    Ocean.for_in 4 three_pages_ocean = (Ok ys, o')
    /\ List.length ys = 3%nat
    /\ Permutation ys three_docs
    /\ List.length (Ocean.es_posts o') = 4%nat.
Proof.
  destruct read_back_yields_every_document as [Hall _].
  destruct (Hall three_pages_ocean three_docs 1%nat (PStr "c2Nhbjs") [])
    with (fuel := 4%nat) as (ys & o' & Hrun & Hlen & Hperm & _ & _ & _ & Hposts).
  - apply le_n.
  - discriminate.
  - reflexivity.
  - cbn. reflexivity.
  - cbn. apply le_n.
  - exists ys, o'. repeat split; assumption.
Defined.

Lemma next_yields_page_in_reverse_witness :
  Ocean.take 2 buffered_ocean
    = (Ok [PInt 2; PInt 1], Ocean.set_iter_items [] buffered_ocean)
  /\ descending int_key [PInt 2; PInt 1].
Proof.
  destruct (next_yields_page_in_reverse buffered_ocean [PInt 1; PInt 2])
    as (Hbuf & _ & Hsort).
  - discriminate.
  - split.
    + apply Hbuf. reflexivity.
    + apply (Hsort int_key). unfold ascending.
      repeat constructor; cbn; lia.
Defined.

(** ** The Bugzilla connector: enumeration of the bug list *)

Section BugList.
Context {P : Bugzilla.Parsers}.

Lemma client_only_refl st : client_only st st.
Proof. repeat split. Qed.

Lemma client_only_trans st1 st2 st3 :
  client_only st1 st2 -> client_only st2 st3 -> client_only st1 st3.
Proof.
  unfold client_only. intros (A1 & A2 & A3 & A4 & A5 & A6 & A7)
    (B1 & B2 & B3 & B4 & B5 & B6 & B7).
  repeat split; congruence.
Qed.

(** A call answered with a body. *)
Lemma call_body (cgi : string) params (st : Bugzilla.bugzilla) body rest :
  Bugzilla.responses st = Bugzilla.Body body :: rest ->
  exists st',
    Bugzilla.call cgi params st = (Ok body, st')
    /\ Bugzilla.requests st' = Bugzilla.requests st ++ [Bugzilla.mk_request cgi params]
    /\ Bugzilla.responses st' = rest
    /\ Bugzilla.version st' = Bugzilla.version st
    /\ client_only st st'.
Proof.
  intros Hr. unfold Bugzilla.call. unfold bind at 1. cbn [modify].
  unfold bind at 1. cbn [get Bugzilla.responses Bugzilla.set_requests]. rewrite Hr.
  unfold bind at 1. cbn [modify]. unfold ret.
  eexists. split; [reflexivity |]. repeat split.
Qed.

Lemma version_known_some (v : string) :
  v <> "" -> Bugzilla.version_known (Some v) = true.
Proof.
  intros Hv. cbn. destruct (String.eqb_spec v ""); [contradiction | reflexivity].
Qed.

(** One page query, the version of the server being known or asked for
    first. *)
Lemma fetch_page_answered (st : Bugzilla.bugzilla) v hreqs hresps d body rest :
  handshake st v hreqs hresps ->
  v <> "" ->
  Bugzilla.responses st = hresps ++ Bugzilla.Body body :: rest ->
  exists st',
    Bugzilla.__fetch_and_parse_buglist_page d st
    = (Ok (Bugzilla.csv_dict_reader body), st')
    /\ Bugzilla.requests st'
       = Bugzilla.requests st ++ hreqs ++ [buglist_request (order_of v) d]
    /\ Bugzilla.responses st' = rest
    /\ Bugzilla.version st' = Some v
    /\ client_only st st'.
Proof.
  intros Hh Hv Hr.
  unfold Bugzilla.__fetch_and_parse_buglist_page, Bugzilla.client_buglist.
  unfold bind at 1. unfold bind at 1. cbn [get]. unfold bind at 1.
  destruct Hh as [(Hver & -> & ->) | (Hunk & m & Hm & -> & ->)].
  - rewrite Hver, (version_known_some v Hv). unfold ret at 1.
    unfold bind at 1. cbn [get]. rewrite Hver.
    cbn [app] in Hr.
    destruct (call_body Bugzilla.CGI_BUGLIST
                [("chfieldfrom", PStr (Bugzilla.strftime d)); ("ctype", PStr "csv");
                 ("order", PStr (order_of v))] st body rest Hr)
      as (st' & Hc & Hq & Hs & Hv' & Hf).
    unfold order_of in Hc. rewrite Hc. unfold ret.
    exists st'. split; [reflexivity |]. split; [exact Hq |].
    split; [exact Hs |]. split; [congruence | exact Hf].
  - rewrite Hunk. cbn [app] in Hr.
    unfold bind at 1. unfold Bugzilla.__fetch_version. unfold bind at 1.
    destruct (call_body Bugzilla.CGI_BUG [("ctype", PStr "xml")] st m _ Hr)
      as (st1 & Hc1 & Hq1 & Hs1 & Hv1 & Hf1).
    unfold Bugzilla.client_metadata. rewrite Hc1, Hm. unfold ret at 1.
    cbn [modify].
    unfold bind at 1. cbn [get Bugzilla.version Bugzilla.set_version].
    destruct (call_body Bugzilla.CGI_BUGLIST
                [("chfieldfrom", PStr (Bugzilla.strftime d)); ("ctype", PStr "csv");
                 ("order", PStr (order_of v))]
                (Bugzilla.set_version (Some v) st1) body rest Hs1)
      as (st' & Hc & Hq & Hs & Hv' & Hf).
    unfold order_of in Hc. rewrite Hc. unfold ret.
    exists st'. split; [reflexivity |]. split.
    { rewrite Hq. cbn [Bugzilla.requests Bugzilla.set_version]. rewrite Hq1.
      rewrite <- app_assoc. reflexivity. }
    split; [exact Hs |]. split; [exact Hv' |].
    eapply client_only_trans; [exact Hf1 |].
    eapply client_only_trans; [| exact Hf]. repeat split.
Qed.

Lemma loop_nil (fuel : nat) :
  Bugzilla.fetch_buglist_loop (S fuel) [] = ret [].
Proof. reflexivity. Qed.

Lemma loop_last (fuel : nat) (bug : pyval) :
  Bugzilla.fetch_buglist_loop (S fuel) [bug]
  = (last_date <- lift (getitem bug "changeddate") ;;
     from_date <- lift (Bugzilla.str_to_datetime last_date) ;;
     buglist <- Bugzilla.__fetch_and_parse_buglist_page (add_seconds from_date 1) ;;
     tail <- Bugzilla.fetch_buglist_loop fuel buglist ;;
     ret (bug :: tail)).
Proof. reflexivity. Qed.

Lemma loop_more (fuel : nat) (bug next : pyval) (buglist : list pyval) :
  Bugzilla.fetch_buglist_loop (S fuel) (bug :: next :: buglist)
  = (last_date <- lift (getitem bug "changeddate") ;;
     tail <- Bugzilla.fetch_buglist_loop (S fuel) (next :: buglist) ;;
     ret (bug :: tail)).
Proof. reflexivity. Qed.




End BugList.


(** ** The Bugzilla connector: the detail stage *)

Section DetailStage.
Context {P : Bugzilla.Parsers}.

Lemma same_setup_refl st : same_setup st st.
Proof. repeat split. Qed.

Lemma same_setup_trans st1 st2 st3 :
  same_setup st1 st2 -> same_setup st2 st3 -> same_setup st1 st3.
Proof.
  unfold same_setup. intros (A1 & A2 & A3 & A4 & A5) (B1 & B2 & B3 & B4 & B5).
  repeat split; congruence.
Qed.

Lemma call_body_eq (cgi : string) params (st : Bugzilla.bugzilla) body rest :
  Bugzilla.responses st = Bugzilla.Body body :: rest ->
  Bugzilla.call cgi params st
  = (Ok body,
     Bugzilla.set_responses rest
       (Bugzilla.set_requests
          (Bugzilla.requests st ++ [Bugzilla.mk_request cgi params]) st)).
Proof.
  intros Hr. unfold Bugzilla.call. unfold bind at 1. cbn [modify].
  unfold bind at 1. cbn [get Bugzilla.responses Bugzilla.set_requests]. rewrite Hr.
  unfold bind at 1. cbn [modify]. reflexivity.
Qed.

Lemma push_cache_queue_eq (item : Bugzilla.raw) (st : Bugzilla.bugzilla) :
  Bugzilla._push_cache_queue item st
  = (Ok tt, Bugzilla.set_cache_queue (queued st [item]) st).
Proof.
  unfold Bugzilla._push_cache_queue, queued. unfold bind at 1. cbn [get].
  destruct (Bugzilla.cache st); [reflexivity |].
  destruct st; reflexivity.
Qed.

(** One bug of a chunk: its activity is asked for, queued for the cache
    and attached, and the bug is yielded. *)
Lemma fetch_bug_yields (st : Bugzilla.bugzilla) bug id d events html rest :
  bug = PDict d ->
  bug_id_text bug = Ok id ->
  Bugzilla.parse_bug_activity html = Ok events ->
  Bugzilla.responses st = Bugzilla.Body html :: rest ->
  exists st',
    Bugzilla.fetch_bug Bugzilla.collect bug st = (Ok tt, st')
    /\ Bugzilla.yielded st' = Bugzilla.yielded st ++ [with_activity bug events]
    /\ Bugzilla.requests st' = Bugzilla.requests st ++ [activity_request id]
    /\ Bugzilla.responses st' = rest
    /\ Bugzilla.cache st' = Bugzilla.cache st
    /\ Bugzilla.cache_queue st' = queued st [html]
    /\ same_setup st st'.
Proof.
  intros -> Hid Hev Hr. unfold Bugzilla.fetch_bug.
  unfold bind at 1. unfold lift at 1. unfold bug_id_text in Hid. rewrite Hid.
  unfold bind at 1. unfold Bugzilla.__fetch_and_parse_bug_activity.
  unfold bind at 1. unfold Bugzilla.client_bug_activity.
  rewrite (call_body_eq _ _ st html rest Hr).
  unfold bind at 1. rewrite push_cache_queue_eq.
  unfold lift at 1. rewrite Hev.
  unfold bind at 1. unfold lift at 1. cbn [setitem].
  unfold Bugzilla.collect. cbn [modify].
  eexists. split; [reflexivity |].
  cbn. unfold queued. cbn. repeat split.
Qed.

Lemma queued_twice (st st' : Bugzilla.bugzilla) a b :
  Bugzilla.cache st' = Bugzilla.cache st ->
  Bugzilla.cache_queue st' = queued st a ->
  queued st' b = queued st (a ++ b).
Proof.
  unfold queued. intros -> ->. destruct (Bugzilla.cache st); [| reflexivity].
  rewrite app_assoc. reflexivity.
Qed.

Lemma map_result_app {A B} (f : A -> result B) (l1 l2 : list A) r1 r2 :
  map_result f l1 = Ok r1 -> map_result f l2 = Ok r2 ->
  map_result f (l1 ++ l2) = Ok (r1 ++ r2).
Proof.
  revert r1. induction l1 as [| x l1 IH]; intros r1 H1 H2.
  - cbn in H1. injection H1 as <-. exact H2.
  - cbn [map_result app] in *. destruct (f x) as [y |]; [| discriminate].
    cbn [rbind] in *. destruct (map_result f l1) as [ys |]; [| discriminate].
    cbn [rbind] in H1. injection H1 as <-.
    rewrite (IH ys eq_refl H2). reflexivity.
Qed.

Lemma map_result_firstn {A B} (f : A -> result B) (n : nat) :
  forall (l : list A) (r : list B),
    map_result f l = Ok r -> map_result f (firstn n l) = Ok (firstn n r).
Proof.
  induction n as [| n IH]; intros l r Hl; [reflexivity |].
  destruct l as [| x l].
  - cbn in Hl. injection Hl as <-. reflexivity.
  - cbn [map_result] in Hl. destruct (f x) as [y |] eqn:Hy; [| discriminate].
    cbn [rbind] in Hl. destruct (map_result f l) as [ys |] eqn:Hys; [| discriminate].
    cbn [rbind] in Hl. injection Hl as <-.
    cbn [firstn map_result]. rewrite Hy. cbn [rbind].
    rewrite (IH l ys Hys). reflexivity.
Qed.

Lemma map_result_skipn {A B} (f : A -> result B) (n : nat) :
  forall (l : list A) (r : list B),
    map_result f l = Ok r -> map_result f (skipn n l) = Ok (skipn n r).
Proof.
  induction n as [| n IH]; intros l r Hl; [exact Hl |].
  destruct l as [| x l].
  - cbn in Hl. injection Hl as <-. reflexivity.
  - cbn [map_result] in Hl. destruct (f x) as [y |]; [| discriminate].
    cbn [rbind] in Hl. destruct (map_result f l) as [ys |] eqn:Hys; [| discriminate].
    cbn [rbind] in Hl. injection Hl as <-.
    cbn [skipn]. exact (IH l ys Hys).
Qed.

Lemma slice_in {A} (l : list A) (i j : nat) (x : A) :
  In x (Bugzilla.slice l i j) -> In x l.
Proof.
  unfold Bugzilla.slice. intros Hx.
  rewrite <- (firstn_skipn i l). apply in_or_app. right.
  rewrite <- (firstn_skipn (j - i) (skipn i l)). apply in_or_app. left. exact Hx.
Qed.

(** *** A server that answers every request of the stage *)

Section FaithfulServer.

Variable bug_of : pyval -> pyval.
Variable xml_of : list pyval -> Bugzilla.raw.
Variable html_of : pyval -> Bugzilla.raw.
Variable events_of : pyval -> list pyval.
Variable ids : list pyval.
Variable served : list pyval -> Prop.

Hypothesis details_parsed :
  forall c, served c -> Bugzilla.parse_bugs_details (xml_of c) = Ok (map bug_of c).
Hypothesis bug_identified :
  forall id, In id ids ->
    bug_id_text (bug_of id) = Ok id /\ exists d, bug_of id = PDict d.
Hypothesis activity_parsed :
  forall id, In id ids -> Bugzilla.parse_bug_activity (html_of id) = Ok (events_of id).

Lemma fetch_bugs_yield (c : list pyval) :
  forall (st : Bugzilla.bugzilla) rest,
    (forall id, In id c -> In id ids) ->
    Bugzilla.responses st = map (fun id => Bugzilla.Body (html_of id)) c ++ rest ->
    exists st',
      for_each (map bug_of c) (Bugzilla.fetch_bug Bugzilla.collect) st = (Ok tt, st')
      /\ Bugzilla.yielded st' = Bugzilla.yielded st ++ map (assembled bug_of events_of) c
      /\ Bugzilla.requests st' = Bugzilla.requests st ++ map activity_request c
      /\ Bugzilla.responses st' = rest
      /\ Bugzilla.cache st' = Bugzilla.cache st
      /\ Bugzilla.cache_queue st' = queued st (map html_of c)
      /\ same_setup st st'.
Proof.
  induction c as [| id c IH]; intros st rest Hin Hr.
  - exists st. cbn [map for_each app] in *. rewrite !app_nil_r.
    split; [reflexivity |]. repeat split; try assumption.
    unfold queued. destruct (Bugzilla.cache st); [rewrite app_nil_r |]; reflexivity.
  - cbn [map app] in Hr.
    destruct (bug_identified id (Hin id (or_introl eq_refl))) as [Hid [d Hd]].
    destruct (fetch_bug_yields st (bug_of id) id d (events_of id) (html_of id) _
                Hd Hid (activity_parsed id (Hin id (or_introl eq_refl))) Hr)
      as (st1 & Hrun & Hy & Hq & Hs & Hc & Hcq & Hf).
    destruct (IH st1 rest (fun x Hx => Hin x (or_intror Hx)) Hs)
      as (st' & Hrun' & Hy' & Hq' & Hs' & Hc' & Hcq' & Hf').
    exists st'. cbn [map for_each]. unfold bind at 1. rewrite Hrun.
    split; [exact Hrun' |].
    split; [rewrite Hy', Hy, <- app_assoc; reflexivity |].
    split; [rewrite Hq', Hq, <- app_assoc; reflexivity |].
    split; [exact Hs' |].
    split; [congruence |].
    split; [rewrite Hcq'; exact (queued_twice st st1 [html_of id] _ Hc Hcq) |].
    eapply same_setup_trans; eassumption.
Qed.

(** One chunk: one grouped call for the details, the bugs of the chunk
    with their activity, and then one flush of the cache queue. *)
Lemma fetch_chunk_flushes (buglist : list pyval) (i : nat) :
  forall (st : Bugzilla.bugzilla) rest,
    map_result (fun b => getitem b "bug_id") buglist = Ok ids ->
    Bugzilla.cache_queue st = [] ->
    let c := Bugzilla.slice ids i (i + Bugzilla.max_bugs st) in
    served c ->
    Bugzilla.responses st = exchange xml_of html_of c ++ rest ->
    exists st',
      Bugzilla.fetch_chunk Bugzilla.collect buglist i st = (Ok tt, st')
      /\ Bugzilla.yielded st' = Bugzilla.yielded st ++ map (assembled bug_of events_of) c
      /\ Bugzilla.requests st'
         = Bugzilla.requests st ++ details_request c :: map activity_request c
      /\ Bugzilla.responses st' = rest
      /\ Bugzilla.cache st'
         = option_map (fun units => units ++ [chunk_unit xml_of html_of c])
             (Bugzilla.cache st)
      /\ Bugzilla.cache_queue st' = []
      /\ same_setup st st'.
Proof.
  intros st rest Hids Hq0 c Hserved Hr.
  assert (Hc : map_result (fun b => getitem b "bug_id")
                 (Bugzilla.slice buglist i (i + Bugzilla.max_bugs st)) = Ok c).
  { unfold Bugzilla.slice, c. apply map_result_firstn, map_result_skipn. exact Hids. }
  unfold Bugzilla.fetch_chunk. unfold bind at 1. cbn [get].
  unfold bind at 1. unfold lift at 1. rewrite Hc.
  unfold bind at 1. unfold Bugzilla.__fetch_and_parse_bugs_details.
  unfold bind at 1. unfold Bugzilla.client_bugs.
  unfold exchange in Hr. cbn [app] in Hr.
  rewrite (call_body_eq _ _ st (xml_of c) _ Hr).
  unfold bind at 1. rewrite push_cache_queue_eq. unfold ret at 1.
  unfold bind at 1. unfold lift at 1. rewrite (details_parsed c Hserved).
  match goal with
  | |- context [bind (for_each _ _) _ ?s] => set (st1 := s)
  end.
  destruct (fetch_bugs_yield c st1 rest) as (st2 & Hrun & Hy & Hq & Hs & Hca & Hcq & Hf).
  { intros id Hid. eapply slice_in. exact Hid. }
  { reflexivity. }
  unfold bind at 1. rewrite Hrun.
  unfold Bugzilla._flush_cache_queue. unfold bind at 1. cbn [get].
  assert (Hcache1 : Bugzilla.cache st1 = Bugzilla.cache st) by reflexivity.
  rewrite Hca, Hcache1.
  destruct (Bugzilla.cache st) as [units |] eqn:Hcache.
  - unfold bind at 1. cbn [modify]. unfold Bugzilla._purge_cache_queue. cbn [modify].
    eexists. split; [reflexivity |].
    cbn [Bugzilla.yielded Bugzilla.requests Bugzilla.responses Bugzilla.cache
         Bugzilla.cache_queue Bugzilla.set_cache Bugzilla.set_cache_queue option_map].
    split; [exact Hy |]. split.
    { rewrite Hq. subst st1. cbn. rewrite <- app_assoc. reflexivity. }
    split; [exact Hs |]. split.
    { rewrite Hcq. unfold queued at 1. rewrite Hcache1. subst st1.
      cbn [Bugzilla.cache_queue Bugzilla.set_cache_queue]. unfold queued.
      cbn [Bugzilla.cache Bugzilla.set_responses Bugzilla.set_requests
           Bugzilla.cache_queue].
      rewrite Hcache, Hq0. reflexivity. }
    split; [reflexivity |].
    destruct Hf as (F1 & F2 & F3 & F4 & F5). repeat split; assumption.
  - unfold ret. exists st2. split; [reflexivity |].
    split; [exact Hy |]. split.
    { rewrite Hq. subst st1. cbn. rewrite <- app_assoc. reflexivity. }
    split; [exact Hs |]. split; [rewrite Hca; exact Hcache1 |]. split.
    { rewrite Hcq. unfold queued at 1. rewrite Hcache1. subst st1.
      cbn [Bugzilla.cache_queue Bugzilla.set_cache_queue]. unfold queued.
      cbn [Bugzilla.cache Bugzilla.set_responses Bugzilla.set_requests
           Bugzilla.cache_queue].
      rewrite Hcache, Hq0. reflexivity. }
    destruct Hf as (F1 & F2 & F3 & F4 & F5). repeat split; assumption.
Qed.

Lemma fetch_chunks_in_turn (buglist : list pyval) (idx : list nat) :
  forall (st : Bugzilla.bugzilla) rest,
    map_result (fun b => getitem b "bug_id") buglist = Ok ids ->
    Bugzilla.cache_queue st = [] ->
    let cs := map (fun i => Bugzilla.slice ids i (i + Bugzilla.max_bugs st)) idx in
    Forall served cs ->
    Bugzilla.responses st = flat_map (exchange xml_of html_of) cs ++ rest ->
    exists st',
      for_each idx (Bugzilla.fetch_chunk Bugzilla.collect buglist) st = (Ok tt, st')
      /\ Bugzilla.yielded st' = Bugzilla.yielded st ++ map (assembled bug_of events_of) (List.concat cs)
      /\ Bugzilla.requests st' = Bugzilla.requests st ++ flat_map chunk_requests cs
      /\ Bugzilla.responses st' = rest
      /\ Bugzilla.cache st'
         = option_map (fun units => units ++ map (chunk_unit xml_of html_of) cs) (Bugzilla.cache st)
      /\ Bugzilla.cache_queue st' = []
      /\ same_setup st st'.
Proof.
  induction idx as [| i idx IH]; intros st rest Hids Hq0 cs Hserved Hr.
  - exists st. subst cs. cbn [map flat_map List.concat for_each app] in *.
    rewrite !app_nil_r. split; [reflexivity |].
    repeat split; try assumption.
    destruct (Bugzilla.cache st); cbn; [rewrite app_nil_r |]; reflexivity.
  - subst cs. cbn [map flat_map] in Hr. rewrite <- app_assoc in Hr.
    cbn [map] in Hserved. apply Forall_cons_iff in Hserved.
    destruct Hserved as [Hserved1 Hserved].
    destruct (fetch_chunk_flushes buglist i st _ Hids Hq0 Hserved1 Hr)
      as (st1 & Hrun & Hy & Hq & Hs & Hc & Hcq & Hf).
    assert (HK : Bugzilla.max_bugs st1 = Bugzilla.max_bugs st) by apply Hf.
    destruct (IH st1 rest Hids Hcq) as (st' & Hrun' & Hy' & Hq' & Hs' & Hc' & Hcq' & Hf').
    { rewrite HK. exact Hserved. }
    { rewrite HK. exact Hs. }
    rewrite HK in *.
    exists st'. cbn [for_each]. unfold bind at 1. rewrite Hrun.
    split; [exact Hrun' |].
    split.
    { rewrite Hy', Hy. cbn [map List.concat]. rewrite map_app, <- app_assoc.
      reflexivity. }
    split.
    { rewrite Hq', Hq. cbn [map flat_map]. rewrite <- app_assoc. reflexivity. }
    split; [exact Hs' |].
    split.
    { rewrite Hc', Hc. destruct (Bugzilla.cache st); cbn [option_map map];
        [rewrite <- app_assoc |]; reflexivity. }
    split; [exact Hcq' |].
    eapply same_setup_trans; eassumption.
Qed.

End FaithfulServer.

(** *** The chunks of a list *)

Lemma slice_step {A} (l : list A) (i K : nat) :
  Bugzilla.slice l i (i + K) ++ skipn (i + K) l = skipn i l.
Proof.
  unfold Bugzilla.slice. replace (i + K - i)%nat with K by lia.
  rewrite (Nat.add_comm i K), <- skipn_skipn. apply firstn_skipn.
Qed.

Lemma range_covers {A} (l : list A) (K : nat) :
  (1 <= K)%nat ->
  forall fuel i,
    (List.length l - i <= fuel)%nat ->
    List.concat (map (fun j => Bugzilla.slice l j (j + K))
                     (Bugzilla.range_from fuel i (List.length l) K))
    = skipn i l.
Proof.
  intros HK. induction fuel as [| fuel IH]; intros i Hfuel.
  - cbn. symmetry. apply skipn_all2. lia.
  - cbn [Bugzilla.range_from]. destruct (Nat.ltb_spec i (List.length l)).
    + cbn [map List.concat]. rewrite IH by lia. apply slice_step.
    + cbn. symmetry. apply skipn_all2. lia.
Qed.

Lemma ceil_div_step (n K : nat) :
  (1 <= K)%nat -> (1 <= n)%nat -> ceil_div n K = S (ceil_div (n - K) K).
Proof.
  intros HK Hn. unfold ceil_div. destruct (le_lt_dec K n) as [Hle | Hlt].
  - replace (n + K - 1)%nat with ((n - K + K - 1) + 1 * K)%nat by lia.
    rewrite Nat.div_add by lia. lia.
  - replace (n - K)%nat with 0%nat by lia.
    rewrite (Nat.div_small (0 + K - 1) K) by lia.
    replace (n + K - 1)%nat with ((n - 1) + 1 * K)%nat by lia.
    rewrite Nat.div_add by lia. rewrite Nat.div_small by lia. reflexivity.
Qed.

Lemma range_length (N K : nat) :
  (1 <= K)%nat ->
  forall fuel i,
    (N - i <= fuel)%nat ->
    List.length (Bugzilla.range_from fuel i N K) = ceil_div (N - i) K.
Proof.
  intros HK. induction fuel as [| fuel IH]; intros i Hfuel.
  - cbn. replace (N - i)%nat with 0%nat by lia. unfold ceil_div.
    symmetry. apply Nat.div_small. lia.
  - cbn [Bugzilla.range_from]. destruct (Nat.ltb_spec i N).
    + cbn [List.length]. rewrite IH by lia.
      rewrite (ceil_div_step (N - i) K) by lia. f_equal. f_equal. lia.
    + cbn. replace (N - i)%nat with 0%nat by lia. unfold ceil_div.
      symmetry. apply Nat.div_small. lia.
Qed.

Lemma chunks_concat {A} (K : nat) (l : list A) :
  (1 <= K)%nat -> List.concat (chunks K l) = l.
Proof.
  intros HK. unfold chunks. rewrite (range_covers l K HK) by lia. reflexivity.
Qed.

Lemma chunks_length {A} (K : nat) (l : list A) :
  (1 <= K)%nat -> List.length (chunks K l) = ceil_div (List.length l) K.
Proof.
  intros HK. unfold chunks. rewrite length_map, (range_length _ K HK) by lia.
  f_equal. lia.
Qed.

Lemma count_calls_app cgi l1 l2 :
  count_calls cgi (l1 ++ l2) = (count_calls cgi l1 + count_calls cgi l2)%nat.
Proof. unfold count_calls. rewrite filter_app, length_app. reflexivity. Qed.

Lemma count_detail_calls (cs : list (list pyval)) :
  count_calls Bugzilla.CGI_BUG (flat_map chunk_requests cs) = List.length cs.
Proof.
  induction cs as [| c cs IH]; [reflexivity |].
  cbn [flat_map]. rewrite count_calls_app, IH. cbn [List.length].
  unfold chunk_requests, count_calls. cbn [filter details_request Bugzilla.cgi].
  rewrite String.eqb_refl. cbn [List.length].
  replace (filter (fun r => String.eqb (Bugzilla.cgi r) Bugzilla.CGI_BUG)
             (map activity_request c)) with (@nil Bugzilla.request); [reflexivity |].
  induction c as [| id c IHc]; [reflexivity |]. cbn. exact IHc.
Qed.

Lemma map_result_length {A B} (f : A -> result B) (l : list A) :
  forall r, map_result f l = Ok r -> List.length r = List.length l.
Proof.
  induction l as [| x l IH]; intros r Hr.
  - cbn in Hr. injection Hr as <-. reflexivity.
  - cbn [map_result] in Hr. destruct (f x) as [y |]; [| discriminate].
    cbn [rbind] in Hr. destruct (map_result f l) as [ys |]; [| discriminate].
    cbn [rbind] in Hr. injection Hr as <-. cbn [List.length]. f_equal.
    apply IH. reflexivity.
Qed.

(** C8.  For a bug list of [N] candidates and a chunk size [K] of at
    least 1, in front of a server that answers each grouped call with the
    details of the bugs asked for, in the order asked, the detail stage of
    [fetch] makes [ceil(N/K)] grouped calls for details, yields [N] bugs,
    each with its activity attached, in the order of their identifiers,
    chunk after chunk, and flushes the cache queue once per chunk: the
    cache receives one unit per chunk, made of the details block of the
    chunk followed by the activity blocks of its bugs.  Of every bug
    yielded, the field ['activity'] reads the events parsed from its
    activity page, the identifier is the one asked for, and the other
    fields read as in the details. *)
Theorem fetch_details_in_chunks :
  forall (st : Bugzilla.bugzilla) (buglist ids : list pyval)
         (bug_of : pyval -> pyval) (xml_of : list pyval -> Bugzilla.raw)
         (html_of : pyval -> Bugzilla.raw) (events_of : pyval -> list pyval)
         (rest : list Bugzilla.response),
    let K := Bugzilla.max_bugs st in
    let N := List.length buglist in
    (1 <= K)%nat ->
    Bugzilla.cache_queue st = [] ->
    map_result (fun b => getitem b "bug_id") buglist = Ok ids ->
    (forall c, In c (chunks K ids) ->
       Bugzilla.parse_bugs_details (xml_of c) = Ok (map bug_of c)) ->
    (forall id, In id ids ->
       bug_id_text (bug_of id) = Ok id /\ exists d, bug_of id = PDict d) ->
    (forall id, In id ids ->
       Bugzilla.parse_bug_activity (html_of id) = Ok (events_of id)) ->
    Bugzilla.responses st = flat_map (exchange xml_of html_of) (chunks K ids) ++ rest ->
    exists st',
      Bugzilla.fetch_details buglist Bugzilla.collect st = (Ok tt, st')
      /\ Bugzilla.requests st'
         = Bugzilla.requests st ++ flat_map chunk_requests (chunks K ids)
      /\ count_calls Bugzilla.CGI_BUG (Bugzilla.requests st')
         = (count_calls Bugzilla.CGI_BUG (Bugzilla.requests st) + ceil_div N K)%nat
      /\ Bugzilla.yielded st'
         = Bugzilla.yielded st ++ map (assembled bug_of events_of) ids
      /\ List.length (map (assembled bug_of events_of) ids) = N
      /\ List.concat (chunks K ids) = ids
      /\ Bugzilla.cache st'
         = option_map (fun units => units ++ map (chunk_unit xml_of html_of) (chunks K ids))
             (Bugzilla.cache st)
      /\ List.length (chunks K ids) = ceil_div N K
      /\ Bugzilla.cache_queue st' = []
      /\ Bugzilla.responses st' = rest
      /\ exists items,
           Bugzilla.yielded st' = Bugzilla.yielded st ++ items
           /\ map (fun item => getitem item "activity") items
              = map (fun id => Ok (PList (events_of id))) ids
           /\ map bug_id_text items = map (fun id => Ok id) ids
           /\ Forall2 (fun id item =>
                         forall key, key <> "activity" ->
                           getitem item key = getitem (bug_of id) key)
                ids items.
Proof.
  intros st buglist ids bug_of xml_of html_of events_of rest K N
    HK Hq0 Hids Hdetails Hbugs Hactivity Hr.
  assert (Hlen : List.length buglist = List.length ids).
  { symmetry. apply (map_result_length _ _ _ Hids). }
  assert (HKpos : (1 <= K)%nat) by exact HK.
  unfold Bugzilla.fetch_details. unfold bind at 1. cbn [get].
  unfold bind at 1. unfold lift at 1. unfold Bugzilla.py_range.
  fold K. destruct K as [| K'] eqn:EK; [lia |]. rewrite <- EK in *.
  rewrite Hlen.
  destruct (fetch_chunks_in_turn bug_of xml_of html_of events_of ids
              (fun c => In c (chunks K ids)) Hdetails Hbugs Hactivity buglist
              (Bugzilla.range_from (List.length ids) 0 (List.length ids) K) st rest
              Hids Hq0)
    as (st' & Hrun & Hy & Hq & Hs & Hc & Hcq & _).
  { fold K. apply Forall_forall. intros c Hc. exact Hc. }
  { exact Hr. }
  fold K in Hy, Hq, Hc. fold (chunks K ids) in Hy, Hq, Hc.
  rewrite (chunks_concat K ids HKpos) in Hy.
  exists st'. split; [exact Hrun |].
  split; [exact Hq |]. split.
  { rewrite Hq, count_calls_app, count_detail_calls, (chunks_length K ids HKpos).
    unfold N. rewrite Hlen. reflexivity. }
  split; [exact Hy |].
  split; [rewrite length_map; unfold N; symmetry; exact Hlen |].
  split; [exact (chunks_concat K ids HKpos) |].
  split; [exact Hc |].
  split; [rewrite (chunks_length K ids HKpos); unfold N; rewrite Hlen; reflexivity |].
  split; [exact Hcq |]. split; [exact Hs |].
  exists (map (assembled bug_of events_of) ids). split; [exact Hy |].
  clear - Hbugs. unfold assembled.
  induction ids as [| id ids IH]; [repeat split; constructor |].
  destruct (Hbugs id (or_introl eq_refl)) as [Hid Hdict].
  destruct (with_activity_reads (bug_of id) (events_of id) Hdict) as (Hact & Hother & Htext).
  destruct IH as (IHact & IHid & IHother).
  { intros id' Hin. apply Hbugs. right. exact Hin. }
  cbn [map]. rewrite Hact, Htext, Hid, IHact, IHid.
  split; [reflexivity |]. split; [reflexivity |].
  constructor; [exact Hother | exact IHother].
Qed.

End DetailStage.

Lemma fetch_details_in_chunks_witness :
  exists st',
    Bugzilla.fetch_details (P := sample_parsers) sample_buglist Bugzilla.collect
      details_connector = (Ok tt, st')
    /\ count_calls Bugzilla.CGI_BUG (Bugzilla.requests st') = 2%nat
    /\ Bugzilla.yielded st'
       = map (assembled sample_bug_of sample_events_of) [PStr "15"; PStr "18"; PStr "888"]
    /\ Bugzilla.cache st'
       = Some [["xml: 15, 18"; "html: no changes"; "html: one change"];
               ["xml: 888"; "html: one change"]]
    /\ map (fun item => getitem item "activity") (Bugzilla.yielded st')
       = [Ok (PList []); Ok (PList [activity_event]); Ok (PList [activity_event])]
    /\ map bug_id_text (Bugzilla.yielded st')
       = [Ok (PStr "15"); Ok (PStr "18"); Ok (PStr "888")].
Proof.
  destruct (fetch_details_in_chunks (P := sample_parsers) details_connector
              sample_buglist [PStr "15"; PStr "18"; PStr "888"]
              sample_bug_of sample_xml_of sample_html_of sample_events_of [])
    as (st' & Hrun & _ & Hcount & Hy & _ & _ & Hc & _ & _ & _
        & items & Hitems & Hact & Htext & _).
  - cbn. lia.
  - reflexivity.
  - reflexivity.
  - intros c [<- | [<- | []]]; reflexivity.
  - intros id [<- | [<- | [<- | []]]]; (split; [reflexivity | eexists; reflexivity]).
  - intros id [<- | [<- | [<- | []]]]; reflexivity.
  - reflexivity.
  - exists st'. split; [exact Hrun |]. split; [exact Hcount |].
    split; [exact Hy |]. split; [exact Hc |].
    cbn [Bugzilla.yielded details_connector Bugzilla.init app] in Hitems.
    rewrite Hitems. split; [exact Hact | exact Htext].
Defined.

(** ** The Bugzilla connector: replay of the cache *)

Section Replay.
Context {P : Bugzilla.Parsers}.

Lemma consumer_only_refl st : consumer_only st st.
Proof. repeat split. Qed.

Lemma consumer_only_trans st1 st2 st3 :
  consumer_only st1 st2 -> consumer_only st2 st3 -> consumer_only st1 st3.
Proof.
  unfold consumer_only.
  intros (A1 & A2 & A3 & A4 & A5 & A6 & A7 & A8) (B1 & B2 & B3 & B4 & B5 & B6 & B7 & B8).
  repeat split; congruence.
Qed.

Lemma getitem_no_cache_error v key c : getitem v key <> Raise (CacheError c).
Proof. destruct v; cbn; try discriminate. destruct (assoc key d); discriminate. Qed.

Lemma getitem0_no_cache_error v c : getitem0 v <> Raise (CacheError c).
Proof. destruct v; cbn; try discriminate. destruct l; discriminate. Qed.

Lemma setitem_no_cache_error v key w c : setitem v key w <> Raise (CacheError c).
Proof. destruct v; cbn; discriminate. Qed.

Lemma get_update_time_no_cache_error v c :
  Bugzilla.get_update_time v <> Raise (CacheError c).
Proof.
  unfold Bugzilla.get_update_time.
  destruct (getitem v "delta_ts") as [a |] eqn:Ha; cbn [rbind].
  - destruct (getitem0 a) as [b |] eqn:Hb; cbn [rbind].
    + apply getitem_no_cache_error.
    + rewrite <- Hb. apply getitem0_no_cache_error.
  - rewrite <- Ha. apply getitem_no_cache_error.
Qed.

Lemma check_value_raises v e :
  Backend.check_value v = Raise e -> exists msg, e = ValueError msg.
Proof.
  destruct v; cbn; intros He; try (injection He as <-; eexists; reflexivity).
  destruct (String.eqb s ""); [| discriminate].
  injection He as <-. eexists; reflexivity.
Qed.

Lemma uuid_raises args e :
  Backend.uuid args = Raise e ->
  (exists msg, e = ValueError msg) \/ e = UnicodeEncodeError.
Proof.
  unfold Backend.uuid.
  assert (Hm : forall e, Backend.map_check args = Raise e -> exists msg, e = ValueError msg).
  { induction args as [| v args IH]; intros e' He; [discriminate |].
    cbn [Backend.map_check] in He.
    destruct (Backend.check_value v) as [s |] eqn:Hv; cbn [rbind] in He.
    - destruct (Backend.map_check args) as [ss |]; cbn [rbind] in He; [discriminate |].
      injection He as <-. apply IH. reflexivity.
    - injection He as <-. eapply check_value_raises. exact Hv. }
  destruct (Backend.map_check args) as [ss |]; cbn [rbind].
  - unfold Backend.encode_utf8. destruct (Backend.has_surrogate _); cbn [rbind];
      [| discriminate].
    intros He. injection He as <-. right. reflexivity.
  - intros He. injection He as <-. left. apply Hm. reflexivity.
Qed.

Lemma parse_bugs_details_no_cache_error raw_xml c :
  replay_free -> Bugzilla.parse_bugs_details raw_xml <> Raise (CacheError c).
Proof.
  intros (Hxml & _). unfold Bugzilla.parse_bugs_details.
  destruct (Bugzilla.xml_to_dict raw_xml) as [bugs |] eqn:Hx; cbn [rbind].
  - destruct (find _ bugs) as [[k bs] |]; discriminate.
  - intros He. injection He as ->. eapply Hxml. exact Hx.
Qed.

(** The decorator of [backend.py] and the consumer: the item is built
    and taken, or an exception that is not a [CacheError] is raised. *)
Lemma decorated_cases (data : pyval) (st : Bugzilla.bugzilla) :
  (exists item st',
      decorated data st = (Ok tt, st')
      /\ wrapped (Bugzilla.origin st) data item
      /\ Bugzilla.yielded st' = Bugzilla.yielded st ++ [item]
      /\ consumer_only st st')
  \/ (exists e st',
        decorated data st = (Raise e, st')
        /\ ~ wraps (Bugzilla.origin st) data
        /\ (cache_free -> forall c, e <> CacheError c)).
Proof.
  unfold decorated, Bugzilla.metadata_item, Bugzilla.now, Bugzilla.collect.
  unfold bind, get, modify, ret, lift. cbn [Bugzilla.origin Bugzilla.set_ticks].
  destruct (Bugzilla.metadata_id data) as [id | e] eqn:Hid.
  - destruct (Backend.uuid [PStr (Bugzilla.origin st); id]) as [u | e] eqn:Hu.
    + destruct (Bugzilla.get_update_time data) as [t | e] eqn:Ht.
      * left. eexists. eexists. split; [reflexivity |].
        split; [| split; [reflexivity | repeat split]].
        exists (Bugzilla.clock st (Bugzilla.ticks st)), id, u, t.
        repeat split; assumption.
      * right. eexists. eexists. split; [reflexivity |]. split.
        -- intros (item & ts & id' & u' & t' & _ & _ & Ht' & _). congruence.
        -- intros _ c ->. eapply get_update_time_no_cache_error. exact Ht.
    + right. eexists. eexists. split; [reflexivity |]. split.
      * intros (item & ts & id' & u' & t' & Hid' & Hu' & _ & _). congruence.
      * intros _ c ->. destruct (uuid_raises _ _ Hu) as [[msg Hmsg] | Hmsg]; discriminate.
  - right. eexists. eexists. split; [reflexivity |]. split.
    + intros (item & ts & id' & u' & t' & Hid' & _). congruence.
    + intros (_ & _ & Hmeta) c ->. eapply Hmeta. exact Hid.
Qed.

Lemma decorated_wraps (data : pyval) (st : Bugzilla.bugzilla) :
  wraps (Bugzilla.origin st) data ->
  exists item st',
    decorated data st = (Ok tt, st')
    /\ wrapped (Bugzilla.origin st) data item
    /\ Bugzilla.yielded st' = Bugzilla.yielded st ++ [item]
    /\ consumer_only st st'.
Proof.
  intros Hw. destruct (decorated_cases data st) as [Hok | (e & st' & _ & Hno & _)].
  - exact Hok.
  - contradiction.
Qed.

(** A bug whose update time can be read is a dict. *)
Lemma update_time_of_dict (bug updated_on : pyval) :
  Bugzilla.get_update_time bug = Ok updated_on -> exists d, bug = PDict d.
Proof.
  unfold Bugzilla.get_update_time.
  destruct bug; cbn; try discriminate. intros _. eexists. reflexivity.
Qed.

(** The decorator of the connector and the consumer: the bug is given
    its entry and taken, or an exception that is not a [CacheError] is
    raised. *)
Lemma with_metadata_cases (bug : pyval) (st : Bugzilla.bugzilla) :
  (exists item st',
      with_metadata bug st = (Ok tt, st')
      /\ stamped (Bugzilla.origin st) bug item
      /\ Bugzilla.yielded st' = Bugzilla.yielded st ++ [item]
      /\ consumer_only st st')
  \/ (exists e st',
        with_metadata bug st = (Raise e, st')
        /\ ~ stampable bug
        /\ (forall c, e <> CacheError c)).
Proof.
  unfold with_metadata, Bugzilla.add_metadata, Bugzilla.now, Bugzilla.collect.
  unfold bind, get, modify, ret, lift. cbn [Bugzilla.origin Bugzilla.set_ticks].
  destruct (Bugzilla.get_update_time bug) as [t | e] eqn:Ht.
  - destruct (update_time_of_dict bug t Ht) as [d ->]. cbn [setitem].
    left. eexists. eexists. split; [reflexivity |].
    split; [| split; [reflexivity | repeat split]].
    exists (Bugzilla.clock st (Bugzilla.ticks st)), t. split; [exact Ht | reflexivity].
  - right. eexists. eexists. split; [reflexivity |]. split.
    + intros (t' & Ht'). congruence.
    + intros c ->. eapply get_update_time_no_cache_error. exact Ht.
Qed.

Lemma with_metadata_stampable (bug : pyval) (st : Bugzilla.bugzilla) :
  stampable bug ->
  exists item st',
    with_metadata bug st = (Ok tt, st')
    /\ stamped (Bugzilla.origin st) bug item
    /\ Bugzilla.yielded st' = Bugzilla.yielded st ++ [item]
    /\ consumer_only st st'.
Proof.
  intros Hw. destruct (with_metadata_cases bug st) as [Hok | (e & st' & _ & Hno & _)].
  - exact Hok.
  - contradiction.
Qed.

Lemma resume_nil (fuel : nat) (items : list Bugzilla.raw) (st : Bugzilla.bugzilla) :
  resume fuel [] items st = Bugzilla.replay_loop fuel with_metadata items st.
Proof. reflexivity. Qed.

Lemma resume_next (fuel : nat) raw_bugs (items : list Bugzilla.raw) st :
  Bugzilla.replay_loop (S fuel) with_metadata (raw_bugs :: items) st
  = match Bugzilla.parse_bugs_details raw_bugs with
    | Ok bugs => resume fuel bugs items st
    | Raise e => (Raise e, st)
    end.
Proof.
  cbn [Bugzilla.replay_loop]. unfold bind at 1. unfold lift at 1.
  destruct (Bugzilla.parse_bugs_details raw_bugs); reflexivity.
Qed.

Lemma resume_bug (fuel : nat) bug pending raw_activity items st :
  resume fuel (bug :: pending) (raw_activity :: items) st
  = match Bugzilla.parse_bug_activity raw_activity with
    | Ok activity =>
        match setitem bug "activity" (PList activity) with
        | Ok data =>
            match with_metadata data st with
            | (Ok _, st') => resume fuel pending items st'
            | (Raise e, st') => (Raise e, st')
            end
        | Raise e => (Raise e, st)
        end
    | Raise e => (Raise e, st)
    end.
Proof.
  unfold resume. cbn [Bugzilla.replay_bugs]. unfold bind at 1. unfold bind at 1.
  unfold lift at 1.
  destruct (Bugzilla.parse_bug_activity raw_activity) as [activity | e]; [| reflexivity].
  unfold bind at 1. unfold lift at 1.
  destruct (setitem bug "activity" (PList activity)) as [data | e]; [| reflexivity].
  unfold bind at 1.
  destruct (with_metadata data st) as [[[] | e] st']; reflexivity.
Qed.

Lemma resume_starved_now (fuel : nat) bug pending st :
  resume fuel (bug :: pending) [] st
  = (Raise (CacheError "cache is exhausted but more items were expected"), st).
Proof. reflexivity. Qed.

(** A replay that ends with a [CacheError] has run dry inside a pair. *)
Lemma resume_cache_error (items : list Bugzilla.raw) :
  replay_free ->
  forall (fuel : nat) (pending : list pyval) (st st' : Bugzilla.bugzilla) c,
    (List.length items < fuel)%nat ->
    resume fuel pending items st = (Raise (CacheError c), st') ->
    starved pending items.
Proof.
  intros Hfree. induction items as [| x items IH]; intros fuel pending st st' c Hfuel Hrun.
  - destruct pending as [| bug pending]; [| constructor].
    rewrite resume_nil in Hrun. destruct fuel; [cbn in Hfuel; lia |].
    cbn in Hrun. discriminate.
  - destruct pending as [| bug pending].
    + rewrite resume_nil in Hrun. destruct fuel as [| fuel]; [lia |].
      rewrite resume_next in Hrun.
      destruct (Bugzilla.parse_bugs_details x) as [bugs | e] eqn:Hx.
      * apply starved_next with (bugs := bugs); [exact Hx |].
        apply (IH fuel bugs st st' c); [cbn [List.length] in Hfuel; lia | exact Hrun].
      * injection Hrun as -> _. exfalso.
        eapply parse_bugs_details_no_cache_error; eassumption.
    + rewrite resume_bug in Hrun.
      destruct (Bugzilla.parse_bug_activity x) as [activity | e] eqn:Hx.
      * destruct (setitem bug "activity" (PList activity)) as [data | e] eqn:Hset.
        -- destruct (with_metadata_cases data st)
             as [(item & st1 & Hd & Hw & _ & Hf) | (e & st1 & Hd & _ & Hno)];
             rewrite Hd in Hrun.
           ++ apply starved_later with (data := data).
              ** exists activity. split; [exact Hx |]. split; [exact Hset |].
                 destruct Hw as (ts & t & Ht & _). exists t. exact Ht.
              ** apply (IH fuel pending st1 st' c);
                   [cbn [List.length] in Hfuel; lia | exact Hrun].
           ++ injection Hrun as -> _. exfalso. exact (Hno c eq_refl).
        -- injection Hrun as -> _. exfalso.
           eapply setitem_no_cache_error. exact Hset.
      * injection Hrun as -> _. exfalso.
        destruct Hfree as (_ & Hact). eapply Hact. exact Hx.
Qed.

(** A cache that runs dry inside a pair ends the replay with a
    [CacheError]. *)
Lemma starved_resume pending items :
  starved pending items ->
  forall (fuel : nat) (st : Bugzilla.bugzilla),
    (List.length items < fuel)%nat ->
    exists st',
      resume fuel pending items st
      = (Raise (CacheError "cache is exhausted but more items were expected"), st').
Proof.
  induction 1 as [bug pending
                 | bug pending raw_activity items data (activity & Hx & Hset & Hw) _ IH
                 | raw_bugs bugs items Hx _ IH];
    intros fuel st Hfuel.
  - exists st. apply resume_starved_now.
  - rewrite resume_bug, Hx, Hset.
    destruct (with_metadata_stampable data st Hw) as (item & st1 & Hd & _ & _ & Hf).
    rewrite Hd. apply IH. cbn [List.length] in Hfuel. lia.
  - rewrite resume_nil. destruct fuel as [| fuel]; [lia |].
    rewrite resume_next, Hx. apply IH. cbn [List.length] in Hfuel. lia.
Qed.

Lemma run_fetch_from_cache (st : Bugzilla.bugzilla) :
  Bugzilla.run Bugzilla.fetch_from_cache st
  = match Bugzilla.cache st with
    | None =>
        ([], Raise (CacheError "cache instance was not provided"),
         Bugzilla.set_yielded [] st)
    | Some units =>
        match Bugzilla.retrieve (Bugzilla.cache_readable st) units with
        | Ok cache_items =>
            let '(r, st') :=
              resume (S (List.length cache_items)) [] cache_items
                (Bugzilla.set_yielded [] st) in
            (Bugzilla.yielded st', r, st')
        | Raise e => ([], Raise e, Bugzilla.set_yielded [] st)
        end
    end.
Proof.
  unfold Bugzilla.run, Bugzilla.fetch_from_cache, Bugzilla.metadata_get_update_time,
    Bugzilla.fetch_from_cache_undecorated.
  unfold bind at 1. cbn [get Bugzilla.cache Bugzilla.set_yielded].
  destruct (Bugzilla.cache st) as [units |]; [| reflexivity].
  unfold bind at 1. unfold lift at 1.
  change (Bugzilla.cache_readable (Bugzilla.set_yielded [] st))
    with (Bugzilla.cache_readable st).
  destruct (Bugzilla.retrieve (Bugzilla.cache_readable st) units); reflexivity.
Qed.

Lemma nothing_starves_without_blocks : ~ starved [] [].
Proof. intros Hs. inversion Hs. Qed.

(** C4, as the code has it.  [fetch_from_cache] raises [CacheError] in
    three situations and in no other: when the connector has no cache;
    when the storage of its cache cannot be read; and when, a details
    block having been parsed, the cache runs dry before the activity
    block of one of its bugs can be read. *)
Theorem fetch_from_cache_cache_error :
  forall (st : Bugzilla.bugzilla),
    replay_free ->
    ((exists c, outcome (Bugzilla.run Bugzilla.fetch_from_cache st) = Raise (CacheError c))
     <-> (Bugzilla.cache st = None
          \/ (exists units,
                Bugzilla.cache st = Some units /\ Bugzilla.cache_readable st = false)
          \/ (exists units,
                Bugzilla.cache st = Some units
                /\ Bugzilla.cache_readable st = true
                /\ starved [] (List.concat units))))
    /\ (Bugzilla.cache st = None ->
        outcome (Bugzilla.run Bugzilla.fetch_from_cache st)
        = Raise (CacheError "cache instance was not provided"))
    /\ (forall units,
          Bugzilla.cache st = Some units ->
          Bugzilla.cache_readable st = true ->
          starved [] (List.concat units) ->
          outcome (Bugzilla.run Bugzilla.fetch_from_cache st)
          = Raise (CacheError "cache is exhausted but more items were expected"))
    /\ (forall units,
          Bugzilla.cache st = Some units ->
          Bugzilla.cache_readable st = false ->
          exists c,
            outcome (Bugzilla.run Bugzilla.fetch_from_cache st) = Raise (CacheError c)).
Proof.
  intros st Hfree. rewrite run_fetch_from_cache. unfold outcome, Bugzilla.retrieve.
  destruct (Bugzilla.cache st) as [units |] eqn:Hcache.
  - destruct (Bugzilla.cache_readable st) eqn:Hread.
    + split; [split |].
      * intros [c Hc].
        destruct (resume _ _ _ _) as [r st'] eqn:Hrun. cbn [fst snd] in Hc. subst r.
        right. right. exists units. split; [reflexivity |]. split; [reflexivity |].
        apply (resume_cache_error _ Hfree _ _ _ _ _ (Nat.lt_succ_diag_r _) Hrun).
      * intros [Hnone | [(units' & _ & Hno) | (units' & Hsome & _ & Hstarved)]];
          [discriminate | discriminate |].
        injection Hsome as <-.
        destruct (starved_resume _ _ Hstarved
                    (S (List.length (List.concat units)))
                    (Bugzilla.set_yielded [] st) (Nat.lt_succ_diag_r _))
          as (st' & ->).
        eexists. reflexivity.
      * split; [discriminate |]. split; [| discriminate].
        intros units' Hsome _ Hstarved. injection Hsome as <-.
        destruct (starved_resume _ _ Hstarved
                    (S (List.length (List.concat units)))
                    (Bugzilla.set_yielded [] st) (Nat.lt_succ_diag_r _))
          as (st' & ->).
        reflexivity.
    + cbn [fst snd]. split; [split |].
      * intros _. right. left. exists units. split; reflexivity.
      * intros _. eexists. reflexivity.
      * split; [discriminate |]. split; [discriminate |].
        intros units' _ _. eexists. reflexivity.
  - cbn [fst snd]. split; [split |].
    + intros _. left. reflexivity.
    + intros _. eexists. reflexivity.
    + split; [reflexivity |]. split; discriminate.
Qed.

End Replay.

Lemma sample_parsers_cache_free : @cache_free sample_parsers.
Proof.
  split; [| split].
  - intros r c. cbn.
    destruct (String.eqb r "xml: 15, 18"); [discriminate |].
    destruct (String.eqb r "xml: 888"); discriminate.
  - intros r c. cbn.
    destruct (String.eqb r "html: no changes"); [discriminate |].
    destruct (String.eqb r "html: one change"); discriminate.
  - intros v c. cbn.
    destruct (getitem v "bug_id") as [a |] eqn:Ha; cbn [rbind].
    + destruct (getitem0 a) as [b |] eqn:Hb; cbn [rbind].
      * apply getitem_no_cache_error.
      * rewrite <- Hb. apply getitem0_no_cache_error.
    + rewrite <- Ha. apply getitem_no_cache_error.
Qed.

Lemma sample_parsers_replay_free : @replay_free sample_parsers.
Proof.
  destruct sample_parsers_cache_free as (Hxml & Hact & _). split; assumption.
Qed.

Lemma fetch_from_cache_cache_error_witness :
  outcome (Bugzilla.run (Bugzilla.fetch_from_cache (P := sample_parsers))
             truncated_cache_connector)
  = Raise (CacheError "cache is exhausted but more items were expected")
  /\ outcome (Bugzilla.run (Bugzilla.fetch_from_cache (P := sample_parsers))
                no_cache_connector)
     = Raise (CacheError "cache instance was not provided")
  /\ exists c,
       outcome (Bugzilla.run (Bugzilla.fetch_from_cache (P := sample_parsers))
                  unreadable_cache_connector)
       = Raise (CacheError c).
Proof.
  split; [| split].
  - destruct (fetch_from_cache_cache_error (P := sample_parsers)
                truncated_cache_connector sample_parsers_replay_free)
      as (_ & _ & Hstarved & _).
    apply (Hstarved [["xml: 15, 18"; "html: no changes"]] eq_refl eq_refl).
    eapply starved_next; [reflexivity |].
    eapply starved_later; [| apply starved_now].
    exists []. split; [reflexivity |]. split; [reflexivity |].
    eexists. reflexivity.
  - destruct (fetch_from_cache_cache_error (P := sample_parsers)
                no_cache_connector sample_parsers_replay_free)
      as (_ & Hnone & _).
    apply Hnone. reflexivity.
  - destruct (fetch_from_cache_cache_error (P := sample_parsers)
                unreadable_cache_connector sample_parsers_replay_free)
      as (_ & _ & _ & Hunreadable).
    apply (Hunreadable [] eq_refl eq_refl).
Defined.

(** C4 as it is stated does not hold of a cache whose storage cannot be
    read: the connector has a cache, the cache holds no bug whose
    activity could be missing, and [fetch_from_cache] raises the
    [CacheError] of [retrieve]. *)
Lemma fetch_from_cache_on_unreadable_cache :
  (exists c,
      outcome (Bugzilla.run (Bugzilla.fetch_from_cache (P := sample_parsers))
                 unreadable_cache_connector)
      = Raise (CacheError c))
  /\ Bugzilla.cache unreadable_cache_connector = Some []
  /\ ~ starved (P := sample_parsers) [] (List.concat (@nil (list Bugzilla.raw))).
Proof.
  split; [eexists; vm_compute; reflexivity |].
  split; [reflexivity |].
  cbn [List.concat]. apply nothing_starves_without_blocks.
Qed.

(** ** The Bugzilla connector: fetch, then replay *)

Section RoundTrip.
Context {P : Bugzilla.Parsers}.

Lemma bind_inv_ok {S A B} (m : Py.M S A) (f : A -> Py.M S B) st b st' :
  bind m f st = (Ok b, st') ->
  exists a st1, m st = (Ok a, st1) /\ f a st1 = (Ok b, st').
Proof.
  unfold bind. destruct (m st) as [[a | e] st1]; intros H; [| discriminate].
  exists a, st1. split; [reflexivity | exact H].
Qed.

Lemma lift_inv_ok {S A} (r : result A) (st st' : S) a :
  lift r st = (Ok a, st') -> r = Ok a /\ st' = st.
Proof. unfold lift. intros H. injection H as -> ->. split; reflexivity. Qed.

Lemma call_inv_ok (cgi : string) params (st st' : Bugzilla.bugzilla) body :
  Bugzilla.call cgi params st = (Ok body, st') ->
  exists rest,
    Bugzilla.responses st = Bugzilla.Body body :: rest
    /\ st' = Bugzilla.set_responses rest
               (Bugzilla.set_requests
                  (Bugzilla.requests st ++ [Bugzilla.mk_request cgi params]) st).
Proof.
  unfold Bugzilla.call. unfold bind at 1. cbn [modify].
  unfold bind at 1. cbn [get Bugzilla.responses Bugzilla.set_requests].
  destruct (Bugzilla.responses st) as [| [text | status] rest].
  - discriminate.
  - unfold bind at 1. cbn [modify]. unfold ret. intros H. injection H as <- <-.
    exists rest. split; reflexivity.
  - unfold bind at 1. cbn [modify]. discriminate.
Qed.

(** One bug of a live fetch that succeeds: its activity block is queued
    for the cache, and the block replays to the item that was yielded. *)
Lemma fetch_bug_stamped (bug : pyval) (st st1 : Bugzilla.bugzilla) :
  Bugzilla.fetch_bug with_metadata bug st = (Ok tt, st1) ->
  exists raw_activity data item,
    Bugzilla.cache st1 = Bugzilla.cache st
    /\ Bugzilla.cache_queue st1 = queued st [raw_activity]
    /\ replays bug raw_activity data
    /\ Bugzilla.yielded st1 = Bugzilla.yielded st ++ [item]
    /\ stamped (Bugzilla.origin st) data item
    /\ Bugzilla.origin st1 = Bugzilla.origin st
    /\ Bugzilla.max_bugs st1 = Bugzilla.max_bugs st.
Proof.
  unfold Bugzilla.fetch_bug. intros Hrun.
  apply bind_inv_ok in Hrun. destruct Hrun as (bug_id & s1 & Hid & Hrun).
  apply lift_inv_ok in Hid. destruct Hid as [_ ->].
  apply bind_inv_ok in Hrun. destruct Hrun as (activity & s2 & Hact & Hrun).
  unfold Bugzilla.__fetch_and_parse_bug_activity in Hact.
  apply bind_inv_ok in Hact. destruct Hact as (raw_activity & s3 & Hcall & Hact).
  unfold Bugzilla.client_bug_activity in Hcall.
  apply call_inv_ok in Hcall. destruct Hcall as (rest & Hresp & ->).
  apply bind_inv_ok in Hact. destruct Hact as ([] & s4 & Hpush & Hact).
  rewrite push_cache_queue_eq in Hpush. injection Hpush as <-.
  apply lift_inv_ok in Hact. destruct Hact as [Hparse ->].
  apply bind_inv_ok in Hrun. destruct Hrun as (data & s5 & Hset & Hrun).
  apply lift_inv_ok in Hset. destruct Hset as [Hset ->].
  match type of Hrun with with_metadata data ?t = _ => set (s := t) in * end.
  destruct (with_metadata_cases data s)
    as [(item & s' & Hd & Hw & Hy & Hf) | (e & s' & Hd & _)];
    rewrite Hd in Hrun; [| discriminate].
  injection Hrun as <-.
  destruct Hf as (Ho & Hm & Hc & Hq & _).
  exists raw_activity, data, item.
  split; [rewrite Hc; reflexivity |].
  split; [rewrite Hq; reflexivity |].
  split.
  { exists activity. split; [exact Hparse |]. split; [exact Hset |].
    destruct Hw as (ts & t & Ht & _). exists t. exact Ht. }
  split; [rewrite Hy; reflexivity |].
  split; [exact Hw |].
  split; [rewrite Ho; reflexivity | rewrite Hm; reflexivity].
Qed.

Lemma queued_nil (st : Bugzilla.bugzilla) : queued st [] = Bugzilla.cache_queue st.
Proof. unfold queued. destruct (Bugzilla.cache st); [apply app_nil_r | reflexivity]. Qed.

(** The bugs of one details block of a live fetch that succeeds. *)
Lemma fetch_bugs_stamped (bugs : list pyval) :
  forall (st st1 : Bugzilla.bugzilla),
    for_each bugs (Bugzilla.fetch_bug with_metadata) st = (Ok tt, st1) ->
    exists acts datas ys,
      Bugzilla.cache st1 = Bugzilla.cache st
      /\ Bugzilla.cache_queue st1 = queued st acts
      /\ (forall more datas',
            replayed [] more datas' ->
            replayed bugs (acts ++ more) (datas ++ datas'))
      /\ Bugzilla.yielded st1 = Bugzilla.yielded st ++ ys
      /\ Forall2 (stamped (Bugzilla.origin st)) datas ys
      /\ Bugzilla.origin st1 = Bugzilla.origin st
      /\ Bugzilla.max_bugs st1 = Bugzilla.max_bugs st
      /\ List.length acts = List.length datas.
Proof.
  induction bugs as [| bug bugs IH]; intros st st1 Hrun.
  - cbn in Hrun. injection Hrun as <-.
    exists [], [], []. rewrite queued_nil, app_nil_r.
    repeat split; try reflexivity; [intros more datas' H; exact H | constructor].
  - cbn [for_each] in Hrun.
    apply bind_inv_ok in Hrun. destruct Hrun as ([] & s1 & Hbug & Hrun).
    destruct (fetch_bug_stamped bug st s1 Hbug)
      as (act & data & item & Hc & Hq & Hrep & Hy & Hw & Ho & Hm).
    destruct (IH s1 st1 Hrun)
      as (acts & datas & ys & Hc' & Hq' & Htr & Hy' & Hws & Ho' & Hm' & Hlen).
    rewrite Ho in *.
    exists (act :: acts), (data :: datas), (item :: ys).
    split; [congruence |].
    split; [rewrite Hq'; exact (queued_twice st s1 [act] acts Hc Hq) |].
    split.
    { intros more datas' Hmore. cbn [app].
      apply replayed_bug; [exact Hrep | apply Htr; exact Hmore]. }
    split; [rewrite Hy', Hy, <- app_assoc; reflexivity |].
    split; [constructor; assumption |].
    split; [congruence |]. split; [congruence |].
    cbn [List.length]. rewrite Hlen. reflexivity.
Qed.

(** One chunk of a live fetch that succeeds: the cache receives one
    unit, which replays to the items that were yielded. *)
Lemma fetch_chunk_stamped (buglist : list pyval) (i : nat)
    (st st1 : Bugzilla.bugzilla) units :
  Bugzilla.cache st = Some units ->
  Bugzilla.cache_queue st = [] ->
  Bugzilla.fetch_chunk with_metadata buglist i st = (Ok tt, st1) ->
  exists unit datas ys,
    Bugzilla.cache st1 = Some (units ++ [unit])
    /\ Bugzilla.cache_queue st1 = []
    /\ (forall more datas',
          replayed [] more datas' ->
          replayed [] (unit ++ more) (datas ++ datas'))
    /\ Bugzilla.yielded st1 = Bugzilla.yielded st ++ ys
    /\ Forall2 (stamped (Bugzilla.origin st)) datas ys
    /\ Bugzilla.origin st1 = Bugzilla.origin st
    /\ Bugzilla.max_bugs st1 = Bugzilla.max_bugs st
    /\ List.length unit = S (List.length datas).
Proof.
  intros Hcache Hq0 Hrun. unfold Bugzilla.fetch_chunk in Hrun.
  apply bind_inv_ok in Hrun. destruct Hrun as (s0 & s0' & Hget & Hrun).
  cbn [get] in Hget. injection Hget as <- <-.
  apply bind_inv_ok in Hrun. destruct Hrun as (bugs_ids & s1 & Hids & Hrun).
  apply lift_inv_ok in Hids. destruct Hids as [_ ->].
  apply bind_inv_ok in Hrun. destruct Hrun as (parsed & s2 & Hdet & Hrun).
  unfold Bugzilla.__fetch_and_parse_bugs_details in Hdet.
  apply bind_inv_ok in Hdet. destruct Hdet as (raw_bugs & s3 & Hcall & Hdet).
  unfold Bugzilla.client_bugs in Hcall.
  apply call_inv_ok in Hcall. destruct Hcall as (rest & Hresp & ->).
  apply bind_inv_ok in Hdet. destruct Hdet as ([] & s4 & Hpush & Hdet).
  rewrite push_cache_queue_eq in Hpush. injection Hpush as <-.
  unfold ret in Hdet. injection Hdet as <- <-.
  apply bind_inv_ok in Hrun. destruct Hrun as (bugs & s5 & Hparse & Hrun).
  apply lift_inv_ok in Hparse. destruct Hparse as [Hparse ->].
  apply bind_inv_ok in Hrun. destruct Hrun as ([] & s6 & Hloop & Hrun).
  match type of Hloop with for_each _ _ ?t = _ => set (s := t) in * end.
  destruct (fetch_bugs_stamped bugs s s6 Hloop)
    as (acts & datas & ys & Hc & Hq & Htr & Hy & Hws & Ho & Hm & Hlen).
  assert (Hcs : Bugzilla.cache s = Some units) by exact Hcache.
  assert (Hqs : Bugzilla.cache_queue s = [raw_bugs]).
  { subst s. cbn [Bugzilla.cache_queue Bugzilla.set_cache_queue]. unfold queued.
    cbn [Bugzilla.cache Bugzilla.set_responses Bugzilla.set_requests
         Bugzilla.cache_queue].
    rewrite Hcache, Hq0. reflexivity. }
  unfold Bugzilla._flush_cache_queue in Hrun.
  apply bind_inv_ok in Hrun. destruct Hrun as (s7 & s7' & Hget & Hrun).
  cbn [get] in Hget. injection Hget as <- <-.
  rewrite Hc, Hcs in Hrun.
  unfold bind at 1 in Hrun. cbn [modify] in Hrun.
  unfold Bugzilla._purge_cache_queue in Hrun. cbn [modify] in Hrun.
  injection Hrun as <-.
  exists (raw_bugs :: acts), datas, ys.
  cbn [Bugzilla.cache Bugzilla.cache_queue Bugzilla.yielded Bugzilla.origin
       Bugzilla.max_bugs Bugzilla.set_cache Bugzilla.set_cache_queue].
  split.
  { rewrite Hq. unfold queued. rewrite Hcs, Hqs. reflexivity. }
  split; [reflexivity |].
  split.
  { intros more datas' Hmore. cbn [app].
    apply replayed_next with (bugs := bugs); [exact Hparse |].
    apply Htr. exact Hmore. }
  split; [exact Hy |].
  split; [exact Hws |].
  split; [exact Ho |]. split; [exact Hm |].
  cbn [List.length]. rewrite Hlen. reflexivity.
Qed.

(** The chunks of a live fetch that succeeds. *)
Lemma fetch_chunks_stamped (buglist : list pyval) (idx : list nat) :
  forall (st st1 : Bugzilla.bugzilla) units,
    Bugzilla.cache st = Some units ->
    Bugzilla.cache_queue st = [] ->
    for_each idx (Bugzilla.fetch_chunk with_metadata buglist) st = (Ok tt, st1) ->
    exists new datas ys,
      Bugzilla.cache st1 = Some (units ++ new)
      /\ (forall more datas',
            replayed [] more datas' ->
            replayed [] (List.concat new ++ more) (datas ++ datas'))
      /\ Bugzilla.yielded st1 = Bugzilla.yielded st ++ ys
      /\ Forall2 (stamped (Bugzilla.origin st)) datas ys
      /\ Bugzilla.origin st1 = Bugzilla.origin st.
Proof.
  induction idx as [| i idx IH]; intros st st1 units Hcache Hq0 Hrun.
  - cbn in Hrun. injection Hrun as <-.
    exists [], [], []. rewrite !app_nil_r.
    repeat split; try assumption; [intros more datas' H; exact H | constructor].
  - cbn [for_each] in Hrun.
    apply bind_inv_ok in Hrun. destruct Hrun as ([] & s1 & Hchunk & Hrun).
    destruct (fetch_chunk_stamped buglist i st s1 units Hcache Hq0 Hchunk)
      as (unit & datas & ys & Hc & Hq & Htr & Hy & Hws & Ho & Hm & _).
    destruct (IH s1 st1 (units ++ [unit]) Hc Hq Hrun)
      as (new & datas2 & ys2 & Hc' & Htr' & Hy' & Hws' & Ho').
    rewrite Ho in *.
    exists (unit :: new), (datas ++ datas2), (ys ++ ys2).
    split; [rewrite Hc', <- app_assoc; reflexivity |].
    split.
    { intros more datas' Hmore. cbn [List.concat]. rewrite <- !app_assoc.
      apply Htr. apply Htr'. exact Hmore. }
    split; [rewrite Hy', Hy, <- app_assoc; reflexivity |].
    split; [apply Forall2_app; assumption |].
    congruence.
Qed.

(** *** The enumeration of the bug list touches neither the cache nor
    the items yielded *)

Lemma preserves_bind {A B} (m : Bugzilla.M A) (f : A -> Bugzilla.M B) :
  preserves client_only m ->
  (forall a, preserves client_only (f a)) ->
  preserves client_only (bind m f).
Proof.
  intros Hm Hf st. unfold bind. specialize (Hm st).
  destruct (m st) as [[a | e] st1]; cbn [snd] in *; [| exact Hm].
  eapply client_only_trans; [exact Hm | apply Hf].
Qed.

Lemma preserves_still {A} (m : Bugzilla.M A) :
  (forall st, snd (m st) = st) -> preserves client_only m.
Proof. intros Hm st. rewrite Hm. apply client_only_refl. Qed.

Lemma call_preserves cgi params : preserves client_only (Bugzilla.call cgi params).
Proof.
  intros st. unfold Bugzilla.call. unfold bind at 1. cbn [modify].
  unfold bind at 1. cbn [get Bugzilla.responses Bugzilla.set_requests].
  destruct (Bugzilla.responses st) as [| [text | status] rest];
    [| unfold bind at 1; cbn [modify] ..]; repeat split.
Qed.

Lemma fetch_page_preserves d :
  preserves client_only (Bugzilla.__fetch_and_parse_buglist_page d).
Proof.
  unfold Bugzilla.__fetch_and_parse_buglist_page.
  apply preserves_bind; [| intros; apply preserves_still; reflexivity].
  unfold Bugzilla.client_buglist.
  apply preserves_bind; [apply preserves_still; reflexivity |]. intros st0.
  apply preserves_bind.
  - destruct (Bugzilla.version_known (Bugzilla.version st0));
      [apply preserves_still; reflexivity |].
    apply preserves_bind.
    + unfold Bugzilla.__fetch_version. apply preserves_bind; [apply call_preserves |].
      intros response. destruct (Bugzilla.match_version response);
        apply preserves_still; reflexivity.
    + intros v st. repeat split.
  - intros _. apply preserves_bind; [apply preserves_still; reflexivity |].
    intros st1. apply call_preserves.
Qed.

Lemma fetch_buglist_loop_preserves (fuel : nat) :
  forall buglist, preserves client_only (Bugzilla.fetch_buglist_loop fuel buglist).
Proof.
  induction fuel as [| fuel IHfuel]; intros buglist.
  - apply preserves_still. reflexivity.
  - induction buglist as [| bug buglist IH].
    + rewrite loop_nil. apply preserves_still. reflexivity.
    + destruct buglist as [| next buglist].
      * rewrite loop_last.
        apply preserves_bind; [apply preserves_still; reflexivity |]. intros last_date.
        apply preserves_bind; [apply preserves_still; reflexivity |]. intros from_date.
        apply preserves_bind; [apply fetch_page_preserves |]. intros page.
        apply preserves_bind; [apply IHfuel |]. intros tail.
        apply preserves_still. reflexivity.
      * rewrite loop_more.
        apply preserves_bind; [apply preserves_still; reflexivity |]. intros last_date.
        apply preserves_bind; [exact IH |]. intros tail.
        apply preserves_still. reflexivity.
Qed.

Lemma fetch_buglist_preserves d : preserves client_only (Bugzilla.__fetch_buglist d).
Proof.
  unfold Bugzilla.__fetch_buglist.
  apply preserves_bind; [apply fetch_page_preserves |]. intros page.
  apply preserves_bind; [apply preserves_still; reflexivity |]. intros st.
  apply fetch_buglist_loop_preserves.
Qed.

(** *** The replay of blocks that a live fetch has stored *)

Lemma stamped_same_origin (origin origin' : string) (data item : pyval) :
  origin' = origin -> stamped origin' data item -> stamped origin data item.
Proof. intros ->. exact (fun H => H). Qed.

Lemma replayed_resume pending items datas :
  replayed pending items datas ->
  forall (fuel : nat) (st : Bugzilla.bugzilla),
    (List.length items < fuel)%nat ->
    exists st' ys,
      resume fuel pending items st = (Ok tt, st')
      /\ Bugzilla.yielded st' = Bugzilla.yielded st ++ ys
      /\ Forall2 (stamped (Bugzilla.origin st)) datas ys
      /\ consumer_only st st'.
Proof.
  induction 1 as [| bug pending raw_activity items data datas
                     (activity & Hx & Hset & Hw) _ IH
                 | raw_bugs bugs items datas Hx _ IH];
    intros fuel st Hfuel.
  - rewrite resume_nil. destruct fuel as [| fuel]; [cbn in Hfuel; lia |].
    exists st, []. cbn [Bugzilla.replay_loop]. rewrite app_nil_r.
    split; [reflexivity |]. split; [reflexivity |].
    split; [constructor | apply consumer_only_refl].
  - rewrite resume_bug, Hx, Hset.
    destruct (with_metadata_stampable data st Hw) as (item & st1 & Hd & Hwi & Hy & Hf).
    rewrite Hd.
    destruct (IH fuel st1) as (st' & ys & Hrun & Hy' & Hws & Hf').
    { cbn [List.length] in Hfuel. lia. }
    exists st', (item :: ys). split; [exact Hrun |].
    split; [rewrite Hy', Hy, <- app_assoc; reflexivity |].
    split.
    { constructor; [exact Hwi |].
      destruct Hf as (Ho & _). rewrite Ho in Hws. exact Hws. }
    eapply consumer_only_trans; eassumption.
  - rewrite resume_nil. destruct fuel as [| fuel]; [lia |].
    rewrite resume_next, Hx. apply IH. cbn [List.length] in Hfuel. lia.
Qed.

(** What a record reads: the fields of the bug, and the entry of the
    decorator. *)
Lemma stamped_reads (origin : string) (data item : pyval) :
  stamped origin data item ->
  (forall key, key <> "__metadata__" -> getitem item key = getitem data key)
  /\ metadata_field "origin" item = Ok (PStr origin)
  /\ (exists updated_on,
         Bugzilla.get_update_time data = Ok updated_on
         /\ metadata_field "updated_on" item = Ok updated_on)
  /\ Bugzilla.get_update_time item = Bugzilla.get_update_time data
  /\ bug_id_text item = bug_id_text data.
Proof.
  intros (ts & t & Ht & Hitem).
  assert (Hother : forall key, key <> "__metadata__" -> getitem item key = getitem data key).
  { intros key Hne. eapply getitem_setitem_other; eassumption. }
  assert (Hentry : getitem item "__metadata__" = Ok (metadata_entry origin ts t)).
  { eapply getitem_setitem_same. exact Hitem. }
  split; [exact Hother |].
  split; [unfold metadata_field; rewrite Hentry; reflexivity |].
  split; [exists t; split; [exact Ht | unfold metadata_field; rewrite Hentry; reflexivity] |].
  split.
  - unfold Bugzilla.get_update_time. rewrite Hother by discriminate. reflexivity.
  - unfold bug_id_text. rewrite Hother by discriminate. reflexivity.
Qed.

Lemma stamped_identity (origin : string) (data a b : pyval) :
  stamped origin data a -> stamped origin data b ->
  same_record a b
  /\ records_source origin a
  /\ records_source origin b
  /\ identity_of b = identity_of a.
Proof.
  intros Ha Hb.
  destruct (stamped_reads _ _ _ Ha) as (Hka & Hoa & (ta & Hta & Hua) & Hga & Hia).
  destruct (stamped_reads _ _ _ Hb) as (Hkb & Hob & (tb & Htb & Hub) & Hgb & Hib).
  assert (tb = ta) by congruence. subst tb.
  split; [| split; [| split]].
  - split; [| split].
    + intros key Hne. rewrite Hka, Hkb by exact Hne. reflexivity.
    + rewrite Hoa, Hob. reflexivity.
    + rewrite Hua, Hub. reflexivity.
  - split; [exact Hoa |]. exists ta. split; [exact Hua | rewrite Hga; exact Hta].
  - split; [exact Hob |]. exists ta. split; [exact Hub | rewrite Hgb; exact Htb].
  - unfold identity_of. rewrite Hoa, Hob, Hia, Hib. reflexivity.
Qed.

Lemma stamped_identities (origin : string) (datas : list pyval) :
  forall ys ys',
    Forall2 (stamped origin) datas ys ->
    Forall2 (stamped origin) datas ys' ->
    List.length ys' = List.length ys
    /\ Forall2 same_record ys ys'
    /\ Forall (records_source origin) ys
    /\ Forall (records_source origin) ys'
    /\ map identity_of ys' = map identity_of ys.
Proof.
  induction datas as [| data datas IH]; intros ys ys' H1 H2.
  - inversion H1; inversion H2; subst. repeat split; constructor.
  - inversion H1 as [| ? y ? ys1 Hw1 Hrest1]; subst.
    inversion H2 as [| ? y' ? ys2 Hw2 Hrest2]; subst.
    destruct (IH _ _ Hrest1 Hrest2) as (Hl & Hs & Hr & Hr' & Hi).
    destruct (stamped_identity origin data _ _ Hw1 Hw2) as (Hs1 & Hr1 & Hr1' & Hi1).
    cbn [List.length map].
    split; [congruence |]. split; [constructor; assumption |].
    split; [constructor; assumption |]. split; [constructor; assumption |].
    congruence.
Qed.

(** C2, as the code has it.  On a connector whose cache is configured
    and holds no block yet, whatever the answers of the server, if [fetch]
    runs to its end without raising and the storage of the cache can be
    read afterwards, then [fetch_from_cache] on the same connector runs to
    its end too and yields as many records.  One record after the other,
    every field of the bug reads the same in both, activity included; the
    entry ['__metadata__'] of both carries the origin of the connector and
    the update time that the source reports for the bug; and the identity
    that the data model derives from origin and bug number is the same.
    The replay makes no call to the server. *)
Theorem fetch_then_fetch_from_cache :
  forall (st : Bugzilla.bugzilla) (from_date : option datetime)
         (ys : list pyval) (st' : Bugzilla.bugzilla),
    Bugzilla.cache st = Some [] ->
    Bugzilla.run (Bugzilla.fetch from_date) st = (ys, Ok tt, st') ->
    Bugzilla.cache_readable st' = true ->
    exists ys' st'',
      Bugzilla.run Bugzilla.fetch_from_cache st' = (ys', Ok tt, st'')
      /\ List.length ys' = List.length ys
      /\ Forall2 same_record ys ys'
      /\ Forall (records_source (Bugzilla.origin st)) ys
      /\ Forall (records_source (Bugzilla.origin st)) ys'
      /\ map identity_of ys' = map identity_of ys
      /\ Bugzilla.requests st'' = Bugzilla.requests st'
      /\ Bugzilla.responses st'' = Bugzilla.responses st'.
Proof.
  intros st from_date ys st' Hcache Hrun Hread.
  unfold Bugzilla.run, Bugzilla.fetch, Bugzilla.metadata_get_update_time in Hrun.
  change (Bugzilla.fetch_undecorated from_date
            (fun item => item <- Bugzilla.add_metadata item ;; Bugzilla.collect item))
    with (Bugzilla.fetch_undecorated from_date with_metadata) in Hrun.
  destruct (Bugzilla.fetch_undecorated from_date with_metadata (Bugzilla.set_yielded [] st))
    as [r s'] eqn:Hfetch.
  injection Hrun as <- -> <-.
  unfold Bugzilla.fetch_undecorated in Hfetch.
  apply bind_inv_ok in Hfetch. destruct Hfetch as ([] & s1 & Hpurge & Hfetch).
  unfold Bugzilla._purge_cache_queue in Hpurge. cbn [modify] in Hpurge.
  injection Hpurge as <-.
  apply bind_inv_ok in Hfetch. destruct Hfetch as (buglist & s2 & Hlist & Hfetch).
  match type of Hlist with Bugzilla.__fetch_buglist ?d ?t = _ =>
    pose proof (fetch_buglist_preserves d t) as Hframe
  end.
  rewrite Hlist in Hframe. cbn [snd] in Hframe.
  destruct Hframe as (Ho & Hm & Hc & Hq & _ & _ & Hy).
  cbn [Bugzilla.origin Bugzilla.max_bugs Bugzilla.cache Bugzilla.cache_queue
       Bugzilla.yielded Bugzilla.set_cache_queue Bugzilla.set_yielded] in Ho, Hm, Hc, Hq, Hy.
  unfold Bugzilla.fetch_details in Hfetch.
  apply bind_inv_ok in Hfetch. destruct Hfetch as (s3 & s3' & Hget & Hfetch).
  cbn [get] in Hget. injection Hget as <- <-.
  apply bind_inv_ok in Hfetch. destruct Hfetch as (idx & s4 & Hidx & Hfetch).
  apply lift_inv_ok in Hidx. destruct Hidx as [_ ->].
  destruct (fetch_chunks_stamped buglist idx s2 s' [] (eq_trans Hc Hcache) Hq Hfetch)
    as (new & datas & zs & Hc' & Htr & Hy' & Hws & Ho').
  rewrite Hy in Hy'. cbn [app] in Hc', Hy'.
  specialize (Htr [] [] replayed_done). rewrite !app_nil_r in Htr.
  rewrite run_fetch_from_cache, Hc', Hread. cbn [Bugzilla.retrieve].
  destruct (replayed_resume _ _ _ Htr
              (S (List.length (List.concat new)))
              (Bugzilla.set_yielded [] s'))
    as (s'' & ys' & Hreplay & Hy'' & Hws' & Hf).
  { lia. }
  rewrite Hreplay.
  cbn [Bugzilla.yielded Bugzilla.set_yielded app] in Hy''.
  change (Bugzilla.origin (Bugzilla.set_yielded [] s')) with (Bugzilla.origin s') in Hws'.
  rewrite Ho' in Hws'.
  exists ys', s''. rewrite Hy''. split; [reflexivity |].
  rewrite Hy'.
  destruct (stamped_identities _ datas zs ys' Hws Hws') as (Hl & Hs & Hr & Hr' & Hi).
  rewrite Ho in Hr, Hr'.
  split; [exact Hl |]. split; [exact Hs |]. split; [exact Hr |].
  split; [exact Hr' |]. split; [exact Hi |].
  destruct Hf as (_ & _ & _ & _ & _ & Hresp & Hreq & _).
  split; [exact Hreq | exact Hresp].
Qed.

End RoundTrip.

Lemma fetch_then_fetch_from_cache_witness :
  exists ys st' ys' st'',
    Bugzilla.run (Bugzilla.fetch (P := sample_parsers) None) sample_connector
    = (ys, Ok tt, st')
    /\ Bugzilla.run (Bugzilla.fetch_from_cache (P := sample_parsers)) st'
       = (ys', Ok tt, st'')
    /\ List.length ys = 3%nat
    /\ List.length ys' = List.length ys
    /\ Forall2 same_record ys ys'
    /\ Forall (records_source "http://example.com") ys'
    /\ map identity_of ys' = map identity_of ys
    /\ List.length (Bugzilla.requests st'') = 9%nat.
Proof.
  assert (Hr : outcome (Bugzilla.run (Bugzilla.fetch (P := sample_parsers) None)
                          sample_connector) = Ok tt) by (vm_compute; reflexivity).
  assert (Hlen : List.length
                   (items_of (Bugzilla.run (Bugzilla.fetch (P := sample_parsers) None)
                                sample_connector)) = 3%nat) by (vm_compute; reflexivity).
  assert (Hreqs : List.length
                    (Bugzilla.requests
                       (final (Bugzilla.run (Bugzilla.fetch (P := sample_parsers) None)
                                 sample_connector))) = 9%nat) by (vm_compute; reflexivity).
  assert (Hread : Bugzilla.cache_readable
                    (final (Bugzilla.run (Bugzilla.fetch (P := sample_parsers) None)
                              sample_connector)) = true) by (vm_compute; reflexivity).
  destruct (Bugzilla.run (Bugzilla.fetch (P := sample_parsers) None) sample_connector)
    as [[ys r] st'] eqn:Hrun.
  unfold outcome, items_of, final in Hr, Hlen, Hreqs, Hread.
  cbn [fst snd] in Hr, Hlen, Hreqs, Hread.
  subst r.
  destruct (fetch_then_fetch_from_cache (P := sample_parsers) sample_connector None
              ys st' eq_refl Hrun Hread)
    as (ys' & st'' & Hreplay & Hl & Hs & _ & Hr' & Hi & Hq & _).
  exists ys, st', ys', st''.
  split; [reflexivity |]. split; [exact Hreplay |]. split; [exact Hlen |].
  split; [exact Hl |]. split; [exact Hs |]. split; [exact Hr' |]. split; [exact Hi |].
  rewrite Hq. exact Hreqs.
Defined.

(** C2 as it is stated does not hold for every sequence of answers: when
    the second activity page of a chunk does not parse, [fetch] has
    yielded the first bug of the chunk before it raises, the cache queue
    of the chunk is never flushed, and the replay yields nothing. *)
Lemma fetch_interrupted_in_a_chunk_is_not_replayed :
  ~ (forall (P : Bugzilla.Parsers) (st : Bugzilla.bugzilla)
            (from_date : option datetime),
        Bugzilla.cache st = Some [] ->
        let live := Bugzilla.run (Bugzilla.fetch from_date) st in
        let replay := Bugzilla.run Bugzilla.fetch_from_cache (final live) in
        List.length (items_of replay) = List.length (items_of live)).
Proof.
  intros Hclaim.
  specialize (Hclaim sample_parsers failing_connector None eq_refl).
  vm_compute in Hclaim. discriminate Hclaim.
Qed.

Example fetch_interrupted_in_a_chunk :
  let live := Bugzilla.run (Bugzilla.fetch (P := sample_parsers) None) failing_connector in
  List.length (items_of live) = 1%nat
  /\ outcome live = Raise (ParseError "Table of bug activity not found.")
  /\ Bugzilla.cache (final live) = Some []
  /\ items_of (Bugzilla.run (Bugzilla.fetch_from_cache (P := sample_parsers)) (final live))
     = [].
Proof. vm_compute. repeat split. Qed.

(* ===================================================================== *)
(** * Further properties *)
(* ===================================================================== *)

(** ** The shape of an identity *)

Lemma be_bytes_length (n : nat) (x : Z) : List.length (Sha1.be_bytes n x) = n.
Proof. unfold Sha1.be_bytes. rewrite length_map, length_rev, length_seq. reflexivity. Qed.

Lemma be_bytes_range (n : nat) (x : Z) :
  Forall (fun b => 0 <= b < 256) (Sha1.be_bytes n x).
Proof.
  unfold Sha1.be_bytes. apply Forall_map. apply Forall_forall. intros i _.
  apply Z.mod_pos_bound. lia.
Qed.

Lemma digest_bytes (msg : list Z) :
  List.length (Sha1.digest msg) = 20%nat
  /\ Forall (fun b => 0 <= b < 256) (Sha1.digest msg).
Proof.
  unfold Sha1.digest.
  destruct (fold_left Sha1.compress _ Sha1.init) as [[[[h0 h1] h2] h3] h4].
  split.
  - rewrite !length_app, !be_bytes_length. reflexivity.
  - repeat (apply Forall_app; split); apply be_bytes_range.
Qed.

Lemma hex_digit_is_hex (x : Z) :
  0 <= x < 16 -> is_hex_digit (Sha1.hex_digit x) = true.
Proof.
  intros Hx.
  assert (Hcases : x = 0 \/ x = 1 \/ x = 2 \/ x = 3 \/ x = 4 \/ x = 5 \/ x = 6 \/ x = 7
                   \/ x = 8 \/ x = 9 \/ x = 10 \/ x = 11 \/ x = 12 \/ x = 13
                   \/ x = 14 \/ x = 15) by lia.
  repeat (destruct Hcases as [-> | Hcases]; [reflexivity |]).
  subst x. reflexivity.
Qed.

Lemma hex_shape (bs : list Z) :
  Forall (fun b => 0 <= b < 256) bs ->
  String.length (Sha1.hex bs) = (2 * List.length bs)%nat
  /\ forallb is_hex_digit (list_ascii_of_string (Sha1.hex bs)) = true.
Proof.
  induction 1 as [| b bs Hb _ [IHlen IHhex]]; [split; reflexivity |].
  cbn [Sha1.hex String.length List.length list_ascii_of_string forallb].
  split; [rewrite IHlen; lia |].
  rewrite IHhex, !hex_digit_is_hex; [reflexivity | |].
  - apply Z.mod_pos_bound. lia.
  - split; [apply Z.div_pos; lia | apply Z.div_lt_upper_bound; lia].
Qed.

(** X1.  Whenever [uuid] returns, the identity is a string of forty
    lowercase hexadecimal digits, whatever the number and the length of
    its arguments. *)
Theorem uuid_is_forty_hex_digits :
  forall (args : list pyval) (u : string),
    Backend.uuid args = Ok u ->
    String.length u = 40%nat
    /\ forallb is_hex_digit (list_ascii_of_string u) = true.
Proof.
  intros args u Hu. unfold Backend.uuid in Hu.
  destruct (Backend.map_check args) as [ss |]; [| discriminate].
  cbn [rbind] in Hu. unfold Backend.encode_utf8 in Hu.
  destruct (Backend.has_surrogate (Backend.join ":" ss)); [discriminate |].
  cbn [rbind] in Hu. injection Hu as <-.
  unfold Sha1.hexdigest.
  destruct (digest_bytes (Sha1.bytes_of_string (Backend.join ":" ss))) as [Hlen Hrange].
  destruct (hex_shape _ Hrange) as [Hl Hh].
  rewrite Hl, Hlen. split; [reflexivity | exact Hh].
Qed.

Lemma uuid_is_forty_hex_digits_witness :
  exists u,
    Backend.uuid [PStr "http://example.com"; PStr "15"] = Ok u
    /\ String.length u = 40%nat
    /\ forallb is_hex_digit (list_ascii_of_string u) = true.
Proof.
  exists (Sha1.hexdigest "http://example.com:15").
  split; [reflexivity |].
  apply (uuid_is_forty_hex_digits [PStr "http://example.com"; PStr "15"]).
  reflexivity.
Defined.

Lemma append_same_left (a s : string) : String.append a s = a -> s = "".
Proof.
  induction a as [| x a IH]; cbn [String.append]; [exact (fun H => H) |].
  intros H. injection H as H. exact (IH H).
Qed.

Lemma append_not_empty (a s : string) : a <> "" -> String.append a s <> "".
Proof. destruct a; [congruence | discriminate]. Qed.

(** X2.  The separator of [uuid] does not tell its arguments apart: a
    text with two [':'] is the join of two different pairs of arguments,
    cut at the first and at the second [':'], and [uuid] gives both pairs
    the same identity, the digest of that text. *)
Theorem uuid_separator_is_ambiguous :
  forall (a b c : string),
    a <> "" -> c <> "" ->
    Backend.has_surrogate (String.append a (String.append ":" (String.append b (String.append ":" c))))
    = false ->
    [String.append a (String.append ":" b); c] <> [a; String.append b (String.append ":" c)]
    /\ Backend.uuid [PStr (String.append a (String.append ":" b)); PStr c]
       = Ok (Sha1.hexdigest
               (String.append a (String.append ":" (String.append b (String.append ":" c)))))
    /\ Backend.uuid [PStr a; PStr (String.append b (String.append ":" c))]
       = Ok (Sha1.hexdigest
               (String.append a (String.append ":" (String.append b (String.append ":" c))))).
Proof.
  intros a b c Ha Hc Hs. split; [| split].
  - intros H. injection H as H _. apply append_same_left in H. discriminate H.
  - change [PStr (String.append a (String.append ":" b)); PStr c]
      with (map PStr [String.append a (String.append ":" b); c]).
    unfold Backend.uuid. rewrite map_check_ok.
    + cbn [rbind Backend.join]. rewrite !append_assoc. cbn [String.append].
      unfold Backend.encode_utf8. cbn [String.append] in Hs. rewrite Hs. reflexivity.
    + constructor; [apply append_not_empty; exact Ha |].
      constructor; [exact Hc | constructor].
  - change [PStr a; PStr (String.append b (String.append ":" c))]
      with (map PStr [a; String.append b (String.append ":" c)]).
    unfold Backend.uuid. rewrite map_check_ok.
    + cbn [rbind Backend.join]. cbn [String.append].
      unfold Backend.encode_utf8. cbn [String.append] in Hs. rewrite Hs. reflexivity.
    + constructor; [exact Ha |].
      constructor; [| constructor].
      intros H. destruct b; discriminate H.
Qed.

Lemma uuid_separator_is_ambiguous_witness :
  ["http://example.com:8080"; "15"] <> ["http://example.com"; "8080:15"]
  /\ Backend.uuid [PStr "http://example.com:8080"; PStr "15"]
     = Ok "b0cbb36ebe17e3d912c1a40cce202c8ffabed022"
  /\ Backend.uuid [PStr "http://example.com"; PStr "8080:15"]
     = Ok "b0cbb36ebe17e3d912c1a40cce202c8ffabed022".
Proof.
  assert (Hd : Sha1.hexdigest "http://example.com:8080:15"
               = "b0cbb36ebe17e3d912c1a40cce202c8ffabed022") by (vm_compute; reflexivity).
  destruct (uuid_separator_is_ambiguous "http://example.com" "8080" "15")
    as (Hne & Hu & Hu').
  - discriminate.
  - discriminate.
  - vm_compute. reflexivity.
  - cbn [String.append] in Hne, Hu, Hu'. rewrite Hd in Hu, Hu'.
    split; [exact Hne |]. split; [exact Hu | exact Hu'].
Defined.

(** ** The decorator around a sequence of items *)

Section Decorator.
Context {P : Bugzilla.Parsers}.

Lemma run_decorated_yields (datas : list pyval) (st : Bugzilla.bugzilla) :
  Bugzilla.run (Bugzilla.metadata (yields datas)) st
  = let '(r, st') := for_each datas decorated (Bugzilla.set_yielded [] st) in
    (Bugzilla.yielded st', r, st').
Proof. reflexivity. Qed.

(** One turn of the decorator on an item that it can wrap: the item is
    stamped with the reading of the clock at that turn. *)
Lemma decorated_stamp (data : pyval) (st : Bugzilla.bugzilla) :
  wraps (Bugzilla.origin st) data ->
  exists item st',
    decorated data st = (Ok tt, st')
    /\ wrapped (Bugzilla.origin st) data item
    /\ getitem item "timestamp" = Ok (PInt (Bugzilla.clock st (Bugzilla.ticks st)))
    /\ getitem item "data" = Ok data
    /\ Bugzilla.yielded st' = Bugzilla.yielded st ++ [item]
    /\ Bugzilla.ticks st' = S (Bugzilla.ticks st)
    /\ Bugzilla.clock st' = Bugzilla.clock st
    /\ Bugzilla.origin st' = Bugzilla.origin st.
Proof.
  intros (item & ts & id & u & t & Hid & Hu & Ht & _).
  unfold decorated, Bugzilla.metadata_item, Bugzilla.now, Bugzilla.collect.
  unfold bind, get, modify, ret, lift. cbn [Bugzilla.origin Bugzilla.set_ticks].
  rewrite Hid, Hu, Ht.
  eexists. eexists. split; [reflexivity |].
  split.
  { exists (Bugzilla.clock st (Bugzilla.ticks st)), id, u, t.
    repeat split; assumption. }
  repeat split.
Qed.

Lemma decorated_in_turn (datas : list pyval) :
  forall (st : Bugzilla.bugzilla),
    Forall (wraps (Bugzilla.origin st)) datas ->
    exists items st',
      for_each datas decorated st = (Ok tt, st')
      /\ Forall2 (wrapped (Bugzilla.origin st)) datas items
      /\ map (fun item => getitem item "timestamp") items
         = map (fun k => Ok (PInt (Bugzilla.clock st k)))
               (seq (Bugzilla.ticks st) (List.length datas))
      /\ map (fun item => getitem item "data") items = map (@Ok pyval) datas
      /\ Bugzilla.yielded st' = Bugzilla.yielded st ++ items
      /\ Bugzilla.origin st' = Bugzilla.origin st.
Proof.
  induction datas as [| data datas IH]; intros st Hall.
  - exists [], st. cbn. rewrite app_nil_r. repeat split. constructor.
  - apply Forall_cons_iff in Hall. destruct Hall as [Hdata Hall].
    destruct (decorated_stamp data st Hdata)
      as (item & st1 & E1 & Hw & Hts & Hd & Hy & Htk & Hck & Ho).
    rewrite <- Ho in Hall.
    destruct (IH st1 Hall) as (items & st' & E & Hws & Htss & Hds & Hys & Hos).
    exists (item :: items), st'.
    cbn [for_each]. rewrite (bind_ok _ _ _ _ _ E1), E.
    split; [reflexivity |].
    split; [constructor; [exact Hw | rewrite <- Ho; exact Hws] |].
    split.
    { cbn [map List.length seq]. rewrite Hts, Htss, Htk, Hck. reflexivity. }
    split; [cbn [map]; rewrite Hd, Hds; reflexivity |].
    split; [rewrite Hys, Hy, <- app_assoc; reflexivity | congruence].
Qed.

(** X3.  The decorator hands on one item for each item of the generator
    it is put around, in the same order: the item keeps the original
    under ['data'], carries the origin, the identity and the update time
    read from it, and is stamped with a reading of the clock of its own. *)
Theorem metadata_wraps_every_item :
  forall (datas : list pyval) (st : Bugzilla.bugzilla),
    Forall (wraps (Bugzilla.origin st)) datas ->
    exists items st',
      Bugzilla.run (Bugzilla.metadata (yields datas)) st = (items, Ok tt, st')
      /\ Forall2 (wrapped (Bugzilla.origin st)) datas items
      /\ map (fun item => getitem item "data") items = map (@Ok pyval) datas
      /\ map (fun item => getitem item "timestamp") items
         = map (fun k => Ok (PInt (Bugzilla.clock st k)))
               (seq (Bugzilla.ticks st) (List.length datas)).
Proof.
  intros datas st Hall. rewrite run_decorated_yields.
  destruct (decorated_in_turn datas (Bugzilla.set_yielded [] st) Hall)
    as (items & st' & E & Hws & Htss & Hds & Hys & _).
  exists items, st'. rewrite E. cbn [Bugzilla.yielded Bugzilla.set_yielded app] in Hys.
  rewrite Hys. repeat split; assumption.
Qed.

(** X4.  The decorator stops at the first item that it cannot wrap (its
    identity or its update time cannot be read): the items before it
    have been handed on, the exception reaches the consumer, and nothing
    that follows is handed on. *)
Theorem metadata_stops_at_first_failure :
  forall (pre post : list pyval) (bad : pyval) (st : Bugzilla.bugzilla),
    Forall (wraps (Bugzilla.origin st)) pre ->
    ~ wraps (Bugzilla.origin st) bad ->
    exists items e st',
      Bugzilla.run (Bugzilla.metadata (yields (pre ++ bad :: post))) st
      = (items, Raise e, st')
      /\ Forall2 (wrapped (Bugzilla.origin st)) pre items.
Proof.
  intros pre post bad st Hpre Hbad. rewrite run_decorated_yields.
  revert Hpre Hbad.
  change (Bugzilla.origin st) with (Bugzilla.origin (Bugzilla.set_yielded [] st)).
  assert (Hgen : forall s0,
    Forall (wraps (Bugzilla.origin s0)) pre ->
    ~ wraps (Bugzilla.origin s0) bad ->
    exists items e st',
      for_each (pre ++ bad :: post) decorated s0 = (Raise e, st')
      /\ Bugzilla.yielded st' = Bugzilla.yielded s0 ++ items
      /\ Forall2 (wrapped (Bugzilla.origin s0)) pre items).
  { clear st. induction pre as [| data pre IH]; intros s0 Hpre Hbad.
    - cbn [app for_each].
      destruct (decorated_cases bad s0)
        as [(item & st' & _ & Hw & _) | (e & st' & E & _)].
      + exfalso. apply Hbad. exists item. exact Hw.
      + exists [], e, st'. rewrite (bind_raise _ _ _ _ _ E).
        split; [reflexivity |]. split; [| constructor].
        rewrite app_nil_r.
        revert E. unfold decorated, Bugzilla.metadata_item, Bugzilla.now, Bugzilla.collect.
        unfold bind, get, modify, ret, lift.
        destruct (Bugzilla.metadata_id bad); [| intros E; injection E as _ <-; reflexivity].
        destruct (Backend.uuid _); [| intros E; injection E as _ <-; reflexivity].
        destruct (Bugzilla.get_update_time bad); [discriminate |].
        intros E; injection E as _ <-; reflexivity.
    - apply Forall_cons_iff in Hpre. destruct Hpre as [Hdata Hpre].
      destruct (decorated_stamp data s0 Hdata)
        as (item & s1 & E1 & Hw & _ & _ & Hy & _ & _ & Ho).
      rewrite <- Ho in Hpre, Hbad.
      destruct (IH s1 Hpre Hbad) as (items & e & st' & E & Hys & Hws).
      exists (item :: items), e, st'.
      cbn [app for_each]. rewrite (bind_ok _ _ _ _ _ E1), E.
      split; [reflexivity |]. split.
      + rewrite Hys, Hy, <- app_assoc. reflexivity.
      + constructor; [exact Hw | rewrite <- Ho; exact Hws]. }
  intros Hpre Hbad.
  destruct (Hgen _ Hpre Hbad) as (items & e & st' & E & Hys & Hws).
  exists items, e, st'. rewrite E.
  cbn [Bugzilla.yielded Bugzilla.set_yielded app] in Hys. rewrite Hys.
  split; [reflexivity | exact Hws].
Qed.

End Decorator.

Lemma bug_details_wraps (id delta_ts : string) :
  id <> "" ->
  Backend.has_surrogate (String.append "http://example.com:" id) = false ->
  wraps (P := sample_parsers) "http://example.com" (bug_details id delta_ts).
Proof.
  intros Hid Hs. eexists. exists 0, (PStr id). eexists. eexists.
  split; [reflexivity |]. split; [| split; reflexivity].
  unfold Backend.uuid. cbn [Backend.map_check Backend.check_value rbind].
  destruct (String.eqb_spec id ""); [contradiction |].
  cbn [String.eqb Ascii.eqb Bool.eqb rbind Backend.join String.append].
  unfold Backend.encode_utf8. cbn [String.append] in Hs. rewrite Hs. reflexivity.
Qed.

Lemma metadata_wraps_every_item_witness :
  exists items st',
    Bugzilla.run
      (Bugzilla.metadata (P := sample_parsers)
         (yields [bug_details "15" "2009-07-22 15:27:25 +0200";
                  bug_details "18" "2009-07-30 11:35:32 +0200"]))
      sample_connector
    = (items, Ok tt, st')
    /\ map (fun item => getitem item "timestamp") items = [Ok (PInt 0); Ok (PInt 1)].
Proof.
  destruct (metadata_wraps_every_item (P := sample_parsers)
              [bug_details "15" "2009-07-22 15:27:25 +0200";
               bug_details "18" "2009-07-30 11:35:32 +0200"] sample_connector)
    as (items & st' & E & _ & _ & Hts).
  - repeat (apply Forall_cons; [apply bug_details_wraps; [discriminate | reflexivity] |]).
    apply Forall_nil.
  - exists items, st'. split; [exact E | exact Hts].
Defined.

Lemma metadata_stops_at_first_failure_witness :
  exists items e st',
    Bugzilla.run
      (Bugzilla.metadata (P := sample_parsers)
         (yields ([bug_details "15" "2009-07-22 15:27:25 +0200"]
                    ++ PDict [("short_desc", PStr "no identifier")]
                    :: [bug_details "18" "2009-07-30 11:35:32 +0200"])))
      sample_connector
    = (items, Raise e, st')
    /\ List.length items = 1%nat.
Proof.
  destruct (metadata_stops_at_first_failure (P := sample_parsers)
              [bug_details "15" "2009-07-22 15:27:25 +0200"]
              [bug_details "18" "2009-07-30 11:35:32 +0200"]
              (PDict [("short_desc", PStr "no identifier")]) sample_connector)
    as (items & e & st' & E & Hws).
  - repeat (apply Forall_cons; [apply bug_details_wraps; [discriminate | reflexivity] |]).
    apply Forall_nil.
  - intros (item & ts & id & u & t & Hid & _). discriminate.
  - exists items, e, st'. split; [exact E |].
    apply Forall2_length in Hws. symmetry. exact Hws.
Defined.

(** ** What a fetch keeps *)

Section Kept.
Context {P : Bugzilla.Parsers}.
Variable R : Bugzilla.bugzilla -> Bugzilla.bugzilla -> Prop.
Hypothesis R_refl : forall st, R st st.
Hypothesis R_trans : forall st1 st2 st3, R st1 st2 -> R st2 st3 -> R st1 st3.

Lemma kept_bind {A B} (m : Bugzilla.M A) (f : A -> Bugzilla.M B) :
  preserves R m -> (forall a, preserves R (f a)) -> preserves R (bind m f).
Proof.
  intros Hm Hf st. unfold bind. specialize (Hm st).
  destruct (m st) as [[a | e] st1]; cbn [snd] in *; [| exact Hm].
  eapply R_trans; [exact Hm | apply Hf].
Qed.

Lemma kept_still {A} (m : Bugzilla.M A) :
  (forall st, snd (m st) = st) -> preserves R m.
Proof. intros Hm st. rewrite Hm. apply R_refl. Qed.

Lemma kept_modify (f : Bugzilla.bugzilla -> Bugzilla.bugzilla) :
  (forall st, R st (f st)) -> preserves R (modify f).
Proof. intros Hf st. apply Hf. Qed.

Lemma kept_for_each {A} (body : A -> Bugzilla.M unit) (l : list A) :
  (forall x, In x l -> preserves R (body x)) -> preserves R (for_each l body).
Proof.
  induction l as [| x l IH]; intros Hbody.
  - apply kept_still. reflexivity.
  - cbn [for_each]. apply kept_bind; [apply Hbody; left; reflexivity |].
    intros _. apply IH. intros y Hy. apply Hbody. right. exact Hy.
Qed.

(** The replay reads the cache and hands items on: it keeps whatever
    the decorator and the consumer keep. *)
Section KeptByReplay.
Hypothesis R_ticks : forall n st, R st (Bugzilla.set_ticks n st).
Hypothesis R_collect : forall item st,
  R st (Bugzilla.set_yielded (Bugzilla.yielded st ++ [item]) st).
Hypothesis R_reset : forall st, R st (Bugzilla.set_yielded [] st).

Lemma with_metadata_kept (bug : pyval) : preserves R (with_metadata bug).
Proof.
  unfold with_metadata, Bugzilla.add_metadata, Bugzilla.now, Bugzilla.collect.
  apply kept_bind; [| intros item; apply kept_modify; intros st; apply R_collect].
  apply kept_bind; [apply kept_still; reflexivity |]. intros st0.
  apply kept_bind.
  { apply kept_bind; [apply kept_still; reflexivity |]. intros st1.
    apply kept_bind; [apply kept_modify; intros st; apply R_ticks |].
    intros _. apply kept_still. reflexivity. }
  intros timestamp.
  apply kept_bind; [apply kept_still; reflexivity |]. intros updated_on.
  apply kept_still. reflexivity.
Qed.

Lemma replay_bugs_kept (bugs : list pyval) :
  forall cache_items, preserves R (Bugzilla.replay_bugs with_metadata bugs cache_items).
Proof.
  induction bugs as [| bug bugs IH]; intros cache_items.
  - apply kept_still. reflexivity.
  - cbn [Bugzilla.replay_bugs].
    destruct cache_items as [| raw_activity cache_items];
      [apply kept_still; reflexivity |].
    apply kept_bind; [apply kept_still; reflexivity |]. intros activity.
    apply kept_bind; [apply kept_still; reflexivity |]. intros bug'.
    apply kept_bind; [apply with_metadata_kept |]. intros _. apply IH.
Qed.

Lemma replay_loop_kept (fuel : nat) :
  forall cache_items, preserves R (Bugzilla.replay_loop fuel with_metadata cache_items).
Proof.
  induction fuel as [| fuel IH]; intros cache_items.
  - apply kept_still. reflexivity.
  - cbn [Bugzilla.replay_loop].
    destruct cache_items as [| raw_bugs cache_items];
      [apply kept_still; reflexivity |].
    apply kept_bind; [apply kept_still; reflexivity |]. intros bugs.
    apply kept_bind; [apply replay_bugs_kept |]. intros rest. apply IH.
Qed.

Lemma fetch_from_cache_kept (st : Bugzilla.bugzilla) :
  R st (final (Bugzilla.run Bugzilla.fetch_from_cache st)).
Proof.
  unfold Bugzilla.run, final.
  assert (Hk : preserves R (Bugzilla.fetch_from_cache Bugzilla.collect)).
  { change (Bugzilla.fetch_from_cache Bugzilla.collect)
      with (Bugzilla.fetch_from_cache_undecorated with_metadata).
    unfold Bugzilla.fetch_from_cache_undecorated.
    apply kept_bind; [apply kept_still; reflexivity |]. intros st0.
    destruct (Bugzilla.cache st0); [| apply kept_still; reflexivity].
    apply kept_bind; [apply kept_still; reflexivity |]. intros cache_items.
    apply replay_loop_kept. }
  specialize (Hk (Bugzilla.set_yielded [] st)).
  destruct (Bugzilla.fetch_from_cache Bugzilla.collect (Bugzilla.set_yielded [] st))
    as [r st'].
  cbn [snd] in *. eapply R_trans; [apply R_reset | exact Hk].
Qed.

End KeptByReplay.

(** The live fetch: what is kept by every step that the connector takes
    is kept by the fetch, however it ends. *)
Section KeptByFetch.
Hypothesis R_max_bugs : forall st st', R st st' -> Bugzilla.max_bugs st' = Bugzilla.max_bugs st.
Hypothesis R_ticks : forall n st, R st (Bugzilla.set_ticks n st).
Hypothesis R_collect : forall item st,
  R st (Bugzilla.set_yielded (Bugzilla.yielded st ++ [item]) st).
Hypothesis R_reset : forall st, R st (Bugzilla.set_yielded [] st).
Hypothesis R_responses : forall r st, R st (Bugzilla.set_responses r st).
Hypothesis R_version : forall v st, R st (Bugzilla.set_version v st).
Hypothesis R_queue : forall q st, R st (Bugzilla.set_cache_queue q st).
Hypothesis R_store : forall units st,
  Bugzilla.cache st = Some units ->
  R st (Bugzilla.set_cache (Some (Bugzilla.store units (Bugzilla.cache_queue st))) st).
Hypothesis R_buglist : forall order d st, R st (requested (buglist_request order d) st).
Hypothesis R_metadata : forall st, R st (requested metadata_request st).
Hypothesis R_activity : forall id st, R st (requested (activity_request id) st).
Hypothesis R_details : forall ids st,
  (1 <= List.length ids <= Bugzilla.max_bugs st)%nat ->
  R st (requested (details_request ids) st).

Lemma call_kept (cgi : string) params (st : Bugzilla.bugzilla) :
  R st (requested (Bugzilla.mk_request cgi params) st) ->
  R st (snd (Bugzilla.call cgi params st)).
Proof.
  intros Hreq. unfold Bugzilla.call. unfold bind at 1. cbn [modify].
  unfold bind at 1. cbn [get Bugzilla.responses Bugzilla.set_requests].
  fold (requested (Bugzilla.mk_request cgi params) st).
  destruct (Bugzilla.responses st) as [| [text | status] rest];
    [exact Hreq | unfold bind at 1; cbn [modify snd ret raise] ..];
    (eapply R_trans; [exact Hreq | apply R_responses]).
Qed.

Lemma push_kept (item : Bugzilla.raw) : preserves R (Bugzilla._push_cache_queue item).
Proof.
  intros st. unfold Bugzilla._push_cache_queue, bind, get.
  destruct (Bugzilla.cache st); [apply R_queue | apply R_refl].
Qed.

Lemma flush_kept : preserves R Bugzilla._flush_cache_queue.
Proof.
  intros st. unfold Bugzilla._flush_cache_queue. unfold bind at 1. cbn [get].
  destruct (Bugzilla.cache st) as [units |] eqn:Hc; [| apply R_refl].
  unfold bind, modify, Bugzilla._purge_cache_queue. cbn [snd].
  eapply R_trans; [apply (R_store units st Hc) | apply R_queue].
Qed.

Lemma fetch_page_kept d : preserves R (Bugzilla.__fetch_and_parse_buglist_page d).
Proof.
  unfold Bugzilla.__fetch_and_parse_buglist_page.
  apply kept_bind; [| intros; apply kept_still; reflexivity].
  unfold Bugzilla.client_buglist.
  apply kept_bind; [apply kept_still; reflexivity |]. intros st0.
  apply kept_bind.
  - destruct (Bugzilla.version_known (Bugzilla.version st0));
      [apply kept_still; reflexivity |].
    apply kept_bind.
    + unfold Bugzilla.__fetch_version. apply kept_bind.
      * intros st. apply call_kept. apply R_metadata.
      * intros response. destruct (Bugzilla.match_version response);
          apply kept_still; reflexivity.
    + intros v. apply kept_modify. intros st. apply R_version.
  - intros _. apply kept_bind; [apply kept_still; reflexivity |].
    intros st1 st. apply call_kept. apply R_buglist.
Qed.

Lemma fetch_buglist_loop_kept (fuel : nat) :
  forall buglist, preserves R (Bugzilla.fetch_buglist_loop fuel buglist).
Proof.
  induction fuel as [| fuel IHfuel]; intros buglist.
  - apply kept_still. reflexivity.
  - induction buglist as [| bug buglist IH].
    + rewrite loop_nil. apply kept_still. reflexivity.
    + destruct buglist as [| next buglist].
      * rewrite loop_last.
        apply kept_bind; [apply kept_still; reflexivity |]. intros last_date.
        apply kept_bind; [apply kept_still; reflexivity |]. intros from_date.
        apply kept_bind; [apply fetch_page_kept |]. intros page.
        apply kept_bind; [apply IHfuel |]. intros tail.
        apply kept_still. reflexivity.
      * rewrite loop_more.
        apply kept_bind; [apply kept_still; reflexivity |]. intros last_date.
        apply kept_bind; [exact IH |]. intros tail.
        apply kept_still. reflexivity.
Qed.

Lemma fetch_buglist_kept d : preserves R (Bugzilla.__fetch_buglist d).
Proof.
  unfold Bugzilla.__fetch_buglist.
  apply kept_bind; [apply fetch_page_kept |]. intros page.
  apply kept_bind; [apply kept_still; reflexivity |]. intros st.
  apply fetch_buglist_loop_kept.
Qed.

Lemma fetch_bug_kept (bug : pyval) :
  preserves R (Bugzilla.fetch_bug with_metadata bug).
Proof.
  unfold Bugzilla.fetch_bug.
  apply kept_bind; [apply kept_still; reflexivity |]. intros bug_id.
  apply kept_bind.
  { unfold Bugzilla.__fetch_and_parse_bug_activity.
    apply kept_bind.
    - intros st. apply call_kept. apply R_activity.
    - intros raw_activity. apply kept_bind; [apply push_kept |].
      intros _. apply kept_still. reflexivity. }
  intros activity.
  apply kept_bind; [apply kept_still; reflexivity |]. intros bug'.
  apply with_metadata_kept; assumption.
Qed.

Lemma slice_length {A} (l : list A) (i K : nat) :
  (i < List.length l)%nat -> (1 <= K)%nat ->
  (1 <= List.length (Bugzilla.slice l i (i + K)) <= K)%nat.
Proof.
  intros Hi HK. unfold Bugzilla.slice.
  rewrite length_firstn, length_skipn. lia.
Qed.

Lemma fetch_chunk_kept (buglist : list pyval) (i : nat) (st : Bugzilla.bugzilla) :
  (i < List.length buglist)%nat ->
  (1 <= Bugzilla.max_bugs st)%nat ->
  R st (snd (Bugzilla.fetch_chunk with_metadata buglist i st)).
Proof.
  intros Hi HK. unfold Bugzilla.fetch_chunk. unfold bind at 1. cbn [get].
  unfold bind at 1. unfold lift at 1.
  destruct (map_result (fun b => getitem b "bug_id")
              (Bugzilla.slice buglist i (i + Bugzilla.max_bugs st)))
    as [bugs_ids |] eqn:Hids; [| apply R_refl].
  apply map_result_length in Hids.
  pose proof (slice_length buglist i (Bugzilla.max_bugs st) Hi HK) as Hlen.
  rewrite <- Hids in Hlen.
  unfold bind at 1. unfold Bugzilla.__fetch_and_parse_bugs_details.
  unfold bind at 1. unfold Bugzilla.client_bugs.
  pose proof (call_kept Bugzilla.CGI_BUG
                [("id", PList bugs_ids); ("ctype", PStr "xml");
                 ("excludefield", PStr "attachmentdata")] st
                (R_details bugs_ids st Hlen)) as Hcall.
  destruct (Bugzilla.call _ _ st) as [[raw_bugs | e] st1]; cbn [snd] in Hcall;
    [| exact Hcall].
  eapply R_trans; [exact Hcall |].
  apply (kept_bind
           (Bugzilla._push_cache_queue raw_bugs ;;
            ret (Bugzilla.parse_bugs_details raw_bugs))).
  - apply kept_bind; [apply push_kept |]. intros _. apply kept_still. reflexivity.
  - intros bugs. apply kept_bind; [apply kept_still; reflexivity |]. intros bugs'.
    apply kept_bind; [| intros _; apply flush_kept].
    apply kept_for_each. intros bug _. apply fetch_bug_kept.
Qed.

Lemma range_from_below (stop step : nat) :
  forall fuel i x, In x (Bugzilla.range_from fuel i stop step) -> (x < stop)%nat.
Proof.
  induction fuel as [| fuel IH]; intros i x Hx; [destruct Hx |].
  cbn [Bugzilla.range_from] in Hx.
  destruct (i <? stop)%nat eqn:Hlt; [| destruct Hx].
  destruct Hx as [<- | Hx]; [apply Nat.ltb_lt; exact Hlt | exact (IH _ _ Hx)].
Qed.

Lemma fetch_chunks_kept (buglist : list pyval) (idx : list nat) :
  (forall i, In i idx -> (i < List.length buglist)%nat) ->
  forall st,
    (1 <= Bugzilla.max_bugs st)%nat ->
    R st (snd (for_each idx (Bugzilla.fetch_chunk with_metadata buglist) st)).
Proof.
  induction idx as [| i idx IH]; intros Hidx st HK; [apply R_refl |].
  cbn [for_each]. unfold bind.
  pose proof (fetch_chunk_kept buglist i st (Hidx i (or_introl eq_refl)) HK) as Hc.
  destruct (Bugzilla.fetch_chunk with_metadata buglist i st) as [[[] | e] st1];
    cbn [snd] in *; [| exact Hc].
  eapply R_trans; [exact Hc |].
  apply IH.
  - intros j Hj. apply Hidx. right. exact Hj.
  - rewrite (R_max_bugs _ _ Hc). exact HK.
Qed.

Lemma fetch_details_kept (buglist : list pyval) :
  preserves R (Bugzilla.fetch_details buglist with_metadata).
Proof.
  intros st. unfold Bugzilla.fetch_details. unfold bind at 1. cbn [get].
  unfold bind at 1. unfold lift at 1. unfold Bugzilla.py_range.
  destruct (Bugzilla.max_bugs st) as [| K] eqn:HK; [apply R_refl |].
  apply fetch_chunks_kept.
  - intros i Hi. eapply range_from_below. exact Hi.
  - rewrite HK. lia.
Qed.

Lemma fetch_kept (from_date : option datetime) (st : Bugzilla.bugzilla) :
  R st (final (Bugzilla.run (Bugzilla.fetch from_date) st)).
Proof.
  unfold Bugzilla.run, final.
  assert (Hk : preserves R (Bugzilla.fetch from_date Bugzilla.collect)).
  { change (Bugzilla.fetch from_date Bugzilla.collect)
      with (Bugzilla.fetch_undecorated from_date with_metadata).
    unfold Bugzilla.fetch_undecorated.
    apply kept_bind; [apply kept_modify; intros s; apply R_queue |]. intros _.
    apply kept_bind; [apply fetch_buglist_kept |]. intros buglist.
    apply fetch_details_kept. }
  specialize (Hk (Bugzilla.set_yielded [] st)).
  destruct (Bugzilla.fetch from_date Bugzilla.collect (Bugzilla.set_yielded [] st))
    as [r st'].
  cbn [snd] in *. eapply R_trans; [apply R_reset | exact Hk].
Qed.

End KeptByFetch.
End Kept.

Section KeptInstances.
Context {P : Bugzilla.Parsers}.

Lemma cache_grows_refl st : cache_grows st st.
Proof.
  unfold cache_grows. destruct (Bugzilla.cache st) as [units |]; [| reflexivity].
  exists []. rewrite app_nil_r. reflexivity.
Qed.

Lemma cache_grows_trans st1 st2 st3 :
  cache_grows st1 st2 -> cache_grows st2 st3 -> cache_grows st1 st3.
Proof.
  unfold cache_grows. destruct (Bugzilla.cache st1) as [units |].
  - intros [new1 ->] [new2 ->]. exists (new1 ++ new2). rewrite app_assoc. reflexivity.
  - intros ->. trivial.
Qed.

Lemma cache_grows_same st st' :
  Bugzilla.cache st' = Bugzilla.cache st -> cache_grows st st'.
Proof.
  intros Hc. unfold cache_grows. rewrite Hc.
  destruct (Bugzilla.cache st) as [units |]; [| reflexivity].
  exists []. rewrite app_nil_r. reflexivity.
Qed.

(** X5.  However a fetch ends, it has only added units at the end of
    the cache: the units stored before are still there, in the same
    order, and a connector built without a cache has none afterwards. *)
Theorem fetch_only_appends_to_cache :
  forall (from_date : option datetime) (st : Bugzilla.bugzilla),
    cache_grows st (final (Bugzilla.run (Bugzilla.fetch from_date) st)).
Proof.
  intros from_date st.
  refine (proj1 (fetch_kept
            (fun s s' => cache_grows s s'
                         /\ Bugzilla.max_bugs s' = Bugzilla.max_bugs s)
            _ _ _ _ _ _ _ _ _ _ _ _ _ _ from_date st)).
  - intros s. split; [apply cache_grows_refl | reflexivity].
  - intros s1 s2 s3 [G1 M1] [G2 M2].
    split; [eapply cache_grows_trans; eassumption | congruence].
  - intros s s' [_ M]. exact M.
  - intros n s. split; [apply cache_grows_same |]; reflexivity.
  - intros y s. split; [apply cache_grows_same |]; reflexivity.
  - intros s. split; [apply cache_grows_same |]; reflexivity.
  - intros r s. split; [apply cache_grows_same |]; reflexivity.
  - intros v s. split; [apply cache_grows_same |]; reflexivity.
  - intros q s. split; [apply cache_grows_same |]; reflexivity.
  - intros units s Hc. split; [| reflexivity].
    unfold cache_grows. rewrite Hc. exists [Bugzilla.cache_queue s]. reflexivity.
  - intros order d s. split; [apply cache_grows_same |]; reflexivity.
  - intros s. split; [apply cache_grows_same |]; reflexivity.
  - intros id s. split; [apply cache_grows_same |]; reflexivity.
  - intros ids s _. split; [apply cache_grows_same |]; reflexivity.
Qed.

Lemma bounded_calls_refl st : bounded_calls st st.
Proof.
  split; [reflexivity |]. exists []. rewrite app_nil_r. split; [reflexivity | constructor].
Qed.

Lemma bounded_calls_trans st1 st2 st3 :
  bounded_calls st1 st2 -> bounded_calls st2 st3 -> bounded_calls st1 st3.
Proof.
  intros [M1 (new1 & E1 & F1)] [M2 (new2 & E2 & F2)].
  split; [congruence |]. exists (new1 ++ new2).
  split; [rewrite E2, E1, app_assoc; reflexivity |].
  apply Forall_app. split; [exact F1 | rewrite <- M1; exact F2].
Qed.

Lemma bounded_calls_same st st' :
  Bugzilla.max_bugs st' = Bugzilla.max_bugs st ->
  Bugzilla.requests st' = Bugzilla.requests st ->
  bounded_calls st st'.
Proof.
  intros HM HR. split; [exact HM |]. exists []. rewrite app_nil_r.
  split; [exact HR | constructor].
Qed.

Lemma bounded_calls_requested r st :
  within_bound (Bugzilla.max_bugs st) r -> bounded_calls st (requested r st).
Proof.
  intros Hr. split; [reflexivity |]. exists [r].
  split; [reflexivity | constructor; [exact Hr | constructor]].
Qed.

(** X6.  However a fetch ends, every request for the details of bugs
    that it has made asked for at least one bug and for no more than
    [max_bugs] bugs. *)
Theorem fetch_groups_within_bound :
  forall (from_date : option datetime) (st : Bugzilla.bugzilla),
    bounded_calls st (final (Bugzilla.run (Bugzilla.fetch from_date) st)).
Proof.
  intros from_date st.
  refine (fetch_kept bounded_calls _ _ _ _ _ _ _ _ _ _ _ _ _ _ from_date st).
  - apply bounded_calls_refl.
  - apply bounded_calls_trans.
  - intros s s' [M _]. exact M.
  - intros n s. apply bounded_calls_same; reflexivity.
  - intros y s. apply bounded_calls_same; reflexivity.
  - intros s. apply bounded_calls_same; reflexivity.
  - intros r s. apply bounded_calls_same; reflexivity.
  - intros v s. apply bounded_calls_same; reflexivity.
  - intros q s. apply bounded_calls_same; reflexivity.
  - intros units s _. apply bounded_calls_same; reflexivity.
  - intros order d s. apply bounded_calls_requested. intros ids Hcgi. discriminate.
  - intros s. apply bounded_calls_requested. intros ids _ Hid. discriminate.
  - intros id s. apply bounded_calls_requested. intros ids Hcgi. discriminate.
  - intros ids s Hlen. apply bounded_calls_requested.
    intros ids' _ Hid. cbn in Hid. injection Hid as <-. exact Hlen.
Qed.

(** X7.  However a replay ends, it has left the cache, its queue, the
    version known to the client, the answers that the server holds and
    the log of the requests as they were: it reads the cache and never
    calls the server. *)
Theorem fetch_from_cache_only_reads :
  forall (st : Bugzilla.bugzilla),
    consumer_only st (final (Bugzilla.run Bugzilla.fetch_from_cache st)).
Proof.
  intros st.
  refine (fetch_from_cache_kept consumer_only _ _ _ _ _ st).
  - apply consumer_only_refl.
  - apply consumer_only_trans.
  - intros n s. repeat split.
  - intros y s. repeat split.
  - intros s. repeat split.
Qed.

(** [fetch] empties the cache queue before anything else: what an
    interrupted fetch left in the queue changes nothing to the next
    fetch, neither to what it yields nor to what it stores. *)
Remark fetch_forgets_the_queue :
  forall (from_date : option datetime) (st : Bugzilla.bugzilla)
         (queue : list Bugzilla.raw),
    Bugzilla.run (Bugzilla.fetch from_date) (Bugzilla.set_cache_queue queue st)
    = Bugzilla.run (Bugzilla.fetch from_date) st.
Proof. intros from_date st queue. reflexivity. Qed.

End KeptInstances.

(** ** A fetch with and without a cache *)

Section Transparency.
Context {P : Bugzilla.Parsers}.

Lemma alike_bind {A B} (m m' : Bugzilla.M A) (f f' : A -> Bugzilla.M B) :
  alike m m' -> (forall a, alike (f a) (f' a)) -> alike (bind m f) (bind m' f').
Proof.
  intros Hm Hf st st' Ht. unfold bind. destruct (Hm st st' Ht) as [Hr Hs].
  destruct (m st) as [[a | e] st1], (m' st') as [[a' | e'] st1'];
    cbn [fst snd] in *; try discriminate.
  - injection Hr as <-. apply Hf. exact Hs.
  - injection Hr as <-. split; [reflexivity | exact Hs].
Qed.

Lemma alike_pure {A} (r : result A) : alike (lift r) (lift r).
Proof. intros st st' Ht. split; [reflexivity | exact Ht]. Qed.

(** [st <- get ;; k st]: the continuations are given twins. *)
Lemma alike_get {B} (k k' : Bugzilla.bugzilla -> Bugzilla.M B) :
  (forall s s', twin s s' -> alike (k s) (k' s')) ->
  alike (bind get k) (bind get k').
Proof. intros Hk st st' Ht. unfold bind, get. apply Hk; exact Ht. Qed.

Lemma alike_modify (f f' : Bugzilla.bugzilla -> Bugzilla.bugzilla) :
  (forall s s', twin s s' -> twin (f s) (f' s')) ->
  alike (modify f) (modify f').
Proof. intros Hf st st' Ht. split; [reflexivity | apply Hf; exact Ht]. Qed.

Lemma alike_for_each {A} (body body' : A -> Bugzilla.M unit) (l : list A) :
  (forall x, alike (body x) (body' x)) ->
  alike (for_each l body) (for_each l body').
Proof.
  intros Hbody. induction l as [| x l IH].
  - apply (alike_pure (Ok tt)).
  - cbn [for_each]. apply alike_bind; [apply Hbody | intros _; exact IH].
Qed.

Ltac twins :=
  match goal with
  | H : twin _ _ |- _ =>
      destruct H as (? & ? & ? & ? & ? & ? & ? & ?); unfold twin; cbn;
      repeat split; congruence
  end.

Lemma call_alike (cgi : string) params :
  alike (Bugzilla.call cgi params) (Bugzilla.call cgi params).
Proof.
  unfold Bugzilla.call.
  apply alike_bind; [apply alike_modify; intros s s' Ht; twins |]. intros _.
  apply alike_get. intros s s' Ht.
  assert (Hr : Bugzilla.responses s' = Bugzilla.responses s) by (apply Ht).
  rewrite Hr.
  destruct (Bugzilla.responses s) as [| [text | status] rest].
  - apply (alike_pure (Raise ConnectionError)).
  - apply alike_bind; [apply alike_modify; intros t t' Ht'; twins |].
    intros _. apply (alike_pure (Ok text)).
  - apply alike_bind; [apply alike_modify; intros t t' Ht'; twins |].
    intros _. apply (alike_pure (Raise HTTPError)).
Qed.

Lemma push_alike (item : Bugzilla.raw) :
  alike (Bugzilla._push_cache_queue item) (Bugzilla._push_cache_queue item).
Proof.
  intros st st' Ht. unfold Bugzilla._push_cache_queue, bind, get.
  destruct (Bugzilla.cache st), (Bugzilla.cache st'); cbn [fst snd modify ret];
    (split; [reflexivity | twins]).
Qed.

Lemma flush_alike : alike Bugzilla._flush_cache_queue Bugzilla._flush_cache_queue.
Proof.
  intros st st' Ht.
  unfold Bugzilla._flush_cache_queue, Bugzilla._purge_cache_queue, bind, get, modify, ret.
  destruct (Bugzilla.cache st), (Bugzilla.cache st'); cbn [fst snd];
    (split; [reflexivity | twins]).
Qed.

Lemma fetch_page_alike d :
  alike (Bugzilla.__fetch_and_parse_buglist_page d)
        (Bugzilla.__fetch_and_parse_buglist_page d).
Proof.
  unfold Bugzilla.__fetch_and_parse_buglist_page.
  apply alike_bind; [| intros raw_csv; apply (alike_pure (Ok _))].
  unfold Bugzilla.client_buglist.
  apply alike_get. intros s s' Ht.
  assert (Hv : Bugzilla.version s' = Bugzilla.version s) by (apply Ht).
  rewrite Hv.
  apply alike_bind.
  - destruct (Bugzilla.version_known (Bugzilla.version s));
      [apply (alike_pure (Ok tt)) |].
    apply alike_bind.
    + unfold Bugzilla.__fetch_version, Bugzilla.client_metadata.
      apply alike_bind; [apply call_alike |]. intros response.
      destruct (Bugzilla.match_version response);
        [apply (alike_pure (Ok _)) | apply (alike_pure (Raise _))].
    + intros v. apply alike_modify. intros t t' Ht'. twins.
  - intros _. apply alike_get. intros t t' Ht'.
    assert (Hv' : Bugzilla.version t' = Bugzilla.version t) by (apply Ht').
    rewrite Hv'. apply call_alike.
Qed.

Lemma fetch_buglist_loop_alike (fuel : nat) :
  forall buglist,
    alike (Bugzilla.fetch_buglist_loop fuel buglist)
          (Bugzilla.fetch_buglist_loop fuel buglist).
Proof.
  induction fuel as [| fuel IHfuel]; intros buglist.
  - apply (alike_pure (Raise FuelExhausted)).
  - induction buglist as [| bug buglist IH].
    + rewrite loop_nil. apply (alike_pure (Ok [])).
    + destruct buglist as [| next buglist].
      * rewrite loop_last.
        apply alike_bind; [apply alike_pure |]. intros last_date.
        apply alike_bind; [apply alike_pure |]. intros from_date.
        apply alike_bind; [apply fetch_page_alike |]. intros page.
        apply alike_bind; [apply IHfuel |]. intros tail.
        apply (alike_pure (Ok _)).
      * rewrite loop_more.
        apply alike_bind; [apply alike_pure |]. intros last_date.
        apply alike_bind; [exact IH |]. intros tail.
        apply (alike_pure (Ok _)).
Qed.

Lemma with_metadata_alike (bug : pyval) : alike (with_metadata bug) (with_metadata bug).
Proof.
  unfold with_metadata, Bugzilla.add_metadata, Bugzilla.now, Bugzilla.collect.
  apply alike_bind; [| intros item; apply alike_modify; intros s s' Ht; twins].
  apply alike_get. intros s s' Ht.
  assert (Ho : Bugzilla.origin s' = Bugzilla.origin s) by (apply Ht).
  rewrite Ho.
  apply alike_bind.
  { apply alike_get. intros t t' Ht'.
    assert (Hc : Bugzilla.clock t' = Bugzilla.clock t) by (apply Ht').
    assert (Hk : Bugzilla.ticks t' = Bugzilla.ticks t) by (apply Ht').
    rewrite Hc, Hk.
    apply alike_bind; [apply alike_modify; intros u u' Hu; twins |].
    intros _. apply (alike_pure (Ok _)). }
  intros timestamp.
  apply alike_bind; [apply alike_pure |]. intros updated_on.
  apply alike_pure.
Qed.

Lemma fetch_alike (from_date : option datetime) :
  alike (Bugzilla.fetch from_date Bugzilla.collect)
        (Bugzilla.fetch from_date Bugzilla.collect).
Proof.
  change (Bugzilla.fetch from_date Bugzilla.collect)
    with (Bugzilla.fetch_undecorated from_date with_metadata).
  unfold Bugzilla.fetch_undecorated.
  apply alike_bind;
    [unfold Bugzilla._purge_cache_queue; apply alike_modify; intros s s' Ht; twins |].
  intros _. apply alike_bind.
  { unfold Bugzilla.__fetch_buglist.
    apply alike_bind; [apply fetch_page_alike |]. intros page.
    apply alike_get. intros s s' Ht.
    assert (Hr : Bugzilla.responses s' = Bugzilla.responses s) by (apply Ht).
    rewrite Hr. apply fetch_buglist_loop_alike. }
  intros buglist. unfold Bugzilla.fetch_details.
  apply alike_get. intros s s' Ht.
  assert (Hm : Bugzilla.max_bugs s' = Bugzilla.max_bugs s) by (apply Ht).
  rewrite Hm.
  apply alike_bind; [apply alike_pure |]. intros idx.
  apply alike_for_each. intros i. unfold Bugzilla.fetch_chunk.
  apply alike_get. intros t t' Ht'.
  assert (Hm' : Bugzilla.max_bugs t' = Bugzilla.max_bugs t) by (apply Ht').
  rewrite Hm'.
  apply alike_bind; [apply alike_pure |]. intros bugs_ids.
  apply alike_bind.
  { unfold Bugzilla.__fetch_and_parse_bugs_details, Bugzilla.client_bugs.
    apply alike_bind; [apply call_alike |]. intros raw_bugs.
    apply alike_bind; [apply push_alike |]. intros _. apply (alike_pure (Ok _)). }
  intros bugs.
  apply alike_bind; [apply alike_pure |]. intros bugs'.
  apply alike_bind; [| intros _; apply flush_alike].
  apply alike_for_each. intros bug. unfold Bugzilla.fetch_bug.
  apply alike_bind; [apply alike_pure |]. intros bug_id.
  apply alike_bind.
  { unfold Bugzilla.__fetch_and_parse_bug_activity, Bugzilla.client_bug_activity.
    apply alike_bind; [apply call_alike |]. intros raw_activity.
    apply alike_bind; [apply push_alike |]. intros _. apply alike_pure. }
  intros activity.
  apply alike_bind; [apply alike_pure |]. intros bug'.
  apply with_metadata_alike.
Qed.

(** X8.  The cache is transparent to a fetch: two connectors that
    differ at most by their cache (one may have none) and by what is in
    its queue yield the same items, end in the same way, and have made
    the same requests and taken the same answers at the end. *)
Theorem fetch_regardless_of_cache :
  forall (from_date : option datetime) (st st' : Bugzilla.bugzilla),
    twin st st' ->
    items_of (Bugzilla.run (Bugzilla.fetch from_date) st')
    = items_of (Bugzilla.run (Bugzilla.fetch from_date) st)
    /\ outcome (Bugzilla.run (Bugzilla.fetch from_date) st')
       = outcome (Bugzilla.run (Bugzilla.fetch from_date) st)
    /\ twin (final (Bugzilla.run (Bugzilla.fetch from_date) st))
            (final (Bugzilla.run (Bugzilla.fetch from_date) st')).
Proof.
  intros from_date st st' Ht.
  unfold Bugzilla.run, items_of, outcome, final.
  assert (Ht0 : twin (Bugzilla.set_yielded [] st) (Bugzilla.set_yielded [] st'))
    by twins.
  destruct (fetch_alike from_date _ _ Ht0) as [Hr Hs].
  destruct (Bugzilla.fetch from_date Bugzilla.collect (Bugzilla.set_yielded [] st))
    as [r s1].
  destruct (Bugzilla.fetch from_date Bugzilla.collect (Bugzilla.set_yielded [] st'))
    as [r' s1'].
  cbn [fst snd] in *. subst r'.
  split; [apply Hs |]. split; [reflexivity | exact Hs].
Qed.

End Transparency.

Lemma fetch_regardless_of_cache_witness :
  items_of (Bugzilla.run (Bugzilla.fetch (P := sample_parsers) None)
              sample_connector_without_cache)
  = items_of (Bugzilla.run (Bugzilla.fetch (P := sample_parsers) None) sample_connector)
  /\ Bugzilla.cache sample_connector_without_cache <> Bugzilla.cache sample_connector.
Proof.
  split; [| discriminate].
  destruct (fetch_regardless_of_cache (P := sample_parsers) None sample_connector
              sample_connector_without_cache) as (Hitems & _ & _).
  - unfold twin. repeat split.
  - exact Hitems.
Defined.

(** ** Fetches that end before the first bug *)

Section EarlyEnd.
Context {P : Bugzilla.Parsers}.

Lemma fetch_page_without_version (d : datetime) (st : Bugzilla.bugzilla) m rest :
  Bugzilla.version_known (Bugzilla.version st) = false ->
  Bugzilla.responses st = Bugzilla.Body m :: rest ->
  Bugzilla.match_version m = None ->
  Bugzilla.__fetch_and_parse_buglist_page d st
  = (Raise (BackendError "Bugzilla client could not determine the server version."),
     Bugzilla.set_responses rest (requested metadata_request st)).
Proof.
  intros Hv Hr Hm.
  unfold Bugzilla.__fetch_and_parse_buglist_page, Bugzilla.client_buglist.
  unfold bind at 1. unfold bind at 1. cbn [get]. rewrite Hv.
  unfold bind at 1. unfold bind at 1.
  unfold Bugzilla.__fetch_version, Bugzilla.client_metadata.
  unfold bind at 1. rewrite (call_body_eq _ _ _ _ _ Hr). rewrite Hm.
  reflexivity.
Qed.

(** X9.  When the page that should tell the version of the server does
    not tell it, [fetch] ends with [BackendError] before it has asked for
    any bug: the request for the version is the only one made, nothing is
    yielded, the cache is left as it was, and the version stays unknown. *)
Theorem fetch_without_version :
  forall (from_date : option datetime) (st : Bugzilla.bugzilla)
         (m : Bugzilla.raw) (rest : list Bugzilla.response),
    Bugzilla.version_known (Bugzilla.version st) = false ->
    Bugzilla.responses st = Bugzilla.Body m :: rest ->
    Bugzilla.match_version m = None ->
    exists st',
      Bugzilla.run (Bugzilla.fetch from_date) st
      = ([],
         Raise (BackendError "Bugzilla client could not determine the server version."),
         st')
      /\ Bugzilla.requests st' = Bugzilla.requests st ++ [metadata_request]
      /\ Bugzilla.responses st' = rest
      /\ Bugzilla.version st' = Bugzilla.version st
      /\ Bugzilla.cache st' = Bugzilla.cache st.
Proof.
  intros from_date st m rest Hv Hr Hm.
  unfold Bugzilla.run, Bugzilla.fetch, Bugzilla.metadata_get_update_time,
    Bugzilla.fetch_undecorated.
  unfold bind at 1. cbn [Bugzilla._purge_cache_queue modify].
  set (s0 := Bugzilla.set_cache_queue [] (Bugzilla.set_yielded [] st)).
  unfold bind at 1. unfold Bugzilla.__fetch_buglist. unfold bind at 1.
  rewrite (fetch_page_without_version _ s0 m rest Hv Hr Hm).
  eexists. split; [reflexivity |]. repeat split.
Qed.

(** X10.  When the first page of the bug list is empty, [fetch] ends
    normally without a bug: the page is the only query made (after the
    request for the version, if the client did not know it), it is asked
    from the default date when no date is given, nothing is yielded and
    no unit is stored in the cache. *)
Theorem fetch_of_empty_buglist :
  forall (from_date : option datetime) (st : Bugzilla.bugzilla) (v : string)
         (hreqs : list Bugzilla.request) (hresps : list Bugzilla.response)
         (closing : Bugzilla.raw) (rest : list Bugzilla.response),
    handshake st v hreqs hresps ->
    v <> "" ->
    Bugzilla.responses st = hresps ++ Bugzilla.Body closing :: rest ->
    Bugzilla.csv_dict_reader closing = [] ->
    (1 <= Bugzilla.max_bugs st)%nat ->
    exists st',
      Bugzilla.run (Bugzilla.fetch from_date) st = ([], Ok tt, st')
      /\ Bugzilla.requests st'
         = Bugzilla.requests st ++ hreqs
           ++ [buglist_request (order_of v)
                 match from_date with
                 | Some d => d
                 | None => Bugzilla.DEFAULT_DATETIME
                 end]
      /\ Bugzilla.responses st' = rest
      /\ Bugzilla.cache st' = Bugzilla.cache st
      /\ Bugzilla.cache_queue st' = [].
Proof.
  intros from_date st v hreqs hresps closing rest Hh Hv Hr Hc HK.
  unfold Bugzilla.run, Bugzilla.fetch, Bugzilla.metadata_get_update_time,
    Bugzilla.fetch_undecorated.
  unfold bind at 1. cbn [Bugzilla._purge_cache_queue modify].
  set (s0 := Bugzilla.set_cache_queue [] (Bugzilla.set_yielded [] st)).
  set (d := match from_date with Some d => d | None => Bugzilla.DEFAULT_DATETIME end).
  destruct (fetch_page_answered s0 v hreqs hresps d closing rest Hh Hv Hr)
    as (s1 & E & Hreqs & Hresps & _ & Hco).
  destruct Hco as (_ & Hmax & Hcache & Hqueue & _ & _ & Hy).
  unfold bind at 1. unfold Bugzilla.__fetch_buglist. unfold bind at 1.
  rewrite E, Hc. unfold bind at 1. cbn [get]. rewrite loop_nil. cbn [ret].
  unfold Bugzilla.fetch_details. unfold bind at 1. cbn [get List.length].
  unfold Bugzilla.py_range. rewrite Hmax. cbn [Bugzilla.max_bugs s0 Bugzilla.set_cache_queue
    Bugzilla.set_yielded].
  destruct (Bugzilla.max_bugs st) as [| K] eqn:HKs; [lia |].
  unfold bind at 1. cbn [lift Bugzilla.range_from for_each ret].
  exists s1. rewrite Hy. split; [reflexivity |].
  split; [exact Hreqs |]. split; [exact Hresps |].
  split; [exact Hcache | exact Hqueue].
Qed.

End EarlyEnd.

Lemma fetch_without_version_witness :
  exists st',
    Bugzilla.run (Bugzilla.fetch (P := sample_parsers) None) no_version_connector
    = ([],
       Raise (BackendError "Bugzilla client could not determine the server version."),
       st')
    /\ List.length (Bugzilla.requests st') = 1%nat.
Proof.
  destruct (fetch_without_version (P := sample_parsers) None no_version_connector
              "<html>Not a Bugzilla</html>" [] eq_refl eq_refl eq_refl)
    as (st' & E & Hreqs & _).
  exists st'. split; [exact E |]. rewrite Hreqs. reflexivity.
Defined.

Lemma fetch_of_empty_buglist_witness :
  exists st',
    Bugzilla.run (Bugzilla.fetch (P := sample_parsers) None) no_bugs_connector
    = ([], Ok tt, st')
    /\ List.length (Bugzilla.requests st') = 2%nat
    /\ Bugzilla.cache st' = Some [].
Proof.
  destruct (fetch_of_empty_buglist (P := sample_parsers) None no_bugs_connector
              "4.0.4" [metadata_request] [Bugzilla.Body "<bugzilla version=4.0.4/>"]
              "" [])
    as (st' & E & Hreqs & _ & Hcache & _).
  - right. split; [reflexivity |].
    exists "<bugzilla version=4.0.4/>". repeat split.
  - discriminate.
  - reflexivity.
  - reflexivity.
  - cbn. lia.
  - exists st'. split; [exact E |]. split; [rewrite Hreqs; reflexivity | exact Hcache].
Defined.

(** ** The table of bug activity *)

Lemma changes_complete (who when : Activity.td) (cs : list change) (rest : list Activity.td) :
  Activity.changes (List.length cs) who when (flat_map change_cells cs ++ rest)
  = (map (change_event (Activity.format_text who) (Activity.format_text when)) cs,
     Ok rest).
Proof.
  induction cs as [| [[what removed] added] cs IH]; [reflexivity |].
  cbn [List.length flat_map change_cells app Activity.changes].
  rewrite IH. reflexivity.
Qed.

Lemma changes_short (who when : Activity.td) (cs : list change) :
  forall (n : nat) (dangling : list Activity.td),
    (List.length cs < n)%nat ->
    (List.length dangling < 3)%nat ->
    Activity.changes n who when (flat_map change_cells cs ++ dangling)
    = (map (change_event (Activity.format_text who) (Activity.format_text when)) cs,
       Raise IndexError).
Proof.
  induction cs as [| [[what removed] added] cs IH]; intros n dangling Hn Hd.
  - destruct n as [| n]; [cbn in Hn; lia |].
    cbn [flat_map app map Activity.changes].
    destruct dangling as [| a [| b [| c dangling]]]; try reflexivity.
    cbn in Hd. lia.
  - destruct n as [| n]; [cbn in Hn; lia |].
    cbn [List.length flat_map change_cells app Activity.changes map].
    rewrite (IH n dangling); [reflexivity | cbn in Hn; lia | exact Hd].
Qed.

Lemma changes_leave_less (who when : Activity.td) :
  forall (n : nat) (fields rest : list Activity.td) evs,
    Activity.changes n who when fields = (evs, Ok rest) ->
    (List.length rest <= List.length fields)%nat.
Proof.
  induction n as [| n IH]; intros fields rest evs E.
  - cbn in E. injection E as _ <-. lia.
  - cbn [Activity.changes] in E.
    destruct fields as [| what [| removed [| added fields]]]; try discriminate.
    destruct (Activity.changes n who when fields) as [evs' r] eqn:E'.
    injection E as _ ->. apply IH in E'. cbn [List.length]. lia.
Qed.

(** The bound that [parse_bug_activity] puts on the turns of its loop is
    never reached. *)
Lemma events_end (fuel : nat) :
  forall fields,
    (List.length fields < fuel)%nat ->
    snd (Activity.events fuel fields) <> Raise FuelExhausted.
Proof.
  induction fuel as [| fuel IH]; intros fields Hlen; [lia |].
  cbn [Activity.events].
  destruct fields as [| who [| when fields]]; try (cbn; discriminate).
  destruct (Activity.int_rowspan who) as [n | e] eqn:Hn.
  - destruct (Activity.changes (Z.to_nat n) who when fields) as [evs [rest | e]] eqn:E.
    + apply changes_leave_less in E.
      specialize (IH rest). destruct (Activity.events fuel rest) as [evs' r].
      cbn [snd] in *. apply IH. cbn [List.length] in Hlen. lia.
    + cbn [snd]. intros Heq. injection Heq as ->.
      clear -E. revert fields evs E.
      induction (Z.to_nat n) as [| k IHk]; intros fields evs E; [discriminate |].
      cbn [Activity.changes] in E.
      destruct fields as [| what [| removed [| added fields]]]; try discriminate.
      destruct (Activity.changes k who when fields) as [evs' r] eqn:E'.
      injection E as _ ->. eapply IHk. exact E'.
  - cbn [snd]. unfold Activity.int_rowspan in Hn.
    destruct (Activity.rowspan who); congruence.
Qed.

Lemma group_cells_length (groups : list group) :
  (List.length groups <= List.length (flat_map group_cells groups))%nat.
Proof.
  induction groups as [| [[who when] cs] groups IH]; [cbn; lia |].
  cbn [flat_map List.length group_cells head_cells app].
  rewrite length_app. cbn [List.length]. lia.
Qed.

(** The loop takes the complete groups one by one, one turn each. *)
Lemma events_of_groups (groups : list group) :
  forall (fuel : nat) (tail : list Activity.td),
    Activity.events (List.length groups + fuel) (flat_map group_cells groups ++ tail)
    = (let '(evs, r) := Activity.events fuel tail in
       (flat_map group_events groups ++ evs, r)).
Proof.
  induction groups as [| [[who when] cs] groups IH]; intros fuel tail.
  - cbn [List.length Nat.add flat_map app].
    destruct (Activity.events fuel tail); reflexivity.
  - cbn [List.length Nat.add flat_map group_cells head_cells app Activity.events].
    unfold Activity.int_rowspan. cbn [Activity.rowspan].
    rewrite Nat2Z.id, <- app_assoc, changes_complete, IH.
    destruct (Activity.events fuel tail) as [evs r].
    cbn [group_events Activity.format_text plain]. rewrite <- app_assoc. reflexivity.
Qed.

(** X11.  Reading a table of activity gives back what was laid out in
    it: for groups of changes written as a ['Who'] cell that spans as
    many rows as the group has changes, a ['When'] cell and three cells
    per change, [parse_bug_activity] yields one event per change, in
    order, each with the ['Who'] and ['When'] of its group, and ends
    normally. *)
Theorem parse_bug_activity_of_laid_out_groups :
  forall (groups : list group),
    Activity.parse_bug_activity (flat_map group_cells groups)
    = (flat_map group_events groups, Ok tt).
Proof.
  intros groups. unfold Activity.parse_bug_activity.
  pose proof (group_cells_length groups) as Hlen.
  replace (S (List.length (flat_map group_cells groups)))
    with (List.length groups
          + S (List.length (flat_map group_cells groups) - List.length groups))%nat
    by lia.
  rewrite <- (app_nil_r (flat_map group_cells groups)) at 2.
  rewrite events_of_groups. cbn [Activity.events]. rewrite app_nil_r. reflexivity.
Qed.

(** X12.  A table whose last group announces more changes than it has
    cells for makes [parse_bug_activity] raise [IndexError], after the
    events of the groups before it and of the changes that are complete
    have been yielded. *)
Theorem parse_bug_activity_of_short_table :
  forall (groups : list group) (who when : string) (n : Z) (cs : list change)
         (dangling : list Activity.td),
    (List.length cs < Z.to_nat n)%nat ->
    (List.length dangling < 3)%nat ->
    Activity.parse_bug_activity
      (flat_map group_cells groups
         ++ head_cells who when n ++ flat_map change_cells cs ++ dangling)
    = (flat_map group_events groups ++ map (change_event who when) cs,
       Raise IndexError).
Proof.
  intros groups who when n cs dangling Hn Hd. unfold Activity.parse_bug_activity.
  pose proof (group_cells_length groups) as Hlen.
  set (tail := head_cells who when n ++ flat_map change_cells cs ++ dangling).
  replace (S (List.length (flat_map group_cells groups ++ tail)))
    with (List.length groups
          + S (List.length (flat_map group_cells groups ++ tail)
               - List.length groups))%nat
    by (rewrite length_app; lia).
  rewrite events_of_groups. subst tail.
  cbn [head_cells app Activity.events]. unfold Activity.int_rowspan.
  cbn [Activity.rowspan]. rewrite (changes_short _ _ cs _ dangling Hn Hd).
  reflexivity.
Qed.

Lemma parse_bug_activity_of_short_table_witness :
  Activity.parse_bug_activity
    (flat_map group_cells sample_groups
       ++ head_cells "acs@example.org" "2013-06-26 09:12:00 CEST" 2
       ++ flat_map change_cells [("Resolution", "---", "FIXED")]
       ++ [plain "Status"])
  = (flat_map group_events sample_groups
       ++ [change_event "acs@example.org" "2013-06-26 09:12:00 CEST"
             ("Resolution", "---", "FIXED")],
     Raise IndexError).
Proof.
  apply (parse_bug_activity_of_short_table sample_groups
           "acs@example.org" "2013-06-26 09:12:00 CEST" 2
           [("Resolution", "---", "FIXED")] [plain "Status"]).
  - cbn. lia.
  - cbn. lia.
Defined.

(** ** Feed passes that are interrupted *)

Section Interrupted.
Context {H : Ocean.Hooks}.

Lemma feed_loop_app (items1 items2 : list pyval) :
  forall (pack : list pyval) (drop : nat) (o : Ocean.ocean),
    Ocean.feed_loop (items1 ++ items2) pack drop o
    = match Ocean.feed_loop items1 pack drop o with
      | (Ok r, o') => Ocean.feed_loop items2 (fst r) (snd r) o'
      | (Raise e, o') => (Raise e, o')
      end.
Proof.
  induction items1 as [| item items1 IH]; intros pack drop o; [reflexivity |].
  cbn [app Ocean.feed_loop]. unfold bind, get, lift, ret.
  destruct (Ocean.prepare (Ocean.project o) item) as [it | e]; [| reflexivity].
  destruct (Z.of_nat (List.length pack) >=? Ocean.max_items_bulk o).
  - destruct (Ocean._items_to_es pack o) as [[[] | e] o2]; [| reflexivity].
    destruct (negb (Ocean.drop_item it)); apply IH.
  - destruct (negb (Ocean.drop_item it)); apply IH.
Qed.

Lemma map_result_snoc {A B} (f : A -> result B) (l : list A) (x : A) r :
  map_result f (l ++ [x]) = Ok r ->
  exists r1 y, map_result f l = Ok r1 /\ f x = Ok y /\ r = r1 ++ [y].
Proof.
  revert r. induction l as [| a l IH]; intros r Hr.
  - cbn [app map_result] in Hr. destruct (f x) as [y |]; [| discriminate].
    cbn [rbind] in Hr. injection Hr as <-. exists [], y. repeat split.
  - cbn [app map_result] in Hr |- *. destruct (f a) as [b |]; [| discriminate].
    cbn [rbind] in Hr |- *.
    destruct (map_result f (l ++ [x])) as [ys |] eqn:Hys; [| discriminate].
    cbn [rbind] in Hr. injection Hr as <-.
    destruct (IH ys eq_refl) as (r1 & y & Hl & Hx & ->).
    rewrite Hl. cbn [rbind]. exists (b :: r1), y. repeat split. exact Hx.
Qed.

Lemma last_item_snoc (l : list pyval) (x : pyval) : last_item (l ++ [x]) = Some x.
Proof. unfold last_item. rewrite rev_app_distr. reflexivity. Qed.

Lemma length_concat_packs (n : nat) (packs : list (list pyval)) :
  Forall (fun p => List.length p = n) packs ->
  List.length (List.concat packs) = (n * List.length packs)%nat.
Proof.
  induction 1 as [| p packs Hp _ IH]; [cbn; lia |].
  cbn [List.concat List.length]. rewrite length_app, Hp, IH. lia.
Qed.

Ltac loop_result :=
  unfold ret; apply f_equal2; [f_equal; f_equal; lia | try reflexivity].

Ltac last_is it' :=
  match goal with
  | Hit' : last_item (_ ++ [_]) = Some it' |- _ =>
      rewrite last_item_snoc in Hit'; injection Hit' as <-; congruence
  end.

(** The loop of [feed] from an empty pack, with what its last turn
    leaves in the pack: the pack is tested when an item arrives and
    before the item is added, so that the last survivor is always in the
    pack that the loop ends with. *)
Lemma feed_loop_last_pack (items : list pyval) :
  forall (prepared : list pyval) (drop : nat) (o : Ocean.ocean),
    map_result (Ocean.prepare (Ocean.project o)) items = Ok prepared ->
    exists (packs : list (list pyval)) (pack' : list pyval),
      Ocean.feed_loop items [] drop o
      = (Ok (pack', (drop + List.length (filter Ocean.drop_item prepared))%nat),
         Ocean.set_uploads (Ocean.uploads o ++ map upload_of packs) o)
      /\ List.concat packs ++ pack'
         = filter (fun i => negb (Ocean.drop_item i)) prepared
      /\ Forall (fun p => List.length p = bulk_size o) packs
      /\ (List.length pack' <= bulk_size o)%nat
      /\ (forall it, last_item prepared = Some it ->
            Ocean.drop_item it = false -> pack' <> [])
      /\ (forall it, last_item prepared = Some it ->
            Ocean.drop_item it = true -> (List.length pack' < bulk_size o)%nat)
      /\ (prepared = [] -> packs = [] /\ pack' = []).
Proof.
  intros prepared drop o Hprep.
  assert (Hm : (1 <= bulk_size o)%nat) by (unfold bulk_size; lia).
  destruct items as [| last init _] using rev_ind.
  - cbn in Hprep. injection Hprep as <-.
    exists [], []. cbn [Ocean.feed_loop filter List.length map List.concat app].
    rewrite set_uploads_same, Nat.add_0_r.
    split; [reflexivity |]. split; [reflexivity |]. split; [constructor |].
    split; [lia |]. split; [discriminate |]. split; [discriminate |].
    intros _. split; reflexivity.
  - destruct (map_result_snoc _ _ _ _ Hprep) as (r1 & it & Hinit & Hlast & ->).
    destruct (feed_loop_packs init r1 [] drop o Hinit) as (packs & pack1 & E & Hc & Hf & Hl);
      [cbn; lia |].
    cbn [app] in Hc.
    rewrite feed_loop_app, E. cbn [fst snd Ocean.feed_loop].
    unfold bind at 1. cbn [get]. unfold bind at 1. unfold lift at 1.
    cbn [Ocean.project Ocean.set_uploads]. rewrite Hlast.
    cbn [Ocean.max_items_bulk Ocean.set_uploads].
    rewrite !filter_app, length_app. cbn [filter].
    destruct (Z.of_nat (List.length pack1) >=? Ocean.max_items_bulk o) eqn:Hfull;
      rewrite Z.geb_leb in Hfull;
      [apply Z.leb_le in Hfull | apply Z.leb_gt in Hfull].
    + (* the pack is handed over when the last item arrives *)
      unfold bind at 1. unfold bind at 1.
      destruct pack1 as [| x pack1].
      * rewrite items_to_es_empty. cbn [ret]. rewrite app_nil_r in Hc.
        destruct (Ocean.drop_item it) eqn:Hdrop; cbn [negb Ocean.feed_loop List.length app].
        -- exists packs, []. rewrite !app_nil_r.
           split; [loop_result |]. split; [exact Hc |]. split; [exact Hf |].
           split; [cbn; lia |]. split; [intros it' Hit'; last_is it' |].
           split; [intros _ _ _; cbn; lia |].
           intros Hnil. destruct r1; discriminate Hnil.
        -- exists packs, [it].
           split; [loop_result |]. split; [rewrite Hc; reflexivity |].
           split; [exact Hf |]. split; [cbn; lia |].
           split; [intros _ _ _; discriminate |].
           split; [intros it' Hit'; last_is it' |].
           intros Hnil. destruct r1; discriminate Hnil.
      * rewrite items_to_es_pack. cbn [ret].
        assert (Hfulllen : List.length (x :: pack1) = bulk_size o).
        { unfold bulk_size in *. cbn [List.length] in *. lia. }
        assert (Hfs : Forall (fun p => List.length p = bulk_size o) (packs ++ [x :: pack1])).
        { apply Forall_app. split; [exact Hf |]. constructor; [exact Hfulllen | constructor]. }
        destruct (Ocean.drop_item it) eqn:Hdrop; cbn [negb Ocean.feed_loop List.length app].
        -- exists (packs ++ [x :: pack1]), [].
           rewrite map_app, app_assoc, concat_app. cbn [map List.concat].
           rewrite !app_nil_r.
           split; [loop_result |]. split; [exact Hc |]. split; [exact Hfs |].
           split; [cbn; lia |]. split; [intros it' Hit'; last_is it' |].
           split; [intros _ _ _; cbn; lia |].
           intros Hnil. destruct r1; discriminate Hnil.
        -- exists (packs ++ [x :: pack1]), [it].
           rewrite map_app, app_assoc, concat_app. cbn [map List.concat].
           rewrite !app_nil_r.
           split; [loop_result |]. split; [rewrite Hc; reflexivity |].
           split; [exact Hfs |]. split; [cbn; lia |].
           split; [intros _ _ _; discriminate |].
           split; [intros it' Hit'; last_is it' |].
           intros Hnil. destruct r1; discriminate Hnil.
    + (* the pack has room for the last item *)
      assert (Hroom : (List.length pack1 < bulk_size o)%nat)
        by (unfold bulk_size; lia).
      unfold bind at 1. cbn [ret].
      destruct (Ocean.drop_item it) eqn:Hdrop; cbn [negb Ocean.feed_loop List.length app].
      * exists packs, pack1. rewrite !app_nil_r.
        split; [loop_result |]. split; [exact Hc |]. split; [exact Hf |].
        split; [exact Hl |]. split; [intros it' Hit'; last_is it' |].
        split; [intros _ _ _; exact Hroom |].
        intros Hnil. destruct r1; discriminate Hnil.
      * exists packs, (pack1 ++ [it]).
        split; [loop_result |]. split; [rewrite app_assoc, Hc; reflexivity |].
        split; [exact Hf |]. split; [rewrite length_app; cbn; lia |].
        split; [intros _ _ _ Hnil; destruct pack1; discriminate Hnil |].
        split; [intros it' Hit'; last_is it' |].
        intros Hnil. destruct r1; discriminate Hnil.
Qed.

(** The number of packs that the loop has handed over follows from the
    survivors and from the fate of the last item. *)
Lemma packs_count (bulk : nat) (packs : list (list pyval)) (pack survivors : list pyval) :
  (1 <= bulk)%nat ->
  List.concat packs ++ pack = survivors ->
  Forall (fun p => List.length p = bulk) packs ->
  (pack <> [] -> (List.length pack <= bulk)%nat ->
   List.length packs = ((List.length survivors - 1) / bulk)%nat)
  /\ ((List.length pack < bulk)%nat ->
      List.length packs = (List.length survivors / bulk)%nat).
Proof.
  intros Hb Hc Hf.
  apply (f_equal (@List.length pyval)) in Hc.
  rewrite length_app, (length_concat_packs bulk packs Hf) in Hc.
  split.
  - intros Hne Hle.
    assert (Hpos : (1 <= List.length pack)%nat)
      by (destruct pack; [congruence | cbn; lia]).
    apply Nat.div_unique with (r := (List.length pack - 1)%nat); lia.
  - intros Hlt. apply Nat.div_unique with (r := List.length pack); lia.
Qed.

(** X13.  When the connector raises after its last item, [feed] raises
    the same exception and skips the hand-over that ends a pass.  A pack
    goes to the store only when an item arrives after the pack has reached
    the bulk size: the store has received the full packs that precede the
    pack in the making, and that pack is not stored.  When the last item
    survived, the pack in the making holds it, even if the pack has
    reached the bulk size: of [s] survivors, [(s - 1) / bulk] packs are
    stored.  When the last item was dropped, [s / bulk] packs are
    stored. *)
Theorem feed_interrupted_by_the_connector :
  forall (o : Ocean.ocean) (b : Ocean.perceval_backend)
         (from_date : option datetime) (offset : option Z)
         (items prepared : list pyval) (e : exn),
    Ocean.backend o = Some b ->
    (forall c, Ocean.pb_items b c = (items, Some e)) ->
    map_result (Ocean.prepare (Ocean.project o)) items = Ok prepared ->
    let survivors := filter (fun i => negb (Ocean.drop_item i)) prepared in
    exists (packs : list (list pyval)) (pack : list pyval) (o' : Ocean.ocean),
      Ocean.feed from_date offset o = (Raise e, o')
      /\ Ocean.uploads o' = Ocean.uploads o ++ map upload_of packs
      /\ List.concat packs ++ pack = survivors
      /\ Forall (fun p => List.length p = bulk_size o) packs
      /\ (List.length pack <= bulk_size o)%nat
      /\ (forall it, last_item prepared = Some it -> Ocean.drop_item it = false ->
            pack <> []
            /\ List.length packs = ((List.length survivors - 1) / bulk_size o)%nat)
      /\ (forall it, last_item prepared = Some it -> Ocean.drop_item it = true ->
            (List.length pack < bulk_size o)%nat
            /\ List.length packs = (List.length survivors / bulk_size o)%nat)
      /\ (prepared = [] -> packs = [] /\ pack = []).
Proof.
  intros o b from_date offset items prepared e Hb Hitems Hprep survivors.
  unfold Ocean.feed. unfold bind at 1. cbn [get]. rewrite Hb.
  unfold bind at 1. unfold Ocean.get_last_update_from_es at 1.
  unfold bind at 1. cbn [get ret].
  unfold bind at 1. cbn [modify]. unfold bind at 1. cbn [modify].
  rewrite Hitems.
  match goal with
  | |- context [bind (Ocean.feed_loop items [] 0%nat) _ ?st] => set (o1 := st)
  end.
  destruct (feed_loop_last_pack items prepared 0%nat o1 Hprep)
    as (packs & pack' & E & Hc & Hf & Hl & Hlast & Hdropped & Hnone).
  assert (Hm : (1 <= bulk_size o)%nat) by (unfold bulk_size; lia).
  change (bulk_size o1) with (bulk_size o) in Hf, Hl, Hdropped.
  destruct (packs_count (bulk_size o) packs pack' survivors Hm Hc Hf) as [Hk Hk'].
  exists packs, pack'. eexists. unfold bind at 1. rewrite E.
  split; [reflexivity |]. split; [reflexivity |]. split; [exact Hc |].
  split; [exact Hf |]. split; [exact Hl |].
  split; [| split; [| exact Hnone]].
  - intros it Hit Hs. pose proof (Hlast it Hit Hs) as Hne.
    split; [exact Hne | exact (Hk Hne Hl)].
  - intros it Hit Hd. pose proof (Hdropped it Hit Hd) as Hlt.
    split; [exact Hlt | exact (Hk' Hlt)].
Qed.

(** X14.  When an item cannot be prepared (it does not carry the epoch
    fields that [add_update_date] reads), [feed] raises at that item: the
    items that follow are not looked at, and no pack is handed over at
    that point.  The store has received the full packs that precede the
    pack in the making, as they stood when the last item before the bad
    one was taken: when that item survived, the pack in the making holds
    it, even if the pack has reached the bulk size, and of [s] survivors
    [(s - 1) / bulk] packs are stored; when it was dropped, [s / bulk]
    packs are stored. *)
Theorem feed_stops_at_bad_item :
  forall (o : Ocean.ocean) (b : Ocean.perceval_backend)
         (from_date : option datetime) (offset : option Z)
         (good rest prepared : list pyval) (bad : pyval)
         (failure : option exn) (e : exn),
    Ocean.backend o = Some b ->
    (forall c, Ocean.pb_items b c = (good ++ bad :: rest, failure)) ->
    map_result (Ocean.prepare (Ocean.project o)) good = Ok prepared ->
    Ocean.prepare (Ocean.project o) bad = Raise e ->
    let survivors := filter (fun i => negb (Ocean.drop_item i)) prepared in
    exists (packs : list (list pyval)) (pack : list pyval) (o' : Ocean.ocean),
      Ocean.feed from_date offset o = (Raise e, o')
      /\ Ocean.uploads o' = Ocean.uploads o ++ map upload_of packs
      /\ List.concat packs ++ pack = survivors
      /\ Forall (fun p => List.length p = bulk_size o) packs
      /\ (List.length pack <= bulk_size o)%nat
      /\ (forall it, last_item prepared = Some it -> Ocean.drop_item it = false ->
            pack <> []
            /\ List.length packs = ((List.length survivors - 1) / bulk_size o)%nat)
      /\ (forall it, last_item prepared = Some it -> Ocean.drop_item it = true ->
            (List.length pack < bulk_size o)%nat
            /\ List.length packs = (List.length survivors / bulk_size o)%nat)
      /\ (prepared = [] -> packs = [] /\ pack = []).
Proof.
  intros o b from_date offset good rest prepared bad failure e Hb Hitems Hprep Hbad
    survivors.
  unfold Ocean.feed. unfold bind at 1. cbn [get]. rewrite Hb.
  unfold bind at 1. unfold Ocean.get_last_update_from_es at 1.
  unfold bind at 1. cbn [get ret].
  unfold bind at 1. cbn [modify]. unfold bind at 1. cbn [modify].
  rewrite Hitems.
  match goal with
  | |- context [bind (Ocean.feed_loop (good ++ bad :: rest) [] 0%nat) _ ?st] =>
      set (o1 := st)
  end.
  destruct (feed_loop_last_pack good prepared 0%nat o1 Hprep)
    as (packs & pack' & E & Hc & Hf & Hl & Hlast & Hdropped & Hnone).
  assert (Hm : (1 <= bulk_size o)%nat) by (unfold bulk_size; lia).
  change (bulk_size o1) with (bulk_size o) in Hf, Hl, Hdropped.
  destruct (packs_count (bulk_size o) packs pack' survivors Hm Hc Hf) as [Hk Hk'].
  exists packs, pack'. eexists. unfold bind at 1.
  rewrite feed_loop_app, E.
  cbn [fst snd Ocean.feed_loop]. unfold bind at 1. cbn [get].
  unfold bind at 1. unfold lift.
  change (Ocean.project (Ocean.set_uploads (Ocean.uploads o1 ++ map upload_of packs) o1))
    with (Ocean.project o).
  rewrite Hbad.
  split; [reflexivity |]. split; [reflexivity |]. split; [exact Hc |].
  split; [exact Hf |]. split; [exact Hl |].
  split; [| split; [| exact Hnone]].
  - intros it Hit Hs. pose proof (Hlast it Hit Hs) as Hne.
    split; [exact Hne | exact (Hk Hne Hl)].
  - intros it Hit Hd. pose proof (Hdropped it Hit Hd) as Hlt.
    split; [exact Hlt | exact (Hk' Hlt)].
Qed.

(** X15.  [add_update_date] writes the two date fields of the index and
    nothing else: the record is a dict afterwards as before, the two
    fields hold the ISO texts of its epochs ['updated_on'] and
    ['timestamp'], and every other field has the value it had. *)
Theorem add_update_date_keeps_fields :
  forall (item : pyval) (d' : list (string * pyval)),
    Ocean.add_update_date item = Ok d' ->
    exists (d : list (string * pyval)) (updated timestamp : string),
      item = PDict d
      /\ rbind (getitem item "updated_on") Ocean.fromtimestamp_isoformat = Ok updated
      /\ rbind (getitem item "timestamp") Ocean.fromtimestamp_isoformat = Ok timestamp
      /\ assoc "metadata__updated_on" d' = Some (PStr updated)
      /\ assoc "metadata__timestamp" d' = Some (PStr timestamp)
      /\ (forall key,
             key <> "metadata__updated_on" -> key <> "metadata__timestamp" ->
             assoc key d' = assoc key d).
Proof.
  intros item d' Hadd. unfold Ocean.add_update_date in Hadd.
  destruct (getitem item "updated_on") as [u |] eqn:Hu; [| discriminate].
  cbn [rbind] in Hadd |- *.
  destruct (Ocean.fromtimestamp_isoformat u) as [updated |] eqn:Hup; [| discriminate].
  cbn [rbind] in Hadd.
  destruct (getitem item "timestamp") as [t |] eqn:Ht; [| discriminate].
  cbn [rbind] in Hadd |- *.
  destruct (Ocean.fromtimestamp_isoformat t) as [timestamp |] eqn:Htp; [| discriminate].
  cbn [rbind] in Hadd.
  destruct item as [| | | | | d]; try discriminate.
  injection Hadd as <-.
  exists d, updated, timestamp.
  split; [reflexivity |]. split; [reflexivity |]. split; [reflexivity |].
  split; [| split].
  - rewrite assoc_set_other by discriminate. apply assoc_set_same.
  - apply assoc_set_same.
  - intros key H1 H2. rewrite !assoc_set_other by assumption. reflexivity.
Qed.

End Interrupted.

Lemma feed_interrupted_by_the_connector_witness :
  let items := [sample_item "a" false; sample_item "b" false] in
  let o := sample_ocean (failing_backend items ConnectionError) false [] in
  exists (o' : Ocean.ocean),
    Ocean.feed (H := sample_hooks) None None o = (Raise ConnectionError, o')
    /\ bulk_size o = 2%nat
    /\ Ocean.uploads o' = [].
Proof.
  cbn zeta.
  destruct (feed_interrupted_by_the_connector (H := sample_hooks)
              (sample_ocean
                 (failing_backend [sample_item "a" false; sample_item "b" false]
                    ConnectionError) false [])
              (failing_backend [sample_item "a" false; sample_item "b" false]
                 ConnectionError) None None
              [sample_item "a" false; sample_item "b" false]
              (firstn 2 sample_prepared) ConnectionError
              eq_refl (fun _ => eq_refl) eq_refl)
    as (packs & pack & o' & Hfeed & Hup & _ & _ & _ & Hlast & _).
  destruct (Hlast _ eq_refl eq_refl) as [_ Hcount].
  exists o'. split; [exact Hfeed |]. split; [reflexivity |].
  rewrite Hup. destruct packs as [| p packs]; [reflexivity |].
  vm_compute in Hcount. discriminate Hcount.
Defined.

Lemma feed_stops_at_bad_item_witness :
  let items := [sample_item "a" false; sample_item "b" false]
                 ++ PDict [("uuid", PStr "bad")] :: [sample_item "c" false] in
  let o := sample_ocean (sample_backend true items) false [] in
  exists (o' : Ocean.ocean),
    Ocean.feed (H := sample_hooks) None None o = (Raise (KeyError "updated_on"), o')
    /\ bulk_size o = 2%nat
    /\ Ocean.uploads o' = [].
Proof.
  cbn zeta.
  destruct (feed_stops_at_bad_item (H := sample_hooks)
              (sample_ocean
                 (sample_backend true
                    ([sample_item "a" false; sample_item "b" false]
                       ++ PDict [("uuid", PStr "bad")] :: [sample_item "c" false]))
                 false [])
              (sample_backend true
                 ([sample_item "a" false; sample_item "b" false]
                    ++ PDict [("uuid", PStr "bad")] :: [sample_item "c" false]))
              None None
              [sample_item "a" false; sample_item "b" false] [sample_item "c" false]
              (firstn 2 sample_prepared) (PDict [("uuid", PStr "bad")])
              None (KeyError "updated_on")
              eq_refl (fun _ => eq_refl) eq_refl eq_refl)
    as (packs & pack & o' & Hfeed & Hup & _ & _ & _ & Hlast & _).
  destruct (Hlast _ eq_refl eq_refl) as [_ Hcount].
  exists o'. split; [exact Hfeed |]. split; [reflexivity |].
  rewrite Hup. destruct packs as [| p packs]; [reflexivity |].
  vm_compute in Hcount. discriminate Hcount.
Defined.

Lemma add_update_date_keeps_fields_witness :
  exists d',
    Ocean.add_update_date (H := sample_hooks) (sample_item "a" false) = Ok d'
    /\ assoc "metadata__updated_on" d' = Some (PStr "2015-08-12T18:32:10")
    /\ assoc "uuid" d' = Some (PStr "a").
Proof.
  eexists. split; [reflexivity |].
  destruct (add_update_date_keeps_fields (H := sample_hooks) (sample_item "a" false) _ eq_refl)
    as (d & updated & timestamp & Hd & Hu & _ & Hup & _ & Hkeep).
  injection Hd as <-. injection Hu as <-.
  split; [exact Hup |]. rewrite Hkeep by discriminate. reflexivity.
Defined.

(** ** The requests of the read-back *)

Lemma quiet_refl o : quiet o o.
Proof. repeat split. Qed.

Lemma quiet_trans o1 o2 o3 : quiet o1 o2 -> quiet o2 o3 -> quiet o1 o3.
Proof.
  intros (A1 & A2 & A3 & A4 & A5) (B1 & B2 & B3 & B4 & B5).
  repeat split; congruence.
Qed.

Lemma quiet_bind {A B} (m : Ocean.M A) (f : A -> Ocean.M B) :
  keeps quiet m -> (forall a, keeps quiet (f a)) -> keeps quiet (bind m f).
Proof.
  intros Hm Hf o. unfold bind. specialize (Hm o).
  destruct (m o) as [[a | e] o1]; cbn [snd] in *; [| exact Hm].
  eapply quiet_trans; [exact Hm | apply Hf].
Qed.

Lemma quiet_still {A} (m : Ocean.M A) : (forall o, snd (m o) = o) -> keeps quiet m.
Proof. intros Hm o. rewrite Hm. apply quiet_refl. Qed.

Lemma bound_and_has_quiet rjson key : keeps quiet (Ocean.bound_and_has rjson key).
Proof.
  unfold Ocean.bound_and_has. destruct rjson as [v |]; [| apply quiet_still; reflexivity].
  destruct (truthy v); apply quiet_still; reflexivity.
Qed.

Lemma warning_quiet msg : keeps quiet (Ocean.warning msg).
Proof. intros o. repeat split. Qed.

Lemma post_eq (u : Ocean.es_url) (data : Ocean.es_data) (o : Ocean.ocean) :
  Ocean.post u data o
  = let o1 := Ocean.set_es_posts (Ocean.es_posts o ++ [(u, data)]) o in
    match Ocean.es_server o with
    | [] => (Raise ConnectionError, o1)
    | Ocean.Unreachable :: rest => (Raise ConnectionError, Ocean.set_es_server rest o1)
    | Ocean.Answer r :: rest => (Ok r, Ocean.set_es_server rest o1)
    end.
Proof.
  unfold Ocean.post, bind, get, modify, ret, raise.
  cbn [Ocean.es_server Ocean.set_es_posts].
  destruct (Ocean.es_server o) as [| [| r] rest]; reflexivity.
Qed.

(** [post] logs its request whatever the store answers. *)
Lemma post_logged (u : Ocean.es_url) (data : Ocean.es_data) (o : Ocean.ocean) :
  Ocean.es_posts (snd (Ocean.post u data o)) = Ocean.es_posts o ++ [(u, data)]
  /\ Ocean.url (snd (Ocean.post u data o)) = Ocean.url o
  /\ Ocean.index_url (snd (Ocean.post u data o)) = Ocean.index_url o
  /\ Ocean.backend (snd (Ocean.post u data o)) = Ocean.backend o
  /\ Ocean.from_date (snd (Ocean.post u data o)) = Ocean.from_date o.
Proof.
  rewrite post_eq.
  destruct (Ocean.es_server o) as [| [| r] rest]; cbn; repeat split.
Qed.

(** One call of [_get_elastic_items] posts one request, however it
    ends: the request that the cursor held by the engine calls for. *)
Lemma get_elastic_items_posts (o : Ocean.ocean) :
  Ocean.es_posts (snd (Ocean._get_elastic_items o)) = Ocean.es_posts o ++ [page_request o]
  /\ Ocean.url (snd (Ocean._get_elastic_items o)) = Ocean.url o
  /\ Ocean.index_url (snd (Ocean._get_elastic_items o)) = Ocean.index_url o
  /\ Ocean.backend (snd (Ocean._get_elastic_items o)) = Ocean.backend o
  /\ Ocean.from_date (snd (Ocean._get_elastic_items o)) = Ocean.from_date o.
Proof.
  remember (Ocean._get_elastic_items o) as res eqn:E.
  unfold Ocean._get_elastic_items in E. unfold bind at 1 in E. cbn [get] in E.
  match type of E with
  | context [bind ?p ?k o] =>
      assert (Hp : Ocean.es_posts (snd (p o)) = Ocean.es_posts o ++ [page_request o]
                   /\ Ocean.url (snd (p o)) = Ocean.url o
                   /\ Ocean.index_url (snd (p o)) = Ocean.index_url o
                   /\ Ocean.backend (snd (p o)) = Ocean.backend o
                   /\ Ocean.from_date (snd (p o)) = Ocean.from_date o);
      [| assert (Hk : forall r, keeps quiet (k r));
         [| unfold bind at 1 in E; destruct (p o) as [[r | e] o1]; cbn [snd] in Hp;
            subst res; cbn [snd]; [| exact Hp];
            destruct Hp as (Hp1 & Hp2 & Hp3 & Hp4 & Hp5);
            destruct (Hk r o1) as (Hq1 & Hq2 & Hq3 & Hq4 & Hq5);
            repeat split; congruence]]
  end.
  { unfold page_request, scroll_request, search_request.
    destruct (truthy (Ocean.elastic_scroll_id o)); apply post_logged. }
  clear E res Hp. intros r.
  apply quiet_bind.
  { destruct (Ocean.json r); [apply quiet_still; reflexivity |].
    apply quiet_bind; [apply warning_quiet |]. intros _.
    apply quiet_bind; [apply warning_quiet |]. intros _.
    apply quiet_still. reflexivity. }
  intros rjson.
  apply quiet_bind; [apply bound_and_has_quiet |]. intros has_scroll.
  apply quiet_bind.
  { destruct has_scroll; [| intros o1; repeat split].
    destruct rjson as [v |]; [| apply quiet_still; reflexivity].
    apply quiet_bind; [apply quiet_still; reflexivity |].
    intros id o1. repeat split. }
  intros _.
  apply quiet_bind; [apply bound_and_has_quiet |]. intros has_hits.
  destruct has_hits.
  - destruct rjson as [v |]; [| apply quiet_still; reflexivity].
    apply quiet_bind; [apply quiet_still; reflexivity |]. intros hits.
    apply quiet_bind; [apply quiet_still; reflexivity |]. intros hits'.
    apply quiet_still. reflexivity.
  - apply quiet_bind; [apply warning_quiet |]. intros _.
    apply quiet_still. reflexivity.
Qed.

(** X16.  [__iter__] opens a cursor of its own, however it ends and
    whatever an earlier iteration left behind: the only request that it
    posts is a search for the documents of the origin from the start
    date on, with pages of ten, never the continuation of a cursor that
    the engine still held. *)
Theorem iter_opens_a_cursor :
  forall (o : Ocean.ocean),
    Ocean.es_posts (snd (Ocean.__iter__ o)) = Ocean.es_posts o ++ [search_request o 10].
Proof.
  intros o. unfold Ocean.__iter__.
  unfold bind at 1. cbn [modify]. unfold bind at 1. cbn [modify].
  set (o0 := Ocean.set_elastic_page 10 (Ocean.set_elastic_scroll_id PNone o)).
  destruct (get_elastic_items_posts o0) as (Hposts & _).
  unfold bind at 1.
  destruct (Ocean._get_elastic_items o0) as [[items | e] o1]; cbn [snd modify] in *;
    cbn [Ocean.es_posts Ocean.set_iter_items]; exact Hposts.
Qed.

Lemma snd_iterate_buffer (buffer : list pyval) (o : Ocean.ocean) (fuel : nat) :
  Ocean.iter_items o = buffer ->
  snd (Ocean.iterate (List.length buffer + fuel) o)
  = snd (Ocean.iterate fuel (Ocean.set_iter_items [] o)).
Proof.
  intros Hb. rewrite (iterate_buffer buffer o fuel Hb).
  destruct (Ocean.iterate fuel (Ocean.set_iter_items [] o)) as [[ys | e] o']; reflexivity.
Qed.

(** The requests of the iteration once the cursor is open: one
    continuation of the cursor per page, and one more that finds the
    empty page. *)
Lemma iterate_pages_posts token rest (ps : list (list pyval)) :
  truthy token = true ->
  Forall (fun p => p <> []) ps ->
  forall o fuel,
    Ocean.iter_items o = [] ->
    Ocean.elastic_scroll_id o = token ->
    Ocean.es_server o
    = map (Ocean.page_answer token) ps ++ [Ocean.page_answer token []] ++ rest ->
    (List.length (List.concat ps) < fuel)%nat ->
    Ocean.es_posts (snd (Ocean.iterate fuel o))
    = Ocean.es_posts o ++ repeat (scroll_request o token) (S (List.length ps)).
Proof.
  intros Htok Hne. induction Hne as [| p ps Hp Hps IH]; intros o fuel Hb Hid Hs Hfuel.
  - cbn [map app] in Hs.
    destruct (get_elastic_items_page o token [] rest Hs) as (o1 & Hg & _).
    destruct (get_elastic_items_posts o) as (Hposts & _).
    rewrite Hg in Hposts. cbn [snd] in Hposts.
    destruct fuel as [| fuel]; [cbn in Hfuel; lia |].
    cbn [Ocean.iterate].
    rewrite (next_refills o o1 [] Hb (eq_trans (f_equal truthy Hid) Htok) Hg).
    cbn [rev snd Ocean.es_posts Ocean.set_iter_items List.length repeat].
    rewrite Hposts. unfold page_request. rewrite Hid, Htok. reflexivity.
  - cbn [map app] in Hs.
    destruct (get_elastic_items_page o token p _ Hs) as (o1 & Hg & Hr & Hid1 & _).
    destruct (get_elastic_items_posts o) as (Hposts & Hurl & _).
    rewrite Hg in Hposts, Hurl. cbn [snd] in Hposts, Hurl.
    pose proof (next_refills o o1 p Hb (eq_trans (f_equal truthy Hid) Htok) Hg) as Hn.
    destruct (rev p) as [| x front] eqn:Hrev.
    { apply (f_equal (@rev pyval)) in Hrev. rewrite rev_involutive in Hrev.
      contradiction. }
    assert (Hlen : List.length p = S (List.length (rev front))).
    { rewrite <- (length_rev p), Hrev, length_rev. reflexivity. }
    cbn [List.concat] in Hfuel. rewrite length_app, Hlen in Hfuel.
    destruct fuel as [| fuel]; [lia |].
    cbn [Ocean.iterate]. rewrite Hn.
    replace fuel
      with (List.length (rev front) + (fuel - List.length (rev front)))%nat by lia.
    pose proof (snd_iterate_buffer (rev front) (Ocean.set_iter_items (rev front) o1)
                  (fuel - List.length (rev front))%nat eq_refl) as Hbuf.
    pose proof (IH (Ocean.set_iter_items [] (Ocean.set_iter_items (rev front) o1))
                   (fuel - List.length (rev front))%nat eq_refl Hid1 Hr) as Hrec.
    destruct (Ocean.iterate
                (List.length (rev front) + (fuel - List.length (rev front)))
                (Ocean.set_iter_items (rev front) o1)) as [[ys | e] o2];
      cbn [snd] in Hbuf |- *; subst o2; (rewrite Hrec; [| lia]);
      cbn [Ocean.es_posts Ocean.set_iter_items List.length];
      rewrite Hposts; unfold page_request; rewrite Hid, Htok;
      unfold scroll_request; cbn [Ocean.url Ocean.set_iter_items]; rewrite Hurl;
      rewrite <- app_assoc; reflexivity.
Qed.

(** X17.  Reading back a store that serves its documents in pages takes
    one search, which opens the cursor with pages of ten, then one
    continuation of the cursor per page, each carrying the token that the
    store gave, the last of them finding the empty page: no request is
    repeated and none is made after the empty page. *)
Theorem read_back_requests :
  forall (o : Ocean.ocean) (docs : list pyval) (size : nat) (token : pyval)
         (rest : list Ocean.es_response) (fuel : nat),
    (1 <= size)%nat ->
    docs <> [] ->
    truthy token = true ->
    Ocean.es_server o = Ocean.scan size token docs ++ rest ->
    (List.length docs < fuel)%nat ->
    Ocean.es_posts (snd (Ocean.for_in fuel o))
    = Ocean.es_posts o
      ++ search_request o 10
      :: repeat (scroll_request o token)
                (List.length (Ocean.pages (List.length docs) size docs)).
Proof.
  intros o docs size token rest fuel Hsize Hdocs Htok Hs Hfuel.
  destruct (pages_cover size Hsize (List.length docs) docs (le_n _)) as [Hcover Hne].
  unfold Ocean.scan in Hs.
  destruct (Ocean.pages (List.length docs) size docs) as [| p ps] eqn:Hpages.
  { cbn in Hcover. congruence. }
  cbn [map app] in Hs. rewrite <- app_assoc in Hs.
  apply Forall_cons_iff in Hne. destruct Hne as [Hp Hps].
  unfold Ocean.for_in, Ocean.__iter__.
  unfold bind at 1. unfold bind at 1. cbn [modify]. unfold bind at 1. cbn [modify].
  unfold bind at 1.
  match goal with
  | |- context [Ocean._get_elastic_items ?st] => set (o0 := st)
  end.
  destruct (get_elastic_items_page o0 token p _ Hs) as (o1 & Hg & Hr & Hid1 & _).
  destruct (get_elastic_items_posts o0) as (Hposts & Hurl & _).
  rewrite Hg in Hposts, Hurl. cbn [snd] in Hposts, Hurl.
  rewrite Hg. cbn [modify].
  cbn [List.concat] in Hcover.
  assert (Hlen : List.length docs = (List.length p + List.length (List.concat ps))%nat).
  { rewrite <- Hcover at 1. apply length_app. }
  replace fuel with (List.length p + (fuel - List.length p))%nat by lia.
  rewrite (snd_iterate_buffer p (Ocean.set_iter_items p o1) _ eq_refl).
  rewrite (iterate_pages_posts token rest ps Htok Hps
             (Ocean.set_iter_items [] (Ocean.set_iter_items p o1))
             (fuel - List.length p)%nat eq_refl Hid1 Hr) by lia.
  cbn [Ocean.es_posts Ocean.set_iter_items List.length].
  rewrite Hposts. unfold scroll_request. cbn [Ocean.url Ocean.set_iter_items].
  rewrite Hurl. rewrite <- app_assoc. reflexivity.
Qed.

Lemma read_back_requests_witness :
  Ocean.es_posts (snd (Ocean.for_in 4 three_pages_ocean))
  = [search_request three_pages_ocean 10;
     scroll_request three_pages_ocean (PStr "c2Nhbjs");
     scroll_request three_pages_ocean (PStr "c2Nhbjs");
     scroll_request three_pages_ocean (PStr "c2Nhbjs")].
Proof.
  apply (read_back_requests three_pages_ocean three_docs 1 (PStr "c2Nhbjs") [] 4).
  - lia.
  - discriminate.
  - reflexivity.
  - unfold three_pages_ocean, sample_ocean. cbn [Ocean.es_server].
    rewrite app_nil_r. reflexivity.
  - cbn. lia.
Defined.

(** ** The replay of a fetch that was interrupted *)

Section ReplayOfAnyFetch.
Context {P : Bugzilla.Parsers}.

Lemma bind_inv {S A B} (m : Py.M S A) (f : A -> Py.M S B) st r st' :
  bind m f st = (r, st') ->
  (exists e, m st = (Raise e, st') /\ r = Raise e)
  \/ (exists a st1, m st = (Ok a, st1) /\ f a st1 = (r, st')).
Proof.
  unfold bind. destruct (m st) as [[a | e] st1]; intros E.
  - right. exists a, st1. split; [reflexivity | exact E].
  - left. injection E as <- <-. exists e. split; reflexivity.
Qed.

Lemma yields_more_refl st : yields_more st st.
Proof.
  split; [reflexivity |]. split; [reflexivity |]. exists []. rewrite app_nil_r. reflexivity.
Qed.

Lemma yields_more_trans st1 st2 st3 :
  yields_more st1 st2 -> yields_more st2 st3 -> yields_more st1 st3.
Proof.
  intros (C1 & O1 & x1 & Y1) (C2 & O2 & x2 & Y2).
  split; [congruence |]. split; [congruence |].
  exists (x1 ++ x2). rewrite Y2, Y1, app_assoc. reflexivity.
Qed.

Lemma yields_more_same st st' :
  Bugzilla.cache st' = Bugzilla.cache st ->
  Bugzilla.origin st' = Bugzilla.origin st ->
  Bugzilla.yielded st' = Bugzilla.yielded st ->
  yields_more st st'.
Proof.
  intros Hc Ho Hy. split; [exact Hc |]. split; [exact Ho |].
  exists []. rewrite app_nil_r. exact Hy.
Qed.

(** What comes before the flush of a chunk hands items on and leaves
    the cache alone. *)
Lemma fetch_bugs_yield_more (bugs : list pyval) :
  preserves yields_more (for_each bugs (Bugzilla.fetch_bug with_metadata)).
Proof.
  apply kept_for_each; [apply yields_more_refl | apply yields_more_trans |].
  intros bug _.
  apply fetch_bug_kept.
  - apply yields_more_refl.
  - apply yields_more_trans.
  - intros n st. apply yields_more_same; reflexivity.
  - intros item st. split; [reflexivity |]. split; [reflexivity |].
    exists [item]. reflexivity.
  - intros r st. apply yields_more_same; reflexivity.
  - intros q st. apply yields_more_same; reflexivity.
  - intros id st. apply yields_more_same; reflexivity.
Qed.

Lemma details_yield_more (bug_ids : list pyval) :
  preserves yields_more (Bugzilla.__fetch_and_parse_bugs_details bug_ids).
Proof.
  unfold Bugzilla.__fetch_and_parse_bugs_details, Bugzilla.client_bugs.
  apply kept_bind; [apply yields_more_trans | |].
  - intros st. apply call_kept.
    + apply yields_more_trans.
    + intros r s. apply yields_more_same; reflexivity.
    + apply yields_more_same; reflexivity.
  - intros raw_bugs. apply kept_bind; [apply yields_more_trans | |].
    + apply push_kept; [apply yields_more_refl |].
      intros q s. apply yields_more_same; reflexivity.
    + intros _. apply kept_still; [apply yields_more_refl | reflexivity].
Qed.

Lemma fetch_chunk_raises (buglist : list pyval) (i : nat) (st st1 : Bugzilla.bugzilla) e :
  Bugzilla.fetch_chunk with_metadata buglist i st = (Raise e, st1) ->
  yields_more st st1.
Proof.
  unfold Bugzilla.fetch_chunk. intros E.
  apply bind_inv in E. destruct E as [(e' & E & _) | (s0 & s0' & Hget & E)];
    [discriminate |].
  cbn [get] in Hget. injection Hget as <- <-.
  apply bind_inv in E. destruct E as [(e' & E & _) | (ids & s1 & Hids & E)].
  { unfold lift in E. injection E as _ <-. apply yields_more_refl. }
  unfold lift in Hids. injection Hids as _ <-.
  pose proof (details_yield_more ids st) as H2.
  apply bind_inv in E. destruct E as [(e' & E & _) | (bugs & s2 & Hdet & E)].
  { rewrite E in H2. exact H2. }
  rewrite Hdet in H2. cbn [snd] in H2.
  apply bind_inv in E. destruct E as [(e' & E & _) | (bugs' & s3 & Hl & E)].
  { unfold lift in E. injection E as _ <-. exact H2. }
  unfold lift in Hl. injection Hl as _ <-.
  pose proof (fetch_bugs_yield_more bugs' s2) as H3.
  apply bind_inv in E. destruct E as [(e' & E & _) | ([] & s4 & Hbugs & E)].
  - rewrite E in H3. cbn [snd] in H3. eapply yields_more_trans; eassumption.
  - exfalso. revert E. unfold Bugzilla._flush_cache_queue, bind, get.
    destruct (Bugzilla.cache s4); discriminate.
Qed.

(** The chunks of a fetch, however it ends: the units stored replay to
    the first items handed on, one details block a unit and one activity
    block an item; and when the chunks end normally, these are all the
    items. *)
Lemma fetch_chunks_any (buglist : list pyval) (idx : list nat) :
  forall (st st1 : Bugzilla.bugzilla) r units,
    Bugzilla.cache st = Some units ->
    Bugzilla.cache_queue st = [] ->
    for_each idx (Bugzilla.fetch_chunk with_metadata buglist) st = (r, st1) ->
    exists new datas ys extra,
      Bugzilla.cache st1 = Some (units ++ new)
      /\ (forall more datas',
            replayed [] more datas' ->
            replayed [] (List.concat new ++ more) (datas ++ datas'))
      /\ Bugzilla.yielded st1 = Bugzilla.yielded st ++ ys ++ extra
      /\ Forall2 (stamped (Bugzilla.origin st)) datas ys
      /\ Bugzilla.origin st1 = Bugzilla.origin st
      /\ List.length (List.concat new) = (List.length new + List.length datas)%nat
      /\ (r = Ok tt -> extra = []).
Proof.
  induction idx as [| i idx IH]; intros st st1 r units Hcache Hq0 Hrun.
  - cbn in Hrun. injection Hrun as _ <-.
    exists [], [], [], []. rewrite !app_nil_r.
    split; [exact Hcache |]. split; [intros more datas' H; exact H |].
    split; [reflexivity |]. split; [constructor |].
    split; [reflexivity |]. split; reflexivity.
  - cbn [for_each] in Hrun.
    apply bind_inv in Hrun.
    destruct Hrun as [(e & Hchunk & Hr) | ([] & s1 & Hchunk & Hrun)].
    + destruct (fetch_chunk_raises _ _ _ _ _ Hchunk) as (Hc & Ho & extra & Hy).
      exists [], [], [], extra. rewrite app_nil_r.
      split; [congruence |].
      split; [intros more datas' H; exact H |].
      split; [exact Hy |]. split; [constructor |]. split; [exact Ho |].
      split; [reflexivity |]. intros Hok. rewrite Hok in Hr. discriminate Hr.
    + destruct (fetch_chunk_stamped buglist i st s1 units Hcache Hq0 Hchunk)
        as (unit & datas & ys & Hc & Hq & Htr & Hy & Hws & Ho & Hm & Hlen).
      destruct (IH s1 st1 r (units ++ [unit]) Hc Hq Hrun)
        as (new & datas2 & ys2 & extra & Hc' & Htr' & Hy' & Hws' & Ho' & Hlen' & Hall).
      rewrite Ho in *.
      exists (unit :: new), (datas ++ datas2), (ys ++ ys2), extra.
      split; [rewrite Hc', <- app_assoc; reflexivity |].
      split.
      { intros more datas' Hmore. cbn [List.concat]. rewrite <- !app_assoc.
        apply Htr. apply Htr'. exact Hmore. }
      split; [rewrite Hy', Hy, <- !app_assoc; reflexivity |].
      split; [apply Forall2_app; assumption |].
      split; [congruence |].
      split; [| exact Hall].
      cbn [List.concat List.length]. rewrite !length_app, Hlen, Hlen'. lia.
Qed.

(** The fetch from the purge of the queue on, however it ends. *)
Lemma fetch_any (from_date : option datetime) (st s' : Bugzilla.bugzilla) r :
  Bugzilla.cache st = Some [] ->
  Bugzilla.fetch_undecorated from_date with_metadata st = (r, s') ->
  exists new datas ys extra,
    Bugzilla.cache s' = Some new
    /\ replayed [] (List.concat new) datas
    /\ Bugzilla.yielded s' = Bugzilla.yielded st ++ ys ++ extra
    /\ Forall2 (stamped (Bugzilla.origin st)) datas ys
    /\ Bugzilla.origin s' = Bugzilla.origin st
    /\ List.length (List.concat new) = (List.length new + List.length datas)%nat
    /\ (r = Ok tt -> extra = []).
Proof.
  intros Hcache Hfetch.
  assert (Hnone : forall s,
            Bugzilla.origin s = Bugzilla.origin st ->
            Bugzilla.cache s = Bugzilla.cache st ->
            Bugzilla.yielded s = Bugzilla.yielded st ->
            exists new datas ys extra,
              Bugzilla.cache s = Some new
              /\ replayed [] (List.concat new) datas
              /\ Bugzilla.yielded s = Bugzilla.yielded st ++ ys ++ extra
              /\ Forall2 (stamped (Bugzilla.origin st)) datas ys
              /\ Bugzilla.origin s = Bugzilla.origin st
              /\ List.length (List.concat new) = (List.length new + List.length datas)%nat
              /\ (r = Ok tt -> extra = [])).
  { intros s Ho Hc Hy.
    exists [], [], [], []. rewrite Hc, Hy, app_nil_r.
    split; [exact Hcache |]. split; [constructor |]. split; [reflexivity |].
    split; [constructor |]. split; [exact Ho |]. split; reflexivity. }
  unfold Bugzilla.fetch_undecorated in Hfetch.
  apply bind_inv in Hfetch. destruct Hfetch as [(e & E & _) | ([] & s1 & Hpurge & Hfetch)];
    [discriminate |].
  unfold Bugzilla._purge_cache_queue in Hpurge. cbn [modify] in Hpurge.
  injection Hpurge as <-.
  match type of Hfetch with
  | bind (Bugzilla.__fetch_buglist ?d) _ ?t = _ =>
      pose proof (fetch_buglist_preserves d t) as Hframe
  end.
  apply bind_inv in Hfetch.
  destruct Hfetch as [(e & E & _) | (buglist & s2 & Hlist & Hfetch)].
  { rewrite E in Hframe. cbn [snd] in Hframe.
    destruct Hframe as (Ho & Hm & Hc & Hq & Hck & Htk & Hy).
    apply Hnone; assumption. }
  rewrite Hlist in Hframe. cbn [snd] in Hframe.
  destruct Hframe as (Ho & Hm & Hc & Hq & Hck & Htk & Hy).
  cbn [Bugzilla.origin Bugzilla.max_bugs Bugzilla.cache Bugzilla.cache_queue
       Bugzilla.clock Bugzilla.ticks Bugzilla.yielded Bugzilla.set_cache_queue]
    in Ho, Hm, Hc, Hq, Hck, Htk, Hy.
  unfold Bugzilla.fetch_details in Hfetch.
  apply bind_inv in Hfetch. destruct Hfetch as [(e & E & _) | (s3 & s3' & Hget & Hfetch)];
    [discriminate |].
  cbn [get] in Hget. injection Hget as <- <-.
  apply bind_inv in Hfetch. destruct Hfetch as [(e & E & _) | (idx & s4 & Hidx & Hfetch)].
  { unfold lift in E. injection E as _ <-. apply Hnone; assumption. }
  unfold lift in Hidx. injection Hidx as _ <-.
  destruct (fetch_chunks_any buglist idx s2 s' r [] (eq_trans Hc Hcache) Hq Hfetch)
    as (new & datas & ys & extra & Hc' & Htr & Hy' & Hws & Ho' & Hlen & Hall).
  exists new, datas, ys, extra.
  specialize (Htr [] [] replayed_done). rewrite !app_nil_r in Htr.
  rewrite Ho in *. rewrite Hy in Hy'.
  split; [exact Hc' |]. split; [exact Htr |]. split; [exact Hy' |].
  split; [exact Hws |]. split; [exact Ho' |]. split; [exact Hlen | exact Hall].
Qed.

Lemma Forall2_same_length {A B} (R : A -> B -> Prop) (l : list A) (l' : list B) :
  Forall2 R l l' -> List.length l = List.length l'.
Proof. induction 1; cbn [List.length]; congruence. Qed.

(** X18.  Whatever a fetch that started with an empty cache has come
    to, and however it ended, the cache it leaves can be replayed while
    its storage can be read.  The replay runs to completion; it yields one
    record for every activity block in the cache (the blocks of the cache
    less one details block a unit); these records are, in order, the first
    records that the fetch had handed on, with the same fields, origin,
    update time and identity; what the fetch handed on after it stored its
    last unit is not replayed; and when the fetch ended normally, every
    record is replayed. *)
Theorem replay_of_any_fetch :
  forall (st : Bugzilla.bugzilla) (from_date : option datetime),
    Bugzilla.cache st = Some [] ->
    Bugzilla.cache_readable (final (Bugzilla.run (Bugzilla.fetch from_date) st)) = true ->
    exists ys' st'' units,
      Bugzilla.cache (final (Bugzilla.run (Bugzilla.fetch from_date) st)) = Some units
      /\ Bugzilla.run Bugzilla.fetch_from_cache
           (final (Bugzilla.run (Bugzilla.fetch from_date) st))
         = (ys', Ok tt, st'')
      /\ (List.length ys' + List.length units)%nat = List.length (List.concat units)
      /\ (List.length ys'
          <= List.length (items_of (Bugzilla.run (Bugzilla.fetch from_date) st)))%nat
      /\ Forall2 same_record
           (firstn (List.length ys')
              (items_of (Bugzilla.run (Bugzilla.fetch from_date) st)))
           ys'
      /\ map identity_of ys'
         = map identity_of
             (firstn (List.length ys')
                (items_of (Bugzilla.run (Bugzilla.fetch from_date) st)))
      /\ (outcome (Bugzilla.run (Bugzilla.fetch from_date) st) = Ok tt ->
          List.length ys'
          = List.length (items_of (Bugzilla.run (Bugzilla.fetch from_date) st))).
Proof.
  intros st from_date Hcache.
  unfold Bugzilla.run at 1 2 4 5 6 7 8 9, Bugzilla.fetch, Bugzilla.metadata_get_update_time,
    final, items_of, outcome.
  change (Bugzilla.fetch_undecorated from_date
            (fun item => item <- Bugzilla.add_metadata item ;; Bugzilla.collect item))
    with (Bugzilla.fetch_undecorated from_date with_metadata).
  destruct (Bugzilla.fetch_undecorated from_date with_metadata (Bugzilla.set_yielded [] st))
    as [r s'] eqn:Hfetch.
  cbn [fst snd]. intros Hread.
  destruct (fetch_any from_date (Bugzilla.set_yielded [] st) s' r Hcache Hfetch)
    as (new & datas & zs & extra & Hc' & Htr & Hy' & Hws & Ho' & Hlen & Hall).
  cbn [Bugzilla.origin Bugzilla.yielded Bugzilla.set_yielded app] in Hy', Hws, Ho'.
  rewrite run_fetch_from_cache, Hc', Hread. cbn [Bugzilla.retrieve].
  destruct (replayed_resume _ _ _ Htr
              (S (List.length (List.concat new)))
              (Bugzilla.set_yielded [] s'))
    as (s'' & ys' & Hreplay & Hy'' & Hws' & Hf).
  { lia. }
  rewrite Hreplay.
  cbn [Bugzilla.yielded Bugzilla.set_yielded app] in Hy''.
  change (Bugzilla.origin (Bugzilla.set_yielded [] s')) with (Bugzilla.origin s') in Hws'.
  rewrite Ho' in Hws'.
  destruct (stamped_identities _ datas zs ys' Hws Hws') as (Hl & Hs & _ & _ & Hi).
  pose proof (Forall2_same_length _ _ _ Hws') as Hd.
  assert (Hfirst : firstn (List.length ys') (zs ++ extra) = zs).
  { rewrite Hl, firstn_app, Nat.sub_diag, firstn_all. cbn [firstn]. apply app_nil_r. }
  exists ys', s'', new. rewrite Hy'', Hy', Hfirst.
  split; [reflexivity |]. split; [reflexivity |].
  split; [rewrite Hlen, <- Hd; lia |].
  split; [rewrite length_app; lia |].
  split; [exact Hs |]. split; [exact Hi |].
  intros Hok. rewrite (Hall Hok), app_nil_r. exact Hl.
Qed.

End ReplayOfAnyFetch.

Lemma replay_of_any_fetch_witness :
  exists ys' st'',
    Bugzilla.run (Bugzilla.fetch_from_cache (P := sample_parsers))
      (final (Bugzilla.run (Bugzilla.fetch (P := sample_parsers) None)
                interrupted_connector))
    = (ys', Ok tt, st'')
    /\ List.length ys' = 2%nat
    /\ List.length
         (items_of (Bugzilla.run (Bugzilla.fetch (P := sample_parsers) None)
                      interrupted_connector)) = 3%nat
    /\ outcome (Bugzilla.run (Bugzilla.fetch (P := sample_parsers) None)
                  interrupted_connector)
       = Raise (ParseError "Table of bug activity not found.")
    /\ Forall2 same_record
         (firstn 2
            (items_of (Bugzilla.run (Bugzilla.fetch (P := sample_parsers) None)
                         interrupted_connector)))
         ys'.
Proof.
  assert (Hunits : Bugzilla.cache
                     (final (Bugzilla.run (Bugzilla.fetch (P := sample_parsers) None)
                               interrupted_connector))
                   = Some [["xml: 15, 18"; "html: no changes"; "html: one change"]])
    by (vm_compute; reflexivity).
  assert (Hlive : List.length
                    (items_of (Bugzilla.run (Bugzilla.fetch (P := sample_parsers) None)
                                 interrupted_connector)) = 3%nat)
    by (vm_compute; reflexivity).
  assert (Hout : outcome (Bugzilla.run (Bugzilla.fetch (P := sample_parsers) None)
                            interrupted_connector)
                 = Raise (ParseError "Table of bug activity not found."))
    by (vm_compute; reflexivity).
  destruct (replay_of_any_fetch (P := sample_parsers) interrupted_connector None eq_refl)
    as (ys' & st'' & units & Hc & E & Hn & _ & Hs & _).
  - vm_compute. reflexivity.
  - rewrite Hunits in Hc. injection Hc as <-.
    cbn [List.concat List.length app] in Hn.
    assert (Hlen : List.length ys' = 2%nat) by lia.
    rewrite Hlen in Hs.
    exists ys', st''.
    split; [exact E |]. split; [exact Hlen |]. split; [exact Hlive |].
    split; [exact Hout | exact Hs].
Defined.

(** ** The project of the records *)

Section Project.
Context {H : Ocean.Hooks}.

Lemma prepare_tagged (p : string) (item it : pyval) :
  p <> "" ->
  Ocean.prepare (Some p) item = Ok it ->
  getitem it "project" = Ok (PStr p).
Proof.
  intros Hp. unfold Ocean.prepare.
  destruct (Ocean.add_update_date item) as [d |]; [| discriminate].
  cbn [rbind Ocean.project_set].
  destruct (String.eqb_spec p ""); [contradiction |].
  intros E. injection E as <-. cbn [getitem]. rewrite assoc_set_same. reflexivity.
Qed.

Lemma prepared_tagged (p : string) (items : list pyval) :
  p <> "" ->
  forall prepared,
    map_result (Ocean.prepare (Some p)) items = Ok prepared ->
    Forall (fun it => getitem it "project" = Ok (PStr p)) prepared.
Proof.
  intros Hp. induction items as [| item items IH]; intros prepared E.
  - cbn in E. injection E as <-. constructor.
  - cbn [map_result] in E.
    destruct (Ocean.prepare (Some p) item) as [it |] eqn:Hit; [| discriminate].
    cbn [rbind] in E.
    destruct (map_result (Ocean.prepare (Some p)) items) as [rest |]; [| discriminate].
    cbn [rbind] in E. injection E as <-.
    constructor; [exact (prepare_tagged p item it Hp Hit) | apply IH; reflexivity].
Qed.

(** X19.  When the engine has a project, every record that a pass hands
    to the store carries it under ['project'], whatever the record
    carried under that key and whatever the fixing hook made of it. *)
Theorem feed_tags_with_project :
  forall (o : Ocean.ocean) (b : Ocean.perceval_backend)
         (from_date : option datetime) (offset : option Z)
         (items prepared : list pyval) (p : string),
    Ocean.backend o = Some b ->
    (forall c, Ocean.pb_items b c = (items, None)) ->
    Ocean.project o = Some p ->
    p <> "" ->
    map_result (Ocean.prepare (Ocean.project o)) items = Ok prepared ->
    exists (packs : list (list pyval)) (drop : nat) (o' : Ocean.ocean),
      Ocean.feed from_date offset o = (Ok drop, o')
      /\ Ocean.uploads o' = Ocean.uploads o ++ map upload_of packs
      /\ Forall (Forall (fun it => getitem it "project" = Ok (PStr p))) packs.
Proof.
  intros o b from_date offset items prepared p Hb Hitems Hproj Hp Hprep.
  assert (Htag : Forall (fun it => getitem it "project" = Ok (PStr p))
                   (filter (fun i => negb (Ocean.drop_item i)) prepared)).
  { rewrite Hproj in Hprep. pose proof (prepared_tagged p items Hp prepared Hprep) as Hall.
    apply Forall_forall. intros it Hin. apply filter_In in Hin.
    rewrite Forall_forall in Hall. apply Hall. exact (proj1 Hin). }
  unfold Ocean.feed. unfold bind at 1. cbn [get]. rewrite Hb.
  unfold bind at 1. unfold Ocean.get_last_update_from_es at 1.
  unfold bind at 1. cbn [get ret].
  unfold bind at 1. cbn [modify]. unfold bind at 1. cbn [modify].
  rewrite Hitems.
  match goal with
  | |- context [bind (Ocean.feed_loop items [] 0%nat) _ ?st] => set (o1 := st)
  end.
  destruct (feed_loop_packs items prepared [] 0%nat o1) as (packs & pack' & E & Hc & Hf & Hl).
  { exact Hprep. }
  { cbn. lia. }
  unfold bind at 1. rewrite E. cbn [app] in Hc. rewrite <- Hc in Htag.
  apply Forall_app in Htag. destruct Htag as [Hpacks Hpack].
  apply Forall_concat in Hpacks.
  destruct pack' as [| x pack'].
  - exists packs. eexists. eexists. unfold bind at 1. rewrite items_to_es_empty.
    cbn [ret]. split; [reflexivity |]. split; [reflexivity | exact Hpacks].
  - exists (packs ++ [x :: pack']). eexists. eexists. unfold bind at 1.
    rewrite items_to_es_pack. cbn [ret]. split; [reflexivity |]. split.
    + cbn [Ocean.uploads Ocean.set_uploads]. rewrite map_app, app_assoc. reflexivity.
    + apply Forall_app. split; [exact Hpacks | constructor; [exact Hpack | constructor]].
Qed.

End Project.

Lemma feed_tags_with_project_witness :
  exists (packs : list (list pyval)) (drop : nat) (o' : Ocean.ocean),
    Ocean.feed (H := sample_hooks) None None
      (project_ocean (sample_backend true sample_items))
    = (Ok drop, o')
    /\ Ocean.uploads o' = map upload_of packs
    /\ Forall (Forall (fun it => getitem it "project" = Ok (PStr "gluster"))) packs.
Proof.
  destruct (feed_tags_with_project (H := sample_hooks)
              (project_ocean (sample_backend true sample_items))
              (sample_backend true sample_items) None None
              sample_items project_prepared "gluster"
              eq_refl (fun _ => eq_refl) eq_refl)
    as (packs & drop & o' & Hfeed & Hup & Htag).
  - discriminate.
  - reflexivity.
  - exists packs, drop, o'. split; [exact Hfeed |]. split; [exact Hup | exact Htag].
Defined.
